(** * F2, package [replace]: the replacement-directive interpreter

    A shallow embedding of [internal/replace] (token lexicons, the limited
    regex replacer and the replacement chain orchestrator) together with
    the parts of the Go runtime and standard library the package calls
    ([strings], [strconv], [math], [path/filepath], [regexp]).

    Go strings are byte strings: they are modelled by [string], whose
    characters are the 256 byte values.  Go's [int] is the 64-bit signed
    integer, modelled by [Z] with the wrap-around written out. *)

From Stdlib Require Import String Ascii List ZArith Lia Bool Arith.
Import ListNotations.

Open Scope list_scope.
Open Scope string_scope.

(* ================================================================== *)
(** * Part I: definitions                                              *)
(* ================================================================== *)

(** ** Go integers and the int/float64 conversions used by the package *)

Module GoInt.
Local Open Scope Z_scope.

Definition minInt : Z := - 2 ^ 63.
Definition maxInt : Z := 2 ^ 63 - 1.

Definition inRange (n : Z) : bool := (minInt <=? n) && (n <=? maxInt).

(** Two's complement wrap-around of a 64-bit signed integer. *)
Definition wrap (n : Z) : Z := (n + 2 ^ 63) mod 2 ^ 64 - 2 ^ 63.

Definition add (a b : Z) : Z := wrap (a + b).

(** [len(s)] of a slice. *)
Definition len {A : Type} (l : list A) : Z := Z.of_nat (List.length l).

(** [float64(n)] for an [int] n.  A binary64 value has a 53-bit
    significand; an integer of larger magnitude is rounded to the
    nearest representable value, ties to the even significand.  Every
    value this conversion produces is itself an integer, so the float is
    represented by the integer it denotes. *)
Definition float64_of_int (n : Z) : Z :=
  let a := Z.abs n in
  if a <? 2 ^ 53 then n
  else
    let e := Z.log2 a - 52 in
    let q := Z.shiftr a e in
    let r := a - Z.shiftl q e in
    let half := Z.shiftl 1 (e - 1) in
    let q' := if (half <? r) || ((r =? half) && Z.odd q) then q + 1 else q in
    Z.sgn n * Z.shiftl q' e.

(** [math.Max] and [math.Min] on two floats that are neither NaN nor
    infinite. *)
Definition float64_Max (x y : Z) : Z := Z.max x y.
Definition float64_Min (x y : Z) : Z := Z.min x y.

(** [int(f)] for an integral float.  A value outside the range of [int]
    has an implementation-specific result in Go; amd64 yields the
    smallest integer. *)
Definition int_of_float64 (f : Z) : Z := if inRange f then f else minInt.
End GoInt.

(** ** Errors *)

Inductive error : Type :=
| errInvalidSubmatches                       (* errors.New("Invalid number of submatches") *)
| NumError (func num : string) (outOfRange : bool)   (* *strconv.NumError *)
| SyntaxError (expr : string)                (* *regexp/syntax.Error *)
| RuntimeError (msg : string)                (* runtime panics: index out of range *)
| OtherError (msg : string).                 (* errors of the collaborators *)

(** A Go call either returns a value or panics.  Functions declared with
    the result list [(T, error)] return a pair of a [T] and an optional
    error, as in the source. *)
Inductive Go (A : Type) : Type :=
| Ret (a : A)
| Panic (e : error).
Arguments Ret {A} a.
Arguments Panic {A} e.

Definition bindGo {A B : Type} (m : Go A) (k : A -> Go B) : Go B :=
  match m with
  | Ret a => k a
  | Panic e => Panic e
  end.

Declare Scope go_scope.
Delimit Scope go_scope with go.
Notation "x <- m ;; k" := (bindGo m (fun x => k))
  (at level 61, m at next level, right associativity) : go_scope.
Notation "' p <- m ;; k" := (bindGo m (fun x => match x with p => k end))
  (at level 61, p pattern, m at next level, right associativity) : go_scope.

(** ** Package [strings] *)

Module Strings.

Fixpoint rev (s : string) : string :=
  match s with
  | EmptyString => EmptyString
  | String c r => rev r ++ String c EmptyString
  end.

(** [s[lo:hi]] *)
Definition slice (s : string) (lo hi : nat) : string :=
  substring lo (hi - lo) s.

(** [strings.Contains(s, substr)] *)
Definition Contains (s substr : string) : bool :=
  match index 0 substr s with
  | Some _ => true
  | None => false
  end.

(** [strings.Split(s, sep)] for a non-empty separator (the package
    only passes one-byte separators).  [skip] counts the bytes of a
    separator still to be passed over; [cur] is the piece being read,
    reversed. *)
Fixpoint splitFrom (sep : string) (skip : nat) (cur : string) (s : string)
  : list string :=
  match s with
  | EmptyString => [rev cur]
  | String c r =>
      match skip with
      | S k => splitFrom sep k cur r
      | O =>
          if prefix sep s
          then rev cur :: splitFrom sep (String.length sep - 1) EmptyString r
          else splitFrom sep 0 (String c cur) r
      end
  end.

Definition Split (s sep : string) : list string :=
  splitFrom sep 0 EmptyString s.

(** The table [asciiSpace] of package strings. *)
Definition asciiSpace (c : ascii) : bool :=
  let n := nat_of_ascii c in
  (Nat.eqb n 9) || (Nat.eqb n 10) || (Nat.eqb n 11) || (Nat.eqb n 12)
  || (Nat.eqb n 13) || (Nat.eqb n 32).

(** [unicode.IsSpace] on the UTF-8 encodings of the white-space runes
    beyond ASCII: U+0085 and U+00A0 take two bytes, U+1680,
    U+2000..U+200A, U+2028, U+2029, U+202F, U+205F and U+3000 three. *)
Definition space2 (b1 b2 : ascii) : bool :=
  let x := nat_of_ascii b1 in
  let y := nat_of_ascii b2 in
  (Nat.eqb x 194) && ((Nat.eqb y 133) || (Nat.eqb y 160)).

Definition space3 (b1 b2 b3 : ascii) : bool :=
  let x := nat_of_ascii b1 in
  let y := nat_of_ascii b2 in
  let z := nat_of_ascii b3 in
  ((Nat.eqb x 225) && (Nat.eqb y 154) && (Nat.eqb z 128))
  || ((Nat.eqb x 226) && (Nat.eqb y 128)
      && (((Nat.leb 128 z) && (Nat.leb z 138))
          || (Nat.eqb z 168) || (Nat.eqb z 169) || (Nat.eqb z 175)))
  || ((Nat.eqb x 226) && (Nat.eqb y 129) && (Nat.eqb z 159))
  || ((Nat.eqb x 227) && (Nat.eqb y 128) && (Nat.eqb z 128)).

(** The scan that removes leading white space, over the encodings
    [sp2] and [sp3] of the white-space runes of two and three bytes. *)
Fixpoint trimRunes (sp2 : ascii -> ascii -> bool)
    (sp3 : ascii -> ascii -> ascii -> bool) (s : string) : string :=
  match s with
  | EmptyString => EmptyString
  | String b1 r1 =>
      if asciiSpace b1 then trimRunes sp2 sp3 r1
      else
        match r1 with
        | EmptyString => s
        | String b2 r2 =>
            if sp2 b1 b2 then trimRunes sp2 sp3 r2
            else
              match r2 with
              | EmptyString => s
              | String b3 r3 =>
                  if sp3 b1 b2 b3 then trimRunes sp2 sp3 r3 else s
              end
        end
  end.

(** Leading white space removed ([strings.TrimLeftFunc(s,
    unicode.IsSpace)], of which the ASCII loop of [TrimSpace] is the
    fast path). *)
Definition trimLeft (s : string) : string := trimRunes space2 space3 s.

(** The same scan over the reversed string: the bytes of a rune are met
    last byte first ([strings.TrimRightFunc] reads the runes from the
    end). *)
Definition trimLeftRev (s : string) : string :=
  trimRunes (fun b1 b2 => space2 b2 b1) (fun b1 b2 b3 => space3 b3 b2 b1) s.

Definition trimRight (s : string) : string := rev (trimLeftRev (rev s)).

(** [strings.TrimSpace(s)] *)
Definition TrimSpace (s : string) : string := trimRight (trimLeft s).

End Strings.

(** ** Package [regexp]

    The matcher itself is outside the package under study.  A compiled
    expression is represented by what the package observes of it: the
    successive matches it finds in a text (as [FindAllStringSubmatchIndex]
    with [n = -1] reports them: byte offsets of the match, and the texts of
    the match and of its capturing groups as [FindAllStringSubmatch]
    reports them), and the expansion of a replacement template that
    contains [$].  The functions that find all matches and those that
    replace all matches walk the same successive matches, from left to
    right, an empty match next to the match before it being passed over
    by both; the offsets lie in the text, in increasing order. *)

Module Regexp.

Record Match : Type := mkMatch {
  m_lo : nat;                (* loc[0] *)
  m_hi : nat;                (* loc[1] *)
  m_sub : list string        (* the match and its submatches *)
}.

Record t : Type := mkRegexp {
  expr : string;                                  (* re.String() *)
  allMatches : string -> list Match;              (* successive matches *)
  expandDollar : string -> Match -> string        (* re.expand on a template with $ *)
}.

(** The text of a match: [src[loc[0]:loc[1]]]. *)
Definition text (src : string) (m : Match) : string :=
  Strings.slice src (m_lo m) (m_hi m).

Definition MatchString (re : t) (s : string) : bool :=
  match allMatches re s with
  | [] => false
  | _ :: _ => true
  end.

(** [re.FindAllString(s, -1)] *)
Definition FindAllString (re : t) (s : string) : list string :=
  map (text s) (allMatches re s).

(** [re.FindAllStringSubmatch(s, -1)] *)
Definition FindAllStringSubmatch (re : t) (s : string) : list (list string) :=
  map m_sub (allMatches re s).

(** The loop of [re.replaceAll]: the text between matches is copied and
    [repl] is called on each match, from left to right.  The callback
    of [ReplaceAllStringFunc] is a closure; [St] is the state it
    captures, threaded through the calls in the order they are made. *)
Fixpoint replaceAll {St : Type} (src : string) (last : nat) (ms : list Match)
    (repl : Match -> St -> string * St) (st : St) : string * St :=
  match ms with
  | [] => (Strings.slice src last (String.length src), st)
  | m :: ms' =>
      let '(out, st1) := repl m st in
      let '(rest, st2) := replaceAll src (m_hi m) ms' repl st1 in
      (Strings.slice src last (m_lo m) ++ out ++ rest, st2)
  end.

(** [re.ReplaceAllStringFunc(src, repl)], with the state of the closure. *)
Definition ReplaceAllStringFunc {St : Type} (re : t) (src : string)
    (repl : string -> St -> string * St) (st : St) : string * St :=
  replaceAll src 0 (allMatches re src) (fun m => repl (text src m)) st.

(** [re.expand]: a template without [$] is copied as it is. *)
Definition expand (re : t) (template : string) (m : Match) : string :=
  if Strings.Contains template "$" then expandDollar re template m
  else template.

(** [re.ReplaceAllString(src, repl)] *)
Definition ReplaceAllString (re : t) (src repl : string) : string :=
  fst (replaceAll src 0 (allMatches re src)
         (fun m (_ : unit) => (expand re repl m, tt)) tt).

End Regexp.

(** ** The limited regex replacer *)

(** [regexReplace] replaces matched substrings in the input with the
    replacement.  It respects the specified replacement limit.  A negative
    limit indicates that replacement should start from the end of the
    file name.  The variable [counter] captured by the two closures is the
    state threaded through [ReplaceAllStringFunc]. *)
Definition regexReplace (regex : Regexp.t) (input replacement : string)
    (replaceLimit : Z) : string :=
  if (0 <? replaceLimit)%Z then
    fst (Regexp.ReplaceAllStringFunc regex input
           (fun val counter =>
              if (counter =? replaceLimit)%Z then (val, counter)
              else (Regexp.ReplaceAllString regex val replacement,
                    GoInt.add counter 1))
           0%Z)
  else if (replaceLimit <? 0)%Z then
    let matches := Regexp.FindAllString regex input in
    let l := GoInt.add (GoInt.len matches) replaceLimit in
    fst (Regexp.ReplaceAllStringFunc regex input
           (fun val counter =>
              if (l <=? counter)%Z
              then (Regexp.ReplaceAllString regex val replacement, counter)
              else (val, GoInt.add counter 1))
           0%Z)
  else Regexp.ReplaceAllString regex input replacement.

(** ** Package [strconv] *)

Module Strconv.
Local Open Scope Z_scope.

Definition isDigit (c : ascii) : bool :=
  let n := nat_of_ascii c in (Nat.leb 48 n) && (Nat.leb n 57).

Definition digitVal (c : ascii) : Z := Z.of_nat (nat_of_ascii c) - 48.

(** The decimal value of a string of digits, [None] when a byte is not
    a digit. *)
Fixpoint digits (acc : Z) (s : string) : option Z :=
  match s with
  | EmptyString => Some acc
  | String c r =>
      if isDigit c then digits (10 * acc + digitVal c) r else None
  end.

Definition unsigned (s : string) : option Z :=
  match s with
  | EmptyString => None
  | _ => digits 0 s
  end.

Definition signed (s : string) : option Z :=
  match s with
  | String "-"%char r => option_map Z.opp (unsigned r)
  | String "+"%char r => unsigned r
  | _ => unsigned s
  end.

(** [strconv.Atoi(s)]: an optional sign and decimal digits.  A syntax
    error returns 0; a value out of range returns the nearest bound. *)
Definition Atoi (s : string) : Z * option error :=
  match signed s with
  | None => (0, Some (NumError "Atoi" s false))
  | Some n =>
      if GoInt.inRange n then (n, None)
      else (if n <? 0 then GoInt.minInt else GoInt.maxInt,
            Some (NumError "Atoi" s true))
  end.
End Strconv.

(** ** Package [path/filepath] (Unix: the separator is the slash) *)

Module Filepath.

Definition isSep (c : ascii) : bool := Ascii.eqb c "/"%char.
Definition isDot (c : ascii) : bool := Ascii.eqb c "."%char.

(** The loop of [Ext]: the path is read from its last byte towards the
    first ([rpath] is the part still to read, last byte first) until a
    separator; [suffix] is the part already read. *)
Fixpoint extScan (rpath : string) (suffix : string) : string :=
  match rpath with
  | EmptyString => EmptyString
  | String c more =>
      if isSep c then EmptyString
      else if isDot c then String c suffix
      else extScan more (String c suffix)
  end.

(** [filepath.Ext(path)]: the suffix beginning at the final dot in the
    final element of path; empty if there is no dot. *)
Definition Ext (path : string) : string := extScan (Strings.rev path) EmptyString.

(** The elements of a path, separated by slashes. *)
Fixpoint elements (path : string) : list string :=
  match path with
  | EmptyString => [EmptyString]
  | String c r =>
      if isSep c then EmptyString :: elements r
      else
        match elements r with
        | e :: es => String c e :: es
        | [] => [String c EmptyString]
        end
  end.

(** One step of the loop of [Clean].  [out] holds the elements written
    so far, last one first.  A [..] kept in [out] (only in a path that
    is not rooted) is never removed by a later [..]: it lies below the
    index [dotdot] of the source. *)
Definition cleanStep (rooted : bool) (out : list string) (e : string)
  : list string :=
  if String.eqb e EmptyString then out                (* empty path element *)
  else if String.eqb e "." then out          (* . element *)
  else if String.eqb e ".." then
    match out with
    | top :: below =>
        if String.eqb top ".." then (if rooted then out else ".." :: out)
        else below                           (* can backtrack *)
    | [] => if rooted then [] else [".."]
    end
  else e :: out.                             (* real path element *)

Definition startsWithSep (path : string) : bool :=
  match path with
  | String c _ => isSep c
  | EmptyString => false
  end.

(** [filepath.Clean(path)] *)
Definition Clean (path : string) : string :=
  if String.eqb path EmptyString then "."
  else
    let rooted := startsWithSep path in
    let out := fold_left (cleanStep rooted) (elements path) [] in
    let body := String.concat "/" (List.rev out) in
    let res := if rooted then "/" ++ body else body in
    if String.eqb res EmptyString then "." else res.

Fixpoint dropEmpty (elem : list string) : list string :=
  match elem with
  | [] => []
  | e :: rest => if String.eqb e EmptyString then dropEmpty rest else elem
  end.

(** [filepath.Join(elem...)]: the elements from the first non-empty one
    on are joined with the separator and the result is cleaned; without
    a non-empty element the result is the empty string. *)
Definition Join (elem : list string) : string :=
  match dropEmpty elem with
  | [] => EmptyString
  | l => Clean (String.concat "/" l)
  end.

End Filepath.

(** ** Package [pathutil] *)

Module Pathutil.
(** Modelled from the spec: [pathutil.StripExtension], whose source is
    not among the files; the spec has the orchestrator "strip the
    extension" and later "reattach the stripped extension", the
    extension being [filepath.Ext] of the name: the name without that
    suffix. *)
Definition StripExtension (fileName : string) : string :=
  Strings.slice fileName 0
    (String.length fileName - String.length (Filepath.Ext fileName)).
End Pathutil.


(** ** Data model of the package *)

(** The structs of the token lexicons.  Their declarations are not among
    the files; the fields are those the extraction functions assign.  Each
    struct lives in a module of its name, so that the fields keep the
    names they have in the source. *)

Module csvVarMatch.
Record t : Type := mk {
  regex : Regexp.t; column : Z; transformToken : string }.
End csvVarMatch.

Module csvVars.
Record t : Type := mk {
  submatches : list (list string); values : list csvVarMatch.t }.
Definition zero : t := mk [] [].
End csvVars.

Module dateVarMatch.
Record t : Type := mk {
  regex : Regexp.t; val : list string; attr : string; token : string;
  transformToken : string }.
End dateVarMatch.

Module dateVars.
Record t : Type := mk { matches : list dateVarMatch.t }.
Definition zero : t := mk [].
End dateVars.

Module hashVarMatch.
Record t : Type := mk {
  regex : Regexp.t; val : list string; hashFn : string;
  transformToken : string }.
End hashVarMatch.

Module hashVars.
Record t : Type := mk { matches : list hashVarMatch.t }.
Definition zero : t := mk [].
End hashVars.

Module transformVarMatch.
Record t : Type := mk {
  regex : Regexp.t; val : list string; captureVar : string;
  inputStr : string; token : string; timeStr : string }.
End transformVarMatch.

Module transformVars.
Record t : Type := mk { matches : list transformVarMatch.t }.
Definition zero : t := mk [].
End transformVars.

Module exifVarMatch.
Record t : Type := mk {
  regex : Regexp.t; val : list string; attr : string; timeStr : string;
  transformToken : string }.
End exifVarMatch.

Module exifVars.
Record t : Type := mk { matches : list exifVarMatch.t }.
Definition zero : t := mk [].
End exifVars.

Module numbersToSkip.
Record t : Type := mk { max : Z; min : Z }.
End numbersToSkip.

Module indexStep.
Record t : Type := mk { isSet : bool; value : Z }.
Definition zero : t := mk false 0.
End indexStep.

Module indexVarMatch.
Record t : Type := mk {
  regex : Regexp.t; submatch : list string; startNumber : Z;
  indexFormat : string; numberSystem : string; step : indexStep.t;
  skip : list numbersToSkip.t }.
End indexVarMatch.

Module indexVars.
Record t : Type := mk {
  matches : list indexVarMatch.t; capturVarIndex : list Z;
  offset : list Z }.
Definition zero : t := mk [] [] [].
End indexVars.

Module exiftoolVarMatch.
Record t : Type := mk {
  regex : Regexp.t; attr : string; val : list string;
  transformToken : string }.
End exiftoolVarMatch.

Module exiftoolVars.
Record t : Type := mk { matches : list exiftoolVarMatch.t }.
Definition zero : t := mk [].
End exiftoolVars.

Module id3VarMatch.
Record t : Type := mk {
  regex : Regexp.t; tag : string; transformToken : string;
  val : list string }.
End id3VarMatch.

Module id3Vars.
Record t : Type := mk { matches : list id3VarMatch.t }.
Definition zero : t := mk [].
End id3Vars.

Module extVarMatch.
Record t : Type := mk { regex : Regexp.t; transformToken : string }.
End extVarMatch.

Module extVars.
Record t : Type := mk { matches : list extVarMatch.t }.
Definition zero : t := mk [].
End extVars.

Module parentDirVarMatch.
Record t : Type := mk {
  regex : Regexp.t; parent : Z; transformToken : string }.
End parentDirVarMatch.

Module parentDirVars.
Record t : Type := mk { matches : list parentDirVarMatch.t }.
Definition zero : t := mk [].
End parentDirVars.

Module filenameVarMatch.
Record t : Type := mk { regex : Regexp.t; transformToken : string }.
End filenameVarMatch.

Module filenameVars.
Record t : Type := mk { matches : list filenameVarMatch.t }.
Definition zero : t := mk [].
End filenameVars.

(** All the variables of one replacement template. *)
Module variables.
Record t : Type := mk {
  filename : filenameVars.t;
  ext : extVars.t;
  parentDir : parentDirVars.t;
  exif : exifVars.t;
  index : indexVars.t;
  id3 : id3Vars.t;
  hash : hashVars.t;
  date : dateVars.t;
  exiftool : exiftoolVars.t;
  transform : transformVars.t;
  csv : csvVars.t }.
Definition zero : t :=
  mk filenameVars.zero extVars.zero parentDirVars.zero exifVars.zero
     indexVars.zero id3Vars.zero hashVars.zero dateVars.zero
     exiftoolVars.zero transformVars.zero csvVars.zero.
(** The assignment [vars.field = x], for each field. *)
Definition setFilename (vars : t) (x : filenameVars.t) : t :=
  mk x (ext vars) (parentDir vars) (exif vars) (index vars) (id3 vars)
    (hash vars) (date vars) (exiftool vars) (transform vars) (csv vars).
Definition setExt (vars : t) (x : extVars.t) : t :=
  mk (filename vars) x (parentDir vars) (exif vars) (index vars)
    (id3 vars) (hash vars) (date vars) (exiftool vars) (transform vars)
    (csv vars).
Definition setParentDir (vars : t) (x : parentDirVars.t) : t :=
  mk (filename vars) (ext vars) x (exif vars) (index vars) (id3 vars)
    (hash vars) (date vars) (exiftool vars) (transform vars) (csv vars).
Definition setExif (vars : t) (x : exifVars.t) : t :=
  mk (filename vars) (ext vars) (parentDir vars) x (index vars)
    (id3 vars) (hash vars) (date vars) (exiftool vars) (transform vars)
    (csv vars).
Definition setIndex (vars : t) (x : indexVars.t) : t :=
  mk (filename vars) (ext vars) (parentDir vars) (exif vars) x
    (id3 vars) (hash vars) (date vars) (exiftool vars) (transform vars)
    (csv vars).
Definition setId3 (vars : t) (x : id3Vars.t) : t :=
  mk (filename vars) (ext vars) (parentDir vars) (exif vars)
    (index vars) x (hash vars) (date vars) (exiftool vars)
    (transform vars) (csv vars).
Definition setHash (vars : t) (x : hashVars.t) : t :=
  mk (filename vars) (ext vars) (parentDir vars) (exif vars)
    (index vars) (id3 vars) x (date vars) (exiftool vars)
    (transform vars) (csv vars).
Definition setDate (vars : t) (x : dateVars.t) : t :=
  mk (filename vars) (ext vars) (parentDir vars) (exif vars)
    (index vars) (id3 vars) (hash vars) x (exiftool vars)
    (transform vars) (csv vars).
Definition setExiftool (vars : t) (x : exiftoolVars.t) : t :=
  mk (filename vars) (ext vars) (parentDir vars) (exif vars)
    (index vars) (id3 vars) (hash vars) (date vars) x (transform vars)
    (csv vars).
Definition setTransform (vars : t) (x : transformVars.t) : t :=
  mk (filename vars) (ext vars) (parentDir vars) (exif vars)
    (index vars) (id3 vars) (hash vars) (date vars) (exiftool vars) x
    (csv vars).
Definition setCsv (vars : t) (x : csvVars.t) : t :=
  mk (filename vars) (ext vars) (parentDir vars) (exif vars)
    (index vars) (id3 vars) (hash vars) (date vars) (exiftool vars)
    (transform vars) x.
End variables.

(** [status.Status]: the declaration is not among the files; the spec
    lists pending, ok, error and conflict. *)
Module status.
Inductive Status : Type := Pending | OK | Error | Conflict.
End status.

(** [file.Change]: one entry of the batch, with the fields the package
    reads and writes. *)
Record Change : Type := mkChange {
  Source : string;
  Target : string;
  BaseDir : string;
  RelTargetPath : string;
  IsDir : bool;
  Index : Z;
  Status : status.Status
}.

Definition setIndex (c : Change) (i : Z) : Change :=
  mkChange (Source c) (Target c) (BaseDir c) (RelTargetPath c) (IsDir c) i
    (Status c).
Definition setTarget (c : Change) (t : string) : Change :=
  mkChange (Source c) t (BaseDir c) (RelTargetPath c) (IsDir c) (Index c)
    (Status c).
Definition setSource (c : Change) (s : string) : Change :=
  mkChange s (Target c) (BaseDir c) (RelTargetPath c) (IsDir c) (Index c)
    (Status c).
Definition setStatus (c : Change) (s : status.Status) : Change :=
  mkChange (Source c) (Target c) (BaseDir c) (RelTargetPath c) (IsDir c)
    (Index c) s.
Definition setRelTargetPath (c : Change) (p : string) : Change :=
  mkChange (Source c) (Target c) (BaseDir c) p (IsDir c) (Index c)
    (Status c).

(** [config.Config], with the fields the package reads and the
    find-arguments from which the search pattern of a link is compiled. *)
Record Config : Type := mkConfig {
  SearchRegex : Regexp.t;
  Replacement : string;
  ReplaceLimit : Z;
  IgnoreExt : bool;
  ReplacementSlice : list string;
  FindSlice : list string;
  Sort : string;
  ReverseSort : bool
}.

Definition withReplacement (conf : Config) (v : string) : Config :=
  mkConfig (SearchRegex conf) v (ReplaceLimit conf) (IgnoreExt conf)
    (ReplacementSlice conf) (FindSlice conf) (Sort conf) (ReverseSort conf).
Definition withSearchRegex (conf : Config) (re : Regexp.t) : Config :=
  mkConfig re (Replacement conf) (ReplaceLimit conf) (IgnoreExt conf)
    (ReplacementSlice conf) (FindSlice conf) (Sort conf) (ReverseSort conf).
(** The debug log written through [slog]: the message of each record
    and, for the records of [handleReplacementChain], the attributes of
    its context (the values the records carry in [slog.Any] are left
    out). *)
Inductive LogRecord : Type :=
| Debug (msg : string)
| DebugContext (find_arg replace_arg : string) (replacement_index : Z)
    (msg : string).

(** ** The collaborators

    What the package uses and the files do not define: the compiled
    patterns of the eleven lexicons (package-level variables), the regexp
    compiler, the variable substituter, the two ordering primitives of
    package [sortfiles] and the method of [Config] that recompiles the
    search pattern. *)
Record Env : Type := mkEnv {
  filenameVarRegex : Regexp.t;
  extensionVarRegex : Regexp.t;
  parentDirVarRegex : Regexp.t;
  exifVarRegex : Regexp.t;
  indexVarRegex : Regexp.t;
  id3VarRegex : Regexp.t;
  hashVarRegex : Regexp.t;
  dateVarRegex : Regexp.t;
  exiftoolVarRegex : Regexp.t;
  transformVarRegex : Regexp.t;
  csvVarRegex : Regexp.t;
  (** [regexp.Compile]: the compiled expression, or the error. *)
  Compile : string -> Regexp.t + error;
  (** Modelled from the spec: the Variable Substituter
      ([replaceVariables]), whose source is not among the files.  By its
      contract "substitute(workingName, extractedVars, fileContext) ->
      (finalName, error)" it computes the final name of the entry from
      the entry (whose [Target] is the working name) and the extracted
      variables, or fails; the index state it advances is kept in the
      variables. *)
  replaceVariables :
    Config -> Change -> variables.t -> Go (string * variables.t * option error);
  (** [sortfiles.EnforceHierarchicalOrder]: reorders the batch in place. *)
  EnforceHierarchicalOrder : list Change -> list Change;
  (** [sortfiles.Changes(changes, sort, reverse)] *)
  sortChanges : list Change -> string -> bool -> list Change * option error;
  (** [conf.SetFindStringRegex(i)]: the configuration it leaves and the
      error it returns. *)
  SetFindStringRegex : Config -> Z -> Config * option error
}.

(** [s[k]] on a slice of strings: out of range, the runtime panics. *)
Definition idx (s : list string) (k : nat) : Go string :=
  match nth_error s k with
  | Some x => Ret x
  | None => Panic (RuntimeError "index out of range")
  end.

(** ** The token lexicons *)

(** The eleven kinds of variables, in the order [extractVariables] runs
    their lexicons. *)
Inductive VariableKind : Type :=
| KFilename | KExtension | KParentDir | KExif | KIndex | KID3 | KHash | KDate
| KExifTool | KTransform | KCSV.

Section Lexicons.
Variable env : Env.
Local Open Scope go_scope.

(** The body of the loop of [getCSVVars]. *)
Fixpoint csvLoop (todo : list (list string)) (csv : csvVars.t)
  : Go (csvVars.t * option error) :=
  match todo with
  | [] => Ret (csv, None)
  | submatch :: rest =>
      if (GoInt.len submatch <? 3)%Z then Ret (csv, Some errInvalidSubmatches)
      else
        s0 <- idx submatch 0 ;;
        match Compile env s0 with
        | inr err => Ret (csv, Some err)
        | inl regex =>
            s1 <- idx submatch 1 ;;
            match Strconv.Atoi s1 with
            | (_, Some err) => Ret (csv, Some err)
            | (n, None) =>
                s2 <- idx submatch 2 ;;
                csvLoop rest
                  (csvVars.mk (csvVars.submatches csv)
                     (csvVars.values csv ++ [csvVarMatch.mk regex n s2])%list)
            end
        end
  end.

(** [getCSVVars] retrieves all the csv variables in the replacement
    string if any. *)
Definition getCSVVars (replacementInput : string)
  : Go (csvVars.t * option error) :=
  if Regexp.MatchString (csvVarRegex env) replacementInput then
    let submatches :=
      Regexp.FindAllStringSubmatch (csvVarRegex env) replacementInput in
    csvLoop submatches (csvVars.mk submatches [])
  else Ret (csvVars.zero, None).

Fixpoint dateLoop (todo : list (list string)) (acc : dateVars.t)
  : Go (dateVars.t * option error) :=
  match todo with
  | [] => Ret (acc, None)
  | submatch :: rest =>
      if (GoInt.len submatch <? 4)%Z then Ret (acc, Some errInvalidSubmatches)
      else
        s0 <- idx submatch 0 ;;
        match Compile env s0 with
        | inr err => Ret (acc, Some err)
        | inl regex =>
            s1 <- idx submatch 1 ;;
            s2 <- idx submatch 2 ;;
            s3 <- idx submatch 3 ;;
            dateLoop rest
              (dateVars.mk
                 (dateVars.matches acc
                    ++ [dateVarMatch.mk regex submatch s1 s2 s3])%list)
        end
  end.

(** [getDateVars] retrieves all the date variables in the replacement
    string if any. *)
Definition getDateVars (replacementInput : string)
  : Go (dateVars.t * option error) :=
  if negb (Regexp.MatchString (dateVarRegex env) replacementInput) then
    Ret (dateVars.zero, None)
  else
    dateLoop
      (Regexp.FindAllStringSubmatch (dateVarRegex env) replacementInput)
      dateVars.zero.

Fixpoint hashLoop (todo : list (list string)) (acc : hashVars.t)
  : Go (hashVars.t * option error) :=
  match todo with
  | [] => Ret (acc, None)
  | submatch :: rest =>
      if (GoInt.len submatch <? 3)%Z then Ret (acc, Some errInvalidSubmatches)
      else
        s0 <- idx submatch 0 ;;
        match Compile env s0 with
        | inr err => Ret (acc, Some err)
        | inl regex =>
            s1 <- idx submatch 1 ;;
            s2 <- idx submatch 2 ;;
            hashLoop rest
              (hashVars.mk
                 (hashVars.matches acc
                    ++ [hashVarMatch.mk regex submatch s1 s2])%list)
        end
  end.

(** [getHashVars] retrieves all the hash variables in the replacement
    string if any. *)
Definition getHashVars (replacementInput : string)
  : Go (hashVars.t * option error) :=
  if negb (Regexp.MatchString (hashVarRegex env) replacementInput) then
    Ret (hashVars.zero, None)
  else
    hashLoop
      (Regexp.FindAllStringSubmatch (hashVarRegex env) replacementInput)
      hashVars.zero.

Fixpoint transformLoop (todo : list (list string)) (acc : transformVars.t)
  : Go (transformVars.t * option error) :=
  match todo with
  | [] => Ret (acc, None)
  | submatch :: rest =>
      if (GoInt.len submatch <? 5)%Z then Ret (acc, Some errInvalidSubmatches)
      else
        s0 <- idx submatch 0 ;;
        match Compile env s0 with
        | inr err => Ret (acc, Some err)
        | inl regex =>
            s1 <- idx submatch 1 ;;
            s2 <- idx submatch 2 ;;
            s3 <- idx submatch 3 ;;
            s4 <- idx submatch 4 ;;
            transformLoop rest
              (transformVars.mk
                 (transformVars.matches acc
                    ++ [transformVarMatch.mk regex submatch s1 s2 s3 s4])%list)
        end
  end.

(** [getTransformVars] retrieves all the string transformation
    variables in the replacement string if any. *)
Definition getTransformVars (replacementInput : string)
  : Go (transformVars.t * option error) :=
  if negb (Regexp.MatchString (transformVarRegex env) replacementInput) then
    Ret (transformVars.zero, None)
  else
    transformLoop
      (Regexp.FindAllStringSubmatch (transformVarRegex env) replacementInput)
      transformVars.zero.

(** The loop of [getExifVars]: the expected length is 4 and the body
    reads [submatch[4]]. *)
Fixpoint exifLoop (todo : list (list string)) (acc : exifVars.t)
  : Go (exifVars.t * option error) :=
  match todo with
  | [] => Ret (acc, None)
  | submatch :: rest =>
      if (GoInt.len submatch <? 4)%Z then Ret (acc, Some errInvalidSubmatches)
      else
        s0 <- idx submatch 0 ;;
        match Compile env s0 with
        | inr err => Ret (acc, Some err)
        | inl regex =>
            s1 <- idx submatch 1 ;;
            s2 <- idx submatch 2 ;;
            let attr := if negb (String.eqb s2 EmptyString) then s2 else s1 in
            s3 <- idx submatch 3 ;;
            s4 <- idx submatch 4 ;;
            exifLoop rest
              (exifVars.mk
                 (exifVars.matches acc
                    ++ [exifVarMatch.mk regex submatch attr s3 s4])%list)
        end
  end.

(** [getExifVars] retrieves all the exif variables in the replacement
    string if any. *)
Definition getExifVars (replacementInput : string)
  : Go (exifVars.t * option error) :=
  if negb (Regexp.MatchString (exifVarRegex env) replacementInput) then
    Ret (exifVars.zero, None)
  else
    exifLoop
      (Regexp.FindAllStringSubmatch (exifVarRegex env) replacementInput)
      exifVars.zero.

(** The loop over the ranges of a skip specifier, split at [;]. *)
Fixpoint skipLoop (numRanges : list string) (skip : list numbersToSkip.t)
  : Go (list numbersToSkip.t * option error) :=
  match numRanges with
  | [] => Ret (skip, None)
  | val :: rest =>
      if Strings.Contains val "-" then
        let numRange := Strings.Split val "-" in
        n0 <- idx numRange 0 ;;
        match Strconv.Atoi n0 with
        | (_, Some err) => Ret (skip, Some err)
        | (startNum, None) =>
            n1 <- idx numRange 1 ;;
            match Strconv.Atoi n1 with
            | (_, Some err) => Ret (skip, Some err)
            | (endNum, None) =>
                skipLoop rest
                  (skip ++
                   [numbersToSkip.mk
                      (GoInt.int_of_float64
                         (GoInt.float64_Max (GoInt.float64_of_int startNum)
                            (GoInt.float64_of_int endNum)))
                      (GoInt.int_of_float64
                         (GoInt.float64_Min (GoInt.float64_of_int startNum)
                            (GoInt.float64_of_int endNum)))])%list
            end
        end
      else
        match Strconv.Atoi val with
        | (_, Some err) => Ret (skip, Some err)
        | (num, None) =>
            skipLoop rest (skip ++ [numbersToSkip.mk num num])%list
        end
  end.

(** The loop of [getIndexingVars]; [i] is the position of [submatch]
    among the submatches. *)
Fixpoint indexLoop (i : nat) (todo : list (list string))
    (indexMatches : indexVars.t) : Go (indexVars.t * option error) :=
  match todo with
  | [] => Ret (indexMatches, None)
  | submatch :: rest =>
      if (GoInt.len submatch <? 8)%Z then Panic errInvalidSubmatches
      else
        s0 <- idx submatch 0 ;;
        match Compile env s0 with
        | inr err => Ret (indexMatches, Some err)
        | inl regex =>
            s3 <- idx submatch 3 ;;
            s5 <- idx submatch 5 ;;
            s1 <- idx submatch 1 ;;
            let indexMatches1 :=
              if negb (String.eqb s1 EmptyString) then
                indexVars.mk (indexVars.matches indexMatches)
                  (indexVars.capturVarIndex indexMatches ++ [Z.of_nat i])%list
                  (indexVars.offset indexMatches)
              else indexMatches in
            s2 <- idx submatch 2 ;;
            match (if negb (String.eqb s2 EmptyString) then Strconv.Atoi s2
                   else (1%Z, None)) with
            | (_, Some err) => Ret (indexMatches1, Some err)
            | (startNumber, None) =>
                s6 <- idx submatch 6 ;;
                match (if negb (String.eqb s6 EmptyString)
                       then (let '(v, err) := Strconv.Atoi s6 in
                             (indexStep.mk true v, err))
                       else (indexStep.zero, None)) with
                | (_, Some err) => Ret (indexMatches1, Some err)
                | (step, None) =>
                    skipNumbers <- idx submatch 7 ;;
                    ' (skip, err) <-
                      (if negb (String.eqb skipNumbers EmptyString)
                       then skipLoop (Strings.Split skipNumbers ";") []
                       else Ret ([], None)) ;;
                    match err with
                    | Some err => Ret (indexMatches1, Some err)
                    | None =>
                        indexLoop (S i) rest
                          (indexVars.mk
                             (indexVars.matches indexMatches1
                                ++ [indexVarMatch.mk regex submatch startNumber
                                      s3 s5 step skip])%list
                             (indexVars.capturVarIndex indexMatches1)
                             (indexVars.offset indexMatches1))
                    end
                end
            end
        end
  end.

(** [getIndexingVars] retrieves all the index variables in the
    replacement string if any. *)
Definition getIndexingVars (replacementInput : string)
  : Go (indexVars.t * option error) :=
  match Regexp.FindAllStringSubmatch (indexVarRegex env) replacementInput with
  | [] => Ret (indexVars.zero, None)
  | submatches =>
      ' (indexMatches, err) <- indexLoop 0 submatches indexVars.zero ;;
      match err with
      | Some err => Ret (indexMatches, Some err)
      | None =>
          Ret (indexVars.mk (indexVars.matches indexMatches)
                 (indexVars.capturVarIndex indexMatches)
                 (indexVars.offset indexMatches
                    ++ map (fun _ => 0%Z) (indexVars.matches indexMatches))%list,
               None)
      end
  end.

Fixpoint exiftoolLoop (todo : list (list string)) (acc : exiftoolVars.t)
  : Go (exiftoolVars.t * option error) :=
  match todo with
  | [] => Ret (acc, None)
  | submatch :: rest =>
      if (GoInt.len submatch <? 3)%Z then Ret (acc, Some errInvalidSubmatches)
      else
        s0 <- idx submatch 0 ;;
        match Compile env s0 with
        | inr err => Ret (acc, Some err)
        | inl regex =>
            s1 <- idx submatch 1 ;;
            s2 <- idx submatch 2 ;;
            exiftoolLoop rest
              (exiftoolVars.mk
                 (exiftoolVars.matches acc
                    ++ [exiftoolVarMatch.mk regex s1 submatch s2])%list)
        end
  end.

(** [getExifToolVars] retrieves all the exiftool variables in the
    replacement string if any. *)
Definition getExifToolVars (replacementInput : string)
  : Go (exiftoolVars.t * option error) :=
  if negb (Regexp.MatchString (exiftoolVarRegex env) replacementInput) then
    Ret (exiftoolVars.zero, None)
  else
    exiftoolLoop
      (Regexp.FindAllStringSubmatch (exiftoolVarRegex env) replacementInput)
      exiftoolVars.zero.

(** The loop of [getID3Vars]: the expected length is 2 and the body
    reads [submatch[2]]. *)
Fixpoint id3Loop (todo : list (list string)) (acc : id3Vars.t)
  : Go (id3Vars.t * option error) :=
  match todo with
  | [] => Ret (acc, None)
  | submatch :: rest =>
      if (GoInt.len submatch <? 2)%Z then Ret (acc, Some errInvalidSubmatches)
      else
        s0 <- idx submatch 0 ;;
        match Compile env s0 with
        | inr err => Ret (acc, Some err)
        | inl regex =>
            s1 <- idx submatch 1 ;;
            s2 <- idx submatch 2 ;;
            id3Loop rest
              (id3Vars.mk
                 (id3Vars.matches acc
                    ++ [id3VarMatch.mk regex s1 s2 submatch])%list)
        end
  end.

(** [getID3Vars] retrieves all the id3 variables in the replacement
    string if any. *)
Definition getID3Vars (replacementInput : string)
  : Go (id3Vars.t * option error) :=
  if negb (Regexp.MatchString (id3VarRegex env) replacementInput) then
    Ret (id3Vars.zero, None)
  else
    id3Loop
      (Regexp.FindAllStringSubmatch (id3VarRegex env) replacementInput)
      id3Vars.zero.

Fixpoint extLoop (todo : list (list string)) (acc : extVars.t)
  : Go (extVars.t * option error) :=
  match todo with
  | [] => Ret (acc, None)
  | submatch :: rest =>
      if (GoInt.len submatch <? 2)%Z then Ret (acc, Some errInvalidSubmatches)
      else
        s0 <- idx submatch 0 ;;
        match Compile env s0 with
        | inr err => Ret (acc, Some err)
        | inl regex =>
            s1 <- idx submatch 1 ;;
            extLoop rest
              (extVars.mk (extVars.matches acc ++ [extVarMatch.mk regex s1])%list)
        end
  end.

Definition getExtVars (replacementInput : string)
  : Go (extVars.t * option error) :=
  if negb (Regexp.MatchString (extensionVarRegex env) replacementInput) then
    Ret (extVars.zero, None)
  else
    extLoop
      (Regexp.FindAllStringSubmatch (extensionVarRegex env) replacementInput)
      extVars.zero.

Fixpoint parentDirLoop (todo : list (list string)) (acc : parentDirVars.t)
  : Go (parentDirVars.t * option error) :=
  match todo with
  | [] => Ret (acc, None)
  | submatch :: rest =>
      if (GoInt.len submatch <? 3)%Z then Ret (acc, Some errInvalidSubmatches)
      else
        s0 <- idx submatch 0 ;;
        match Compile env s0 with
        | inr err => Ret (acc, Some err)
        | inl regex =>
            s1 <- idx submatch 1 ;;
            match (if negb (String.eqb s1 EmptyString) then Strconv.Atoi s1
                   else (1%Z, None)) with
            | (_, Some err) => Ret (acc, Some err)
            | (parent, None) =>
                s2 <- idx submatch 2 ;;
                parentDirLoop rest
                  (parentDirVars.mk
                     (parentDirVars.matches acc
                        ++ [parentDirVarMatch.mk regex parent s2])%list)
            end
        end
  end.

Definition getParentDirVars (replacementInput : string)
  : Go (parentDirVars.t * option error) :=
  if negb (Regexp.MatchString (parentDirVarRegex env) replacementInput) then
    Ret (parentDirVars.zero, None)
  else
    parentDirLoop
      (Regexp.FindAllStringSubmatch (parentDirVarRegex env) replacementInput)
      parentDirVars.zero.

Fixpoint filenameLoop (todo : list (list string)) (acc : filenameVars.t)
  : Go (filenameVars.t * option error) :=
  match todo with
  | [] => Ret (acc, None)
  | submatch :: rest =>
      if (GoInt.len submatch <? 2)%Z then Ret (acc, Some errInvalidSubmatches)
      else
        s0 <- idx submatch 0 ;;
        match Compile env s0 with
        | inr err => Ret (acc, Some err)
        | inl regex =>
            s1 <- idx submatch 1 ;;
            filenameLoop rest
              (filenameVars.mk
                 (filenameVars.matches acc
                    ++ [filenameVarMatch.mk regex s1])%list)
        end
  end.

Definition getFilenameVars (replacementInput : string)
  : Go (filenameVars.t * option error) :=
  if negb (Regexp.MatchString (filenameVarRegex env) replacementInput) then
    Ret (filenameVars.zero, None)
  else
    filenameLoop
      (Regexp.FindAllStringSubmatch (filenameVarRegex env) replacementInput)
      filenameVars.zero.

(** [extractVariables] retrieves all the variables present in the
    replacement string.  Each step assigns one field of [vars] and
    returns at the first error. *)
Definition extractVariables (replacement : string)
  : Go (variables.t * option error) :=
  let vars := variables.zero in
  ' (x, err) <- getFilenameVars replacement ;;
  let vars := variables.setFilename vars x in
  match err with Some err => Ret (vars, Some err) | None =>
  ' (x, err) <- getExtVars replacement ;;
  let vars := variables.setExt vars x in
  match err with Some err => Ret (vars, Some err) | None =>
  ' (x, err) <- getParentDirVars replacement ;;
  let vars := variables.setParentDir vars x in
  match err with Some err => Ret (vars, Some err) | None =>
  ' (x, err) <- getExifVars replacement ;;
  let vars := variables.setExif vars x in
  match err with Some err => Ret (vars, Some err) | None =>
  ' (x, err) <- getIndexingVars replacement ;;
  let vars := variables.setIndex vars x in
  match err with Some err => Ret (vars, Some err) | None =>
  ' (x, err) <- getID3Vars replacement ;;
  let vars := variables.setId3 vars x in
  match err with Some err => Ret (vars, Some err) | None =>
  ' (x, err) <- getHashVars replacement ;;
  let vars := variables.setHash vars x in
  match err with Some err => Ret (vars, Some err) | None =>
  ' (x, err) <- getDateVars replacement ;;
  let vars := variables.setDate vars x in
  match err with Some err => Ret (vars, Some err) | None =>
  ' (x, err) <- getExifToolVars replacement ;;
  let vars := variables.setExiftool vars x in
  match err with Some err => Ret (vars, Some err) | None =>
  ' (x, err) <- getTransformVars replacement ;;
  let vars := variables.setTransform vars x in
  match err with Some err => Ret (vars, Some err) | None =>
  ' (x, err) <- getCSVVars replacement ;;
  let vars := variables.setCsv vars x in
  match err with Some err => Ret (vars, Some err) | None =>
  Ret (vars, None)
  end end end end end end end end end end end.

End Lexicons.

(** ** The orchestrator *)

(** What the orchestrator mutates outside the batch: the configuration
    behind the pointer [conf] (which is the package-level configuration
    [config.SetReplacement] writes) and the debug log. *)
Record World : Type := mkWorld {
  w_conf : Config;
  w_log : list LogRecord
}.

Definition Exec (A : Type) : Type := World -> Go (A * World).

Definition retE {A : Type} (a : A) : Exec A := fun w => Ret (a, w).

Definition bindE {A B : Type} (m : Exec A) (k : A -> Exec B) : Exec B :=
  fun w =>
    match m w with
    | Ret (a, w') => k a w'
    | Panic e => Panic e
    end.

Definition liftGo {A : Type} (g : Go A) : Exec A :=
  fun w =>
    match g with
    | Ret a => Ret (a, w)
    | Panic e => Panic e
    end.

Declare Scope exec_scope.
Delimit Scope exec_scope with exec.
Notation "x <- m ;; k" := (bindE m (fun x => k))
  (at level 61, m at next level, right associativity) : exec_scope.
Notation "' p <- m ;; k" := (bindE m (fun x => match x with p => k end))
  (at level 61, p pattern, m at next level, right associativity) : exec_scope.
Notation "m ;;; k" := (bindE m (fun _ => k))
  (at level 61, right associativity) : exec_scope.

Definition getConf : Exec Config := fun w => Ret (w_conf w, w).

Definition slogDebug (msg : string) : Exec unit :=
  fun w => Ret (tt, mkWorld (w_conf w) (w_log w ++ [Debug msg])%list).

Definition slogDebugContext (ctx : string * string * Z) (msg : string)
  : Exec unit :=
  fun w =>
    let '(find_arg, replace_arg, i) := ctx in
    Ret (tt, mkWorld (w_conf w)
               (w_log w ++ [DebugContext find_arg replace_arg i msg])%list).

(** Modelled from the spec: [config.SetReplacement], whose source is not
    among the files.  Each link extracts "variables from that link's
    template": the call makes [v] the replacement of the configuration. *)
Definition SetReplacement (v : string) : Exec unit :=
  fun w => Ret (tt, mkWorld (withReplacement (w_conf w) v) (w_log w)).

(** [replaceString] replaces all matches in the filename with the
    replacement string. *)
Definition replaceString (conf : Config) (originalName : string) : string :=
  regexReplace (SearchRegex conf) originalName (Replacement conf)
    (ReplaceLimit conf).

(** The control flow out of the body of a loop. *)
Inductive Flow (A R : Type) : Type :=
| Next (a : A)          (* go on with the next iteration *)
| Return (r : R).       (* return from the function *)
Arguments Next {A R} a.
Arguments Return {A R} r.

Section Orchestrator.
Variable env : Env.
Local Open Scope exec_scope.

(** The body of the loop of [replaceMatches] for the entry [change] at
    position [i].  It returns the entry as the loop leaves it, the
    variables (the substituter advances the index state) and the error
    that ends the loop, if any. *)
Definition replaceOne (conf : Config) (i : Z) (vars : variables.t)
    (change : Change) : Exec (Change * variables.t * option error) :=
  let change := setIndex change i in
  let originalName := Source change in
  let fileExt := Filepath.Ext originalName in
  let originalName :=
    if IgnoreExt conf && negb (IsDir change)
    then Pathutil.StripExtension originalName else originalName in
  let change := setTarget change (replaceString conf originalName) in
  slogDebug "regex replacement result" ;;;
  (* Replace any variables present with their corresponding values *)
  ' (name, vars, err) <- liftGo (replaceVariables env conf change vars) ;;
  let change := setTarget change name in
  match err with
  | Some err => retE (change, vars, Some err)
  | None =>
      slogDebug "variable replacement result" ;;;
      (* Reattach the original extension to the new file name *)
      let change :=
        if IgnoreExt conf && negb (IsDir change)
        then setTarget change (Target change ++ fileExt) else change in
      let change :=
        setTarget change
          (Strings.TrimSpace (Filepath.Clean (Target change))) in
      let change := setStatus change status.OK in
      let change :=
        setRelTargetPath change
          (Filepath.Join [BaseDir change; Target change]) in
      retE (change, vars, None)
  end.

(** The loop of [replaceMatches] over the entries from position [i] on.
    The batch is a slice of pointers updated in place: the result is the
    content of that part of the slice when the loop ends, and the error
    that ended it. *)
Fixpoint replaceLoop (conf : Config) (i : Z) (vars : variables.t)
    (todo : list Change) : Exec (list Change * option error) :=
  match todo with
  | [] => retE ([], None)
  | change :: rest =>
      ' (change', vars', err) <- replaceOne conf i vars change ;;
      match err with
      | Some err => retE (change' :: rest, Some err)
      | None =>
          ' (rest', err) <- replaceLoop conf (i + 1) vars' rest ;;
          retE (change' :: rest', err)
      end
  end.

(** [replaceMatches] handles the replacement of matches in each file with
    the replacement string.  A nil slice is the empty list. *)
Definition replaceMatches (conf : Config) (matches : list Change)
  : Exec (list Change * option error) :=
  ' (vars, err) <- liftGo (extractVariables env (Replacement conf)) ;;
  match err with
  | Some err => retE ([], Some err)
  | None =>
      slogDebug "extracted variables" ;;;
      matches <-
        (if (0 <? GoInt.len (indexVars.matches (variables.index vars)))%Z
         then
           slogDebug "sorted matches based on directory level" ;;;
           retE (EnforceHierarchicalOrder env matches)
         else retE matches) ;;
      ' (matches, err) <- replaceLoop conf 0 vars matches ;;
      match err with
      | Some err => retE ([], Some err)
      | None => retE (matches, None)
      end
  end.

(** [conf.SetFindStringRegex(i)] on the configuration of the world. *)
Definition setFindStringRegex (i : Z) : Exec (option error) :=
  fun w =>
    let '(conf, err) := SetFindStringRegex env (w_conf w) i in
    Ret (err, mkWorld conf (w_log w)).

(** The body of the loop of [handleReplacementChain] for the link [v] at
    position [i] of the [n] links. *)
Definition chainBody (n : Z) (i : Z) (v : string) (matches : list Change)
  : Exec (Flow (list Change) (list Change * option error)) :=
  conf <- getConf ;;
  let ctx := (Regexp.expr (SearchRegex conf), v, i) in
  slogDebugContext ctx "executing find and replace" ;;;
  SetReplacement v ;;;
  conf <- getConf ;;
  ' (matches, err) <- replaceMatches conf matches ;;
  match err with
  | Some err => retE (Return ([], Some err))
  | None =>
      slogDebugContext ctx "find/replace result" ;;;
      if (n =? 1)%Z || ((0 <? i)%Z && (i =? n - 1)%Z)
      then retE (Return (matches, None))
      else
        (* Update the source to the target from the previous replacement
           in preparation for the next replacement *)
        let matches :=
          map (fun change =>
                 if negb (i =? n - 1)%Z then setSource change (Target change)
                 else change) matches in
        slogDebugContext ctx "updated sources for next find/replace" ;;;
        err <- setFindStringRegex (i + 1) ;;
        match err with
        | Some err => retE (Return ([], Some err))
        | None => retE (Next matches)
        end
  end.

Fixpoint chainLoop (n : Z) (i : Z) (todo : list string)
    (matches : list Change) : Exec (list Change * option error) :=
  match todo with
  | [] => retE (matches, None)
  | v :: rest =>
      flow <- chainBody n i v matches ;;
      match flow with
      | Return r => retE r
      | Next matches => chainLoop n (i + 1) rest matches
      end
  end.

Definition handleReplacementChain (matches : list Change)
  : Exec (list Change * option error) :=
  conf <- getConf ;;
  let replacementSlice := ReplacementSlice conf in
  chainLoop (GoInt.len replacementSlice) 0 replacementSlice matches.

(** [Replace] applies the file name replacements according to the
    --replace argument. *)
Definition Replace (changes : list Change)
  : Exec (list Change * option error) :=
  conf <- getConf ;;
  ' (changes, err) <-
    (if negb (String.eqb (Sort conf) EmptyString) then
       slogDebug "sorting matches before replacement" ;;;
       match sortChanges env changes (Sort conf) (ReverseSort conf) with
       | (changes, Some err) => retE (changes, Some err)
       | (changes, None) =>
           slogDebug "updated match order according to sort value" ;;;
           retE (changes, None)
       end
     else retE (changes, None)) ;;
  match err with
  | Some err => retE ([], Some err)
  | None =>
      ' (changes, err) <- handleReplacementChain changes ;;
      match err with
      | Some err => retE ([], Some err)
      | None => retE (changes, None)
      end
  end.

End Orchestrator.

(** ** Reference definitions, in the words of the specification *)

(** The text [src] with its [k]-th match ([k] counted from [k0])
    replaced by [f k m], the text between the matches left as it is. *)
Fixpoint substituteMatches (src : string) (last : nat) (k0 : nat)
    (ms : list Regexp.Match) (f : nat -> Regexp.Match -> string) : string :=
  match ms with
  | [] => Strings.slice src last (String.length src)
  | m :: ms' =>
      Strings.slice src last (Regexp.m_lo m) ++ f k0 m
      ++ substituteMatches src (Regexp.m_hi m) (S k0) ms' f
  end.

(** Which occurrences a limit selects among [total] matches: all of them
    for 0, the first [limit] for a positive limit, those from
    [keepFromIndex = total + limit] on for a negative one. *)
Definition limitSelects (limit total : Z) (k : nat) : bool :=
  if (limit =? 0)%Z then true
  else if (0 <? limit)%Z then (Z.of_nat k <? limit)%Z
  else (total + limit <=? Z.of_nat k)%Z.

(** The replacer in the words of the specification: a match the limit
    selects is replaced, by the template expanded on the match where it
    stands (what the unlimited replacement puts in its place); the other
    matches are left unmodified. *)
Definition limitedReplace (re : Regexp.t) (input repl : string) (limit : Z)
  : string :=
  let ms := Regexp.allMatches re input in
  substituteMatches input 0 0 ms
    (fun k m =>
       if limitSelects limit (GoInt.len ms) k
       then Regexp.expand re repl m
       else Regexp.text input m).

(** Under a limit other than 0, the expression finds in the text of each
    selected match, taken alone, what it finds where the match stands:
    replacing in that text gives the template expanded on the match. *)
Definition MatchesAlone (re : Regexp.t) (input repl : string) (limit : Z)
  : Prop :=
  forall k m,
    limit <> 0%Z ->
    nth_error (Regexp.allMatches re input) k = Some m ->
    limitSelects limit (GoInt.len (Regexp.allMatches re input)) k = true ->
    Regexp.ReplaceAllString re (Regexp.text input m) repl
    = Regexp.expand re repl m.

(** ** Concrete collaborators for the examples *)

Module Demo.

(** The successive occurrences of a non-empty literal pattern.  [pos] is
    the offset of [s] in the text, [skip] the number of bytes of the last
    occurrence still to pass. *)
Fixpoint literalMatches (p : string) (pos skip : nat) (s : string)
  : list Regexp.Match :=
  match s with
  | EmptyString => []
  | String _ r =>
      match skip with
      | S k => literalMatches p (S pos) k r
      | O =>
          if prefix p s
          then Regexp.mkMatch pos (pos + String.length p) [p]
               :: literalMatches p (S pos) (String.length p - 1) r
          else literalMatches p (S pos) 0 r
      end
  end.

(** The expression compiled from a non-empty pattern without
    metacharacters.  It has no capturing group; the examples use it with
    templates that hold no dollar sign, which [Regexp.expand] copies. *)
Definition literal (p : string) : Regexp.t :=
  Regexp.mkRegexp p (literalMatches p 0 0) (fun template _ => template).

(** The word characters of [\b] and [\B]: the ASCII letters, the digits
    and the underscore. *)
Definition isWord (c : ascii) : bool :=
  let n := nat_of_ascii c in
  ((Nat.leb 48 n) && (Nat.leb n 57)) || ((Nat.leb 65 n) && (Nat.leb n 90))
  || (Nat.eqb n 95) || ((Nat.leb 97 n) && (Nat.leb n 122)).

(** The successive occurrences of the literal [p], which begins with a
    word character, that do not begin at a word boundary: those that
    follow a word character.  [prev] tells whether the byte before [s]
    is one. *)
Fixpoint innerMatches (p : string) (prev : bool) (pos skip : nat) (s : string)
  : list Regexp.Match :=
  match s with
  | EmptyString => []
  | String c r =>
      match skip with
      | S k => innerMatches p (isWord c) (S pos) k r
      | O =>
          if prev && prefix p s
          then Regexp.mkMatch pos (pos + String.length p) [p]
               :: innerMatches p (isWord c) (S pos) (String.length p - 1) r
          else innerMatches p (isWord c) (S pos) 0 r
      end
  end.

(** The expression [\B] followed by the literal [p]; as [literal], it
    has no capturing group. *)
Definition inner (p : string) : Regexp.t :=
  Regexp.mkRegexp ("\B" ++ p) (innerMatches p false 0 0)
    (fun template _ => template).

(** An expression known by the matches it reports on the listed texts;
    it matches no other text. *)
Fixpoint lookup (table : list (string * list Regexp.Match)) (s : string)
  : list Regexp.Match :=
  match table with
  | [] => []
  | (k, ms) :: rest => if String.eqb k s then ms else lookup rest s
  end.

Definition tabulated (name : string)
    (table : list (string * list Regexp.Match)) : Regexp.t :=
  Regexp.mkRegexp name (lookup table) (fun template _ => template).

Definition never : Regexp.t := tabulated "never" [].

(** The match of an index token: the groups [getIndexingVars] reads are
    the capture variable [1], the start number [2], the format [3], the
    number system [5], the step [6] and the skip list [7]. *)
Definition indexToken (lo hi : nat) (tok fmt skip : string) : Regexp.Match :=
  Regexp.mkMatch lo hi
    [tok; EmptyString; EmptyString; fmt; EmptyString; EmptyString;
     EmptyString; skip].

(** The index pattern on the templates of the examples. *)
Definition indexPattern : Regexp.t :=
  tabulated "index"
    [("{%d}a", [indexToken 0 4 "{%d}" "%d" EmptyString]);
     ("{%d}b", [indexToken 0 4 "{%d}" "%d" EmptyString]);
     ("{%d<7-3;5>}", [indexToken 0 11 "{%d<7-3;5>}" "%d" "7-3;5"]);
     ("{%d<9007199254740993-9007199254740992>}",
      [indexToken 0 39 "{%d<9007199254740993-9007199254740992>}" "%d"
         "9007199254740993-9007199254740992"])].

(** An index pattern with fewer capturing groups than [getIndexingVars]
    expects, and a filename pattern with fewer than [getFilenameVars]
    expects. *)
Definition shortPattern : Regexp.t :=
  tabulated "short" [("{%d}{f}", [Regexp.mkMatch 0 4 ["{%d}"]])].

(** Modelled from the spec: [conf.SetFindStringRegex], whose source is
    not among the files; "the search pattern is recompiled from the next
    link's own find-argument". *)
Definition setFind (conf : Config) (i : Z) : Config * option error :=
  match nth_error (FindSlice conf) (Z.to_nat i) with
  | Some p => (withSearchRegex conf (literal p), None)
  | None => (conf, None)
  end.

(** A substituter for names that hold no token to resolve: it leaves the
    working name. *)
Definition keepName (conf : Config) (change : Change) (vars : variables.t)
  : Go (string * variables.t * option error) :=
  Ret (Target change, vars, None).

(** A substituter whose provider fails on the entry named [bad]. *)
Definition failOn (bad : string) (conf : Config) (change : Change)
    (vars : variables.t) : Go (string * variables.t * option error) :=
  if String.eqb (Source change) bad
  then Ret (Target change, vars, Some (OtherError "provider"))
  else Ret (Target change, vars, None).

Definition envWith (indexRe filenameRe : Regexp.t)
    (subst : Config -> Change -> variables.t
             -> Go (string * variables.t * option error)) : Env :=
  mkEnv filenameRe never never never indexRe never never never never never
    never (fun s => inl (literal s)) subst (fun l => l)
    (fun l _ _ => (l, None)) setFind.

Definition env : Env := envWith indexPattern never keepName.
Definition shortEnv : Env := envWith shortPattern shortPattern keepName.
Definition failingEnv : Env := envWith indexPattern never (failOn "b").

Definition file (dir name : string) : Change :=
  mkChange name EmptyString dir EmptyString false 0 status.Pending.

Definition dir (base name : string) : Change :=
  mkChange name EmptyString base EmptyString true 0 status.Pending.

(** A configuration for the chain of links [(find, replace)]. *)
Definition config (links : list (string * string)) (limit : Z)
    (ignoreExt : bool) : Config :=
  mkConfig (literal (hd EmptyString (map fst links))) EmptyString limit
    ignoreExt (map snd links) (map fst links) EmptyString false.

Definition world (links : list (string * string)) (limit : Z)
    (ignoreExt : bool) : World :=
  mkWorld (config links limit ignoreExt) [].

(** The pattern x with the replacement y, in extension-preserving mode,
    as the single link of a chain. *)
Definition xyConf : Config := withReplacement (config [("x", "y")] 0 true) "y".
Definition xyWorld : World := world [("x", "y")] 0 true.
Definition xyBatch : list Change := [file "d" " a"; file "d" "x.txt"].

(** The chain a to b, then b to c; and a chain of two links whose
    templates both hold an index token. *)
Definition abcWorld : World := world [("a", "b"); ("b", "c")] 0 false.
Definition indexWorld : World :=
  world [("x", "{%d}a"); ("a", "{%d}b")] 0 false.

(** What [failingEnv] makes of the chain a to b, then b to c. *)
Definition abcFailure : error := OtherError "provider".

(** A compiler that rejects an expression with an opening parenthesis
    (as [regexp.Compile] rejects one that is never closed), a filename
    pattern that reports the token [{(}], and the collaborators with
    them. *)
Definition compileStrict (s : string) : Regexp.t + error :=
  if Strings.Contains s "(" then inr (SyntaxError s) else inl (literal s).

Definition parenPattern : Regexp.t :=
  tabulated "paren"
    [("{(}", [Regexp.mkMatch 0 3 ["{(}"; EmptyString]])].

Definition strictEnv : Env :=
  mkEnv parenPattern never never never indexPattern never never never never
    never never compileStrict keepName (fun l => l) (fun l _ _ => (l, None))
    setFind.

(** An index pattern that reports a token whose start number has twenty
    digits, and the collaborators with it. *)
Definition bigStartPattern : Regexp.t :=
  tabulated "index"
    [("{99999999999999999999%d}",
      [Regexp.mkMatch 0 24
         ["{99999999999999999999%d}"; EmptyString; "99999999999999999999";
          "%d"; EmptyString; EmptyString; EmptyString; EmptyString]])].

Definition oddEnv : Env :=
  mkEnv never never never never bigStartPattern never never never
    never never never (fun s => inl (literal s)) keepName (fun l => l)
    (fun l _ _ => (l, None)) setFind.

(** A recompilation of the search pattern that fails on a find-argument
    the strict compiler rejects, the collaborators with it, and a chain
    whose second find-argument is rejected. *)
Definition setFindStrict (conf : Config) (i : Z) : Config * option error :=
  match nth_error (FindSlice conf) (Z.to_nat i) with
  | Some p =>
      match compileStrict p with
      | inl re => (withSearchRegex conf re, None)
      | inr e => (conf, Some e)
      end
  | None => (conf, None)
  end.

Definition strictFindEnv : Env :=
  mkEnv never never never never indexPattern never never never never never
    never compileStrict keepName (fun l => l) (fun l _ _ => (l, None))
    setFindStrict.

Definition parenWorld : World := world [("a", "b"); ("(", "c")] 0 false.

(** A sort that knows the key [name] only, by which it reverses the
    batch when asked to, the collaborators with it, and the worlds of the
    chain a to b sorted by [name] in reverse and by [size]. *)
Definition sortByName (l : list Change) (key : string) (reverse : bool)
  : list Change * option error :=
  if String.eqb key "name" then ((if reverse then List.rev l else l), None)
  else (l, Some (OtherError "sort")).

Definition sortEnv : Env :=
  mkEnv never never never never indexPattern never never never never never
    never (fun s => inl (literal s)) keepName (fun l => l) sortByName setFind.

Definition sortedWorld (key : string) : World :=
  mkWorld
    (mkConfig (literal "a") EmptyString 0 false ["b"] ["a"] key true) [].

(** A csv pattern that reports a token whose column has twenty digits,
    and the collaborators with it. *)
Definition bigColumnPattern : Regexp.t :=
  tabulated "csv"
    [("{csv.99999999999999999999}",
      [Regexp.mkMatch 0 26
         ["{csv.99999999999999999999}"; "99999999999999999999";
          EmptyString]])].

Definition csvEnv : Env :=
  mkEnv never never never never indexPattern never never never never never
    bigColumnPattern (fun s => inl (literal s)) keepName (fun l => l)
    (fun l _ _ => (l, None)) setFind.

(** The link that replaces [find] with [repl], as the single link of a
    chain, its world, and what a pass of that link records for the file
    [name] of the directory [d]: its target and its relative target
    path. *)
Definition linkConf (find repl : string) (ignoreExt : bool) : Config :=
  withReplacement (config [(find, repl)] 0 ignoreExt) repl.

Definition recordsOf (find repl : string) (ignoreExt : bool) (name : string)
  : list (string * string) :=
  map (fun r => (Target r, RelTargetPath r))
    (match replaceMatches env (linkConf find repl ignoreExt) [file "d" name]
             (world [(find, repl)] 0 ignoreExt) with
     | Ret ((l, _), _) => l
     | Panic _ => []
     end).

(** A single link whose pattern matches no name. *)
Definition idConf : Config :=
  mkConfig never EmptyString 0 true ["y"] ["x"] EmptyString false.
Definition idWorld : World := mkWorld idConf [].

End Demo.

(** ** Reference definitions for the lexicons *)

(** The number of entries each lexicon expects in a submatch. *)
Definition expectedLength (k : VariableKind) : Z :=
  match k with
  | KFilename => 2 | KExtension => 2 | KParentDir => 3 | KExif => 4
  | KIndex => 8 | KID3 => 2 | KHash => 3 | KDate => 4 | KExifTool => 3
  | KTransform => 5 | KCSV => 3
  end.

Definition lexiconRegex (env : Env) (k : VariableKind) : Regexp.t :=
  match k with
  | KFilename => filenameVarRegex env | KExtension => extensionVarRegex env
  | KParentDir => parentDirVarRegex env | KExif => exifVarRegex env
  | KIndex => indexVarRegex env | KID3 => id3VarRegex env
  | KHash => hashVarRegex env | KDate => dateVarRegex env
  | KExifTool => exiftoolVarRegex env | KTransform => transformVarRegex env
  | KCSV => csvVarRegex env
  end.

Definition errorOf {A : Type} (g : Go (A * option error)) : Go (option error) :=
  match g with
  | Ret (_, err) => Ret err
  | Panic e => Panic e
  end.

(** The contract [extract(kind, template)] of the spec, as far as its
    error goes: the lexicon of the kind run on the template. *)
Definition extract (env : Env) (k : VariableKind) (template : string)
  : Go (option error) :=
  match k with
  | KFilename => errorOf (getFilenameVars env template)
  | KExtension => errorOf (getExtVars env template)
  | KParentDir => errorOf (getParentDirVars env template)
  | KExif => errorOf (getExifVars env template)
  | KIndex => errorOf (getIndexingVars env template)
  | KID3 => errorOf (getID3Vars env template)
  | KHash => errorOf (getHashVars env template)
  | KDate => errorOf (getDateVars env template)
  | KExifTool => errorOf (getExifToolVars env template)
  | KTransform => errorOf (getTransformVars env template)
  | KCSV => errorOf (getCSVVars env template)
  end.


(** ** Reference definitions for the orchestrator *)

(** The world after the records [recs] are written to the log. *)
Definition logged (w : World) (recs : list LogRecord) : World :=
  mkWorld (w_conf w) (w_log w ++ recs)%list.

(** The name handed to the limited regex replacer. *)
Definition workingName (conf : Config) (change : Change) : string :=
  if IgnoreExt conf && negb (IsDir change)
  then Pathutil.StripExtension (Source change) else Source change.

(** The entry as the substituter receives it. *)
Definition offered (conf : Config) (i : Z) (change : Change) : Change :=
  setTarget (setIndex change i) (replaceString conf (workingName conf change)).

(** The name before it is cleaned and trimmed: the substituted name, with
    the extension attached again in extension-preserving mode. *)
Definition rawTarget (conf : Config) (change : Change) (name : string)
  : string :=
  if IgnoreExt conf && negb (IsDir change)
  then name ++ Filepath.Ext (Source change) else name.

(** The entry a successful pass records, [name] being the name the
    substituter returned. *)
Definition recorded (conf : Config) (i : Z) (change : Change) (name : string)
  : Change :=
  let target := Strings.TrimSpace (Filepath.Clean (rawTarget conf change name)) in
  mkChange (Source change) target (BaseDir change)
    (Filepath.Join [BaseDir change; target]) (IsDir change) i status.OK.

(** The body of the loop of [replaceMatches] without its two
    extension-preserving branches: the name is replaced and substituted
    whole, and nothing is attached to the result. *)
Definition replaceOnePlain (env : Env) (conf : Config) (i : Z)
    (vars : variables.t) (change : Change)
  : Exec (Change * variables.t * option error) :=
  (let change := setIndex change i in
   let change := setTarget change (replaceString conf (Source change)) in
   slogDebug "regex replacement result" ;;;
   ' (name, vars, err) <- liftGo (replaceVariables env conf change vars) ;;
   let change := setTarget change name in
   match err with
   | Some err => retE (change, vars, Some err)
   | None =>
       slogDebug "variable replacement result" ;;;
       let change :=
         setTarget change
           (Strings.TrimSpace (Filepath.Clean (Target change))) in
       let change := setStatus change status.OK in
       let change :=
         setRelTargetPath change
           (Filepath.Join [BaseDir change; Target change]) in
       retE (change, vars, None)
   end)%exec.

(** The batch as the loop of [replaceMatches] walks it. *)
Definition walked (env : Env) (vars : variables.t) (matches : list Change)
  : list Change :=
  if (0 <? GoInt.len (indexVars.matches (variables.index vars)))%Z
  then EnforceHierarchicalOrder env matches else matches.

(** The loop body of [replaceMatches] without its log: the entry it
    leaves, the variables, and the error of the substituter. *)
Definition passOne (env : Env) (conf : Config) (i : Z) (vars : variables.t)
    (change : Change) : Go (Change * variables.t * option error) :=
  match replaceVariables env conf (offered conf i change) vars with
  | Panic e => Panic e
  | Ret (name, vars', Some err) =>
      Ret (setTarget (offered conf i change) name, vars', Some err)
  | Ret (name, vars', None) => Ret (recorded conf i change name, vars', None)
  end.

(** Successful passes of the loop body over the entries of a batch, from
    position [i] on: the entries recorded and the variables left. *)
Inductive Passes (env : Env) (conf : Config)
  : Z -> variables.t -> list Change -> list Change -> variables.t -> Prop :=
| passes_nil (i : Z) (vars : variables.t) : Passes env conf i vars [] [] vars
| passes_cons (i : Z) (c r : Change) (todo res : list Change)
    (vars vars1 vars' : variables.t) :
    passOne env conf i vars c = Ret (r, vars1, None) ->
    Passes env conf (i + 1) vars1 todo res vars' ->
    Passes env conf i vars (c :: todo) (r :: res) vars'.

(** A link fails: the extraction of the variables of its template
    returns an error, or the substituter returns one on an entry after
    the entries before it have passed. *)
Inductive LinkFailure (env : Env) (conf : Config) (matches : list Change)
  : error -> Prop :=
| extraction_fails (vars : variables.t) (e : error) :
    extractVariables env (Replacement conf) = Ret (vars, Some e) ->
    LinkFailure env conf matches e
| substitution_fails (vars vars1 vars2 : variables.t)
    (passed before after : list Change) (c c' : Change) (e : error) :
    extractVariables env (Replacement conf) = Ret (vars, None) ->
    walked env vars matches = (before ++ c :: after)%list ->
    Passes env conf 0 vars before passed vars1 ->
    passOne env conf (GoInt.len before) vars1 c = Ret (c', vars2, Some e) ->
    LinkFailure env conf matches e.

(** ** Reading the outcome of a run *)

(** The batch a run returned (nil after a panic) and the world it left
    (the initial one after a panic). *)
Definition batchOf (run : Go (list Change * option error * World))
  : list Change :=
  match run with
  | Ret ((l, _), _) => l
  | Panic _ => []
  end.

Definition worldOf (w0 : World) (run : Go (list Change * option error * World))
  : World :=
  match run with
  | Ret (_, w) => w
  | Panic _ => w0
  end.

(** ** Reference definitions for names and extensions *)

(** A string without separator and without dot: what follows the final
    dot of an extension. *)
Fixpoint plain (s : string) : bool :=
  match s with
  | EmptyString => true
  | String c r =>
      negb (Filepath.isSep c) && negb (Filepath.isDot c) && plain r
  end.


(** The string begins with a white-space rune, for the encodings [sp2]
    and [sp3] of the runes of two and three bytes. *)
Definition headSpace (sp2 : ascii -> ascii -> bool)
    (sp3 : ascii -> ascii -> ascii -> bool) (s : string) : bool :=
  match s with
  | EmptyString => false
  | String b1 r1 =>
      Strings.asciiSpace b1
      || match r1 with
         | EmptyString => false
         | String b2 r2 =>
             sp2 b1 b2
             || match r2 with
                | EmptyString => false
                | String b3 _ => sp3 b1 b2 b3
                end
         end
  end.

(** The string begins, or ends, with white space ([unicode.IsSpace]);
    the last rune is read from the last byte backwards. *)
Definition startsWithSpace (s : string) : bool :=
  headSpace Strings.space2 Strings.space3 s.

Definition endsWithSpace (s : string) : bool :=
  headSpace (fun b1 b2 => Strings.space2 b2 b1)
    (fun b1 b2 b3 => Strings.space3 b3 b2 b1) (Strings.rev s).

(** The statement that the target a pass records is path-normalized and
    trimmed: neither [filepath.Clean] nor [strings.TrimSpace] would
    change it. *)
Definition TargetsNormalized (env : Env) : Prop :=
  forall conf matches w res w',
    replaceMatches env conf matches w = Ret ((res, None), w') ->
    forall r,
      In r res ->
      Filepath.Clean (Target r) = Target r
      /\ Strings.TrimSpace (Target r) = Target r.

(** A link that changes no name: the search pattern and the replacement
    leave every name as it is, and the substituter returns the working
    name. *)
Definition IdentityLink (env : Env) (conf : Config) : Prop :=
  (forall name, replaceString conf name = name)
  /\ (forall change vars,
        exists vars',
          replaceVariables env conf change vars
          = Ret (Target change, vars', None)).



(** ** Reference definitions for the chain *)

(** The attributes of the log context of link [i], and a record of that
    context. *)
Definition linkContext (w : World) (v : string) (i : Z) : string * string * Z :=
  (Regexp.expr (SearchRegex (w_conf w)), v, i).

Definition contextRecord (ctx : string * string * Z) (msg : string)
  : LogRecord :=
  let '(find_arg, replace_arg, i) := ctx in
  DebugContext find_arg replace_arg i msg.

(** The world in which link [i] runs [replaceMatches]: its template [v]
    is the replacement of the configuration. *)
Definition entered (w : World) (v : string) (i : Z) : World :=
  mkWorld (withReplacement (w_conf w) v)
    (w_log w
     ++ [contextRecord (linkContext w v i) "executing find and replace"])%list.

(** The entry handed to the next link: its source is the target just
    produced. *)
Definition promote (change : Change) : Change :=
  setSource change (Target change).


(** The statement that a single-link chain that changes no name leaves
    every target equal to its source. *)
Definition IdentityLeavesNames (env : Env) : Prop :=
  forall w matches v res w',
    ReplacementSlice (w_conf w) = [v] ->
    IdentityLink env (withReplacement (w_conf w) v) ->
    handleReplacementChain env matches w = Ret ((res, None), w') ->
    forall r, In r res -> Target r = Source r.

(** The chain loop goes from the state before link [i] to the state
    before a later link through links that pass and are not final. *)
Inductive Reaches (env : Env) (n : Z)
  : Z -> list string -> list Change -> World
    -> Z -> list string -> list Change -> World -> Prop :=
| reaches_here (i : Z) (todo : list string) (ms : list Change) (w : World) :
    Reaches env n i todo ms w i todo ms w
| reaches_next (i : Z) (v : string) (todo : list string)
    (ms ms1 : list Change) (w w1 : World)
    (j : Z) (todo' : list string) (ms' : list Change) (w' : World) :
    chainBody env n i v ms w = Ret (Next ms1, w1) ->
    Reaches env n (i + 1) todo ms1 w1 j todo' ms' w' ->
    Reaches env n i (v :: todo) ms w j todo' ms' w'.

(** The statement that the value a file has between the two links of a
    chain is found neither in the target nor in the source of the entry
    the chain returns for it. *)
Definition IntermediateHidden (env : Env) : Prop :=
  forall w matches v1 v2 mid w1 res w',
    ReplacementSlice (w_conf w) = [v1; v2] ->
    replaceMatches env (withReplacement (w_conf w) v1) matches (entered w v1 0)
    = Ret ((mid, None), w1) ->
    handleReplacementChain env matches w = Ret ((res, None), w') ->
    forall k m r,
      nth_error mid k = Some m ->
      nth_error res k = Some r ->
      Target r <> Target m /\ Source r <> Target m.

(** The template holds at least one index token. *)
Definition hasIndexToken (env : Env) (v : string) : bool :=
  match extractVariables env v with
  | Ret (vars, None) =>
      (0 <? GoInt.len (indexVars.matches (variables.index vars)))%Z
  | _ => false
  end.

(** The links at which the log records a hierarchical reordering: the
    record of [replaceMatches] has no context, the link is that of the
    last record of [handleReplacementChain] before it ([cur] when there
    is none). *)
Fixpoint reorderedAt (cur : Z) (log : list LogRecord) : list Z :=
  match log with
  | [] => []
  | DebugContext _ _ i _ :: rest => reorderedAt i rest
  | Debug msg :: rest =>
      if String.eqb msg "sorted matches based on directory level"
      then cur :: reorderedAt cur rest
      else reorderedAt cur rest
  end.

(** The positions, counted from [i], of the templates that hold an index
    token; the first of them. *)
Fixpoint indexLinks (env : Env) (i : Z) (slice : list string) : list Z :=
  match slice with
  | [] => []
  | v :: rest =>
      ((if hasIndexToken env v then [i] else [])
       ++ indexLinks env (i + 1) rest)%list
  end.

Definition firstIndexLink (env : Env) (slice : list string) : list Z :=
  match indexLinks env 0 slice with
  | [] => []
  | j :: _ => [j]
  end.

(** The statement that the batch is reordered before the first link with
    an index token and at no other point of the chain. *)
Definition ReorderedOnlyBeforeFirst (env : Env) : Prop :=
  forall w matches res w',
    w_log w = [] ->
    handleReplacementChain env matches w = Ret ((res, None), w') ->
    reorderedAt (-1) (w_log w')
    = firstIndexLink env (ReplacementSlice (w_conf w)).

(** Records after which the reading of the log goes on unchanged: none
    of them has a context or tells of a reordering. *)
Definition Quiet (suf : list LogRecord) : Prop :=
  forall c l, reorderedAt c (suf ++ l)%list = reorderedAt c l.

(** ** Reference definitions for the extraction *)

(** The kinds in the order [extractVariables] runs their lexicons. *)
Definition kinds : list VariableKind :=
  [KFilename; KExtension; KParentDir; KExif; KIndex; KID3; KHash; KDate;
   KExifTool; KTransform; KCSV].

(** The outcome of the first lexicon, in the order of [ks], that does not
    return without error. *)
Fixpoint firstFailure (env : Env) (template : string) (ks : list VariableKind)
  : Go (option error) :=
  match ks with
  | [] => Ret None
  | k :: rest =>
      match extract env k template with
      | Ret None => firstFailure env template rest
      | o => o
      end
  end.

(** The value a call returned beside its error ([d] after a panic). *)
Definition valueOf {A : Type} (d : A) (g : Go (A * option error)) : A :=
  match g with
  | Ret (a, _) => a
  | Panic _ => d
  end.

(** What [getIndexingVars] makes of one token match [sm]: the fields of
    the index variable [m] read off the entries of the match. *)
Definition indexMatchOf (env : Env) (sm : list string) (m : indexVarMatch.t)
  : Prop :=
  indexVarMatch.submatch m = sm
  /\ Compile env (nth 0 sm EmptyString) = inl (indexVarMatch.regex m)
  /\ indexVarMatch.indexFormat m = nth 3 sm EmptyString
  /\ indexVarMatch.numberSystem m = nth 5 sm EmptyString
  /\ (if String.eqb (nth 2 sm EmptyString) EmptyString
      then indexVarMatch.startNumber m = 1%Z
      else Strconv.Atoi (nth 2 sm EmptyString)
           = (indexVarMatch.startNumber m, None))
  /\ (if String.eqb (nth 6 sm EmptyString) EmptyString
      then indexVarMatch.step m = indexStep.zero
      else indexStep.isSet (indexVarMatch.step m) = true
           /\ Strconv.Atoi (nth 6 sm EmptyString)
              = (indexStep.value (indexVarMatch.step m), None))
  /\ (if String.eqb (nth 7 sm EmptyString) EmptyString
      then indexVarMatch.skip m = []
      else skipLoop (Strings.Split (nth 7 sm EmptyString) ";") []
           = Ret (indexVarMatch.skip m, None)).

(** The positions, counted from [i], of the token matches that name a
    capture variable (their entry 1 is not empty). *)
Fixpoint captureIndexes (i : nat) (sms : list (list string)) : list Z :=
  match sms with
  | [] => []
  | sm :: rest =>
      ((if String.eqb (nth 1 sm EmptyString) EmptyString then []
        else [Z.of_nat i])
       ++ captureIndexes (S i) rest)%list
  end.

(** A stored skip range is in order. *)
Definition ordered (r : numbersToSkip.t) : Prop :=
  (numbersToSkip.min r <= numbersToSkip.max r)%Z.

(** Every number of the piece [val] of a skip specifier (the piece
    itself, or its parts around the dashes) is below 2^53 in magnitude. *)
Definition smallNumbers (val : string) : Prop :=
  forall part n,
    In part (val :: Strings.Split val "-") ->
    Strconv.Atoi part = (n, None) ->
    (Z.abs n < 2 ^ 53)%Z.

(** The error of the number an entry of an index token gives, if it gives
    one; the error of its skip list; and the first of the errors of the
    start number, the step and the skip list of a token match. *)
Definition numberError (s : string) : option error :=
  if String.eqb s EmptyString then None else snd (Strconv.Atoi s).

Definition skipError (s : string) : option error :=
  if String.eqb s EmptyString then None
  else
    match skipLoop (Strings.Split s ";") [] with
    | Ret (_, err) => err
    | Panic _ => None
    end.

Definition indexNumberError (sm : list string) : option error :=
  match numberError (nth 2 sm EmptyString) with
  | Some e => Some e
  | None =>
      match numberError (nth 6 sm EmptyString) with
      | Some e => Some e
      | None => skipError (nth 7 sm EmptyString)
      end
  end.

(** The number of variables of kind [k] the variables hold. *)
Definition stored (vars : variables.t) (k : VariableKind) : nat :=
  match k with
  | KFilename => length (filenameVars.matches (variables.filename vars))
  | KExtension => length (extVars.matches (variables.ext vars))
  | KParentDir => length (parentDirVars.matches (variables.parentDir vars))
  | KExif => length (exifVars.matches (variables.exif vars))
  | KIndex => length (indexVars.matches (variables.index vars))
  | KID3 => length (id3Vars.matches (variables.id3 vars))
  | KHash => length (hashVars.matches (variables.hash vars))
  | KDate => length (dateVars.matches (variables.date vars))
  | KExifTool => length (exiftoolVars.matches (variables.exiftool vars))
  | KTransform => length (transformVars.matches (variables.transform vars))
  | KCSV => length (csvVars.values (variables.csv vars))
  end.

(** The entry [r] stands for the file of the entry [c]. *)
Definition sameFile (c r : Change) : Prop :=
  Source r = Source c /\ BaseDir r = BaseDir c /\ IsDir r = IsDir c.

(** The entry [r] is as a pass records the entry at position [k]. *)
Definition Recorded (k : nat) (r : Change) : Prop :=
  Status r = status.OK
  /\ Index r = Z.of_nat k
  /\ RelTargetPath r = Filepath.Join [BaseDir r; Target r]
  /\ Strings.TrimSpace (Target r) = Target r.

(* ================================================================== *)
(** * Part II: properties                                              *)
(* ================================================================== *)

(** ** Go integers *)

Lemma wrap_inRange (n : Z) : GoInt.inRange n = true -> GoInt.wrap n = n.
Proof.
  unfold GoInt.inRange, GoInt.wrap, GoInt.minInt, GoInt.maxInt.
  intros H. apply andb_true_iff in H as [H1 H2].
  apply Z.leb_le in H1. apply Z.leb_le in H2.
  rewrite Z.mod_small by lia. lia.
Qed.

Lemma inRange_bounds (n : Z) :
  GoInt.inRange n = true <-> (GoInt.minInt <= n <= GoInt.maxInt)%Z.
Proof.
  unfold GoInt.inRange. rewrite andb_true_iff, !Z.leb_le. tauto.
Qed.

Lemma add_small (a b : Z) :
  (GoInt.minInt <= a + b <= GoInt.maxInt)%Z -> GoInt.add a b = (a + b)%Z.
Proof.
  intros H. unfold GoInt.add. apply wrap_inRange. now apply inRange_bounds.
Qed.

(** ** The limited regex replacer *)

Section LimitedReplacer.
Variable re : Regexp.t.
Variables input repl : string.

Let onMatch (m : Regexp.Match) : string :=
  Regexp.ReplaceAllString re (Regexp.text input m) repl.

(** A callback that ignores its state replaces every match. *)
Lemma replaceAll_stateless (f : Regexp.Match -> string) :
  forall ms last k,
    fst (Regexp.replaceAll input last ms (fun m (_ : unit) => (f m, tt)) tt)
    = substituteMatches input last k ms (fun _ m => f m).
Proof.
  induction ms as [|m ms IH]; intros last k; simpl; [reflexivity|].
  specialize (IH (Regexp.m_hi m) (S k)).
  destruct (Regexp.replaceAll input (Regexp.m_hi m) ms _ tt) as [rest st2].
  simpl in *. now rewrite IH.
Qed.

(** Positive limit: when the callback meets the [k]-th match its counter
    is [min k limit]. *)
Lemma replaceAll_first (limit : Z) :
  (0 < limit <= GoInt.maxInt)%Z ->
  forall ms last k,
    fst (Regexp.replaceAll input last ms
           (fun m counter =>
              if (counter =? limit)%Z then (Regexp.text input m, counter)
              else (onMatch m, GoInt.add counter 1))
           (Z.min (Z.of_nat k) limit))
    = substituteMatches input last k ms
        (fun k m => if (Z.of_nat k <? limit)%Z then onMatch m
                    else Regexp.text input m).
Proof.
  intros Hl. induction ms as [|m ms IH]; intros last k; simpl; [reflexivity|].
  destruct (Z.eqb_spec (Z.min (Z.of_nat k) limit) limit) as [E|E].
  - specialize (IH (Regexp.m_hi m) (S k)).
    replace (Z.min (Z.of_nat (S k)) limit) with limit in IH by lia.
    rewrite E.
    destruct (Regexp.replaceAll input (Regexp.m_hi m) ms _ limit) as [rest st2].
    simpl in *. rewrite IH.
    destruct (Z.ltb_spec (Z.of_nat k) limit); [lia|reflexivity].
  - specialize (IH (Regexp.m_hi m) (S k)).
    assert (Hk : (Z.of_nat k < limit)%Z) by lia.
    rewrite add_small by (unfold GoInt.minInt, GoInt.maxInt in *; lia).
    replace (Z.min (Z.of_nat k) limit + 1)%Z
      with (Z.min (Z.of_nat (S k)) limit) by lia.
    destruct (Regexp.replaceAll input (Regexp.m_hi m) ms _ _) as [rest st2].
    simpl in *. rewrite IH.
    destruct (Z.ltb_spec (Z.of_nat k) limit); [reflexivity|lia].
Qed.

(** Negative limit: the counter is [min k (max l 0)] for
    [l = total + limit]. *)
Lemma replaceAll_last (l : Z) :
  (l <= GoInt.maxInt)%Z ->
  forall ms last k,
    fst (Regexp.replaceAll input last ms
           (fun m counter =>
              if (l <=? counter)%Z then (onMatch m, counter)
              else (Regexp.text input m, GoInt.add counter 1))
           (Z.min (Z.of_nat k) (Z.max l 0)))
    = substituteMatches input last k ms
        (fun k m => if (l <=? Z.of_nat k)%Z then onMatch m
                    else Regexp.text input m).
Proof.
  intros Hl. induction ms as [|m ms IH]; intros last k; simpl; [reflexivity|].
  specialize (IH (Regexp.m_hi m) (S k)).
  destruct (Z.leb_spec l (Z.min (Z.of_nat k) (Z.max l 0))) as [E|E].
  - replace (Z.min (Z.of_nat (S k)) (Z.max l 0))
      with (Z.min (Z.of_nat k) (Z.max l 0)) in IH by lia.
    destruct (Regexp.replaceAll input (Regexp.m_hi m) ms _ _) as [rest st2].
    simpl in *. rewrite IH.
    destruct (Z.leb_spec l (Z.of_nat k)); [reflexivity|lia].
  - rewrite add_small by (unfold GoInt.minInt, GoInt.maxInt in *; lia).
    replace (Z.min (Z.of_nat k) (Z.max l 0) + 1)%Z
      with (Z.min (Z.of_nat (S k)) (Z.max l 0)) by lia.
    destruct (Regexp.replaceAll input (Regexp.m_hi m) ms _ _) as [rest st2].
    simpl in *. rewrite IH.
    destruct (Z.leb_spec l (Z.of_nat k)); [lia|reflexivity].
Qed.

Lemma substituteMatches_ext (f g : nat -> Regexp.Match -> string) :
  forall ms last k,
    (forall j m, f j m = g j m) ->
    substituteMatches input last k ms f = substituteMatches input last k ms g.
Proof.
  induction ms as [|m ms IH]; intros last k H; simpl; [reflexivity|].
  now rewrite H, (IH _ _ H).
Qed.

Lemma substituteMatches_ext_nth (f g : nat -> Regexp.Match -> string) :
  forall ms last k,
    (forall j m, nth_error ms j = Some m -> f (k + j) m = g (k + j) m) ->
    substituteMatches input last k ms f = substituteMatches input last k ms g.
Proof.
  induction ms as [|m ms IH]; intros last k H; simpl; [reflexivity|].
  pose proof (H 0 m eq_refl) as H0. rewrite Nat.add_0_r in H0. rewrite H0.
  rewrite (IH (Regexp.m_hi m) (S k)); [reflexivity|].
  intros j m' Hj. specialize (H (S j) m' Hj).
  now rewrite Nat.add_succ_r in H.
Qed.

End LimitedReplacer.

Lemma len_FindAllString (re : Regexp.t) (input : string) :
  GoInt.len (Regexp.FindAllString re input)
  = GoInt.len (Regexp.allMatches re input).
Proof.
  unfold GoInt.len, Regexp.FindAllString. now rewrite length_map.
Qed.

(** C1. [regexReplace] selects the occurrences by the sign of the limit
    (all of them for limit 0; the first [limit] for a positive limit;
    for a negative limit those whose 0-based index is at least
    [keepFromIndex = total + limit], which are all of them as soon as
    [|limit| >= total]) and leaves the others as they are; but under a
    limit other than 0 it replaces a selected occurrence by running the
    expression on the text of the occurrence alone.  When the expression
    finds there what it finds in place, the result is the one the
    specification describes; the pattern X over aXaXaXa with replacement
    - gives a-aXaXa at limit 1, aXaXa-a at limit -1 and a-a-a-a at
    limit 0.  When it does not, the selected occurrence is not replaced:
    the expression [\Boo] finds oo in foo and, with the replacement X,
    limit 0 gives fX, but limits 1 and -1 give foo. *)
Theorem regexReplace_limit_semantics
    (re : Regexp.t) (input repl : string) (limit : Z)
    (Hlimit : GoInt.inRange limit = true)
    (Htotal : (GoInt.len (Regexp.FindAllString re input) <= GoInt.maxInt)%Z)
    (Halone : MatchesAlone re input repl limit) :
  regexReplace re input repl limit = limitedReplace re input repl limit
  /\ (forall k, limit = 0%Z ->
        limitSelects limit (GoInt.len (Regexp.FindAllString re input)) k = true)
  /\ (forall k, (0 < limit)%Z ->
        limitSelects limit (GoInt.len (Regexp.FindAllString re input)) k = true
        <-> (Z.of_nat k < limit)%Z)
  /\ (forall k, (limit < 0)%Z ->
        limitSelects limit (GoInt.len (Regexp.FindAllString re input)) k = true
        <-> (GoInt.len (Regexp.FindAllString re input) + limit <= Z.of_nat k)%Z)
  /\ (forall k, (limit < 0)%Z ->
        (GoInt.len (Regexp.FindAllString re input) <= Z.abs limit)%Z ->
        limitSelects limit (GoInt.len (Regexp.FindAllString re input)) k = true)
  /\ regexReplace (Demo.literal "X") "aXaXaXa" "-" 1 = "a-aXaXa"
  /\ regexReplace (Demo.literal "X") "aXaXaXa" "-" (-1) = "aXaXa-a"
  /\ regexReplace (Demo.literal "X") "aXaXaXa" "-" 0 = "a-a-a-a"
  /\ Regexp.FindAllString (Demo.inner "oo") "foo" = ["oo"]
  /\ Regexp.FindAllString (Demo.inner "oo") "oo" = []
  /\ limitSelects 1 1 0 = true
  /\ limitSelects (-1) 1 0 = true
  /\ limitedReplace (Demo.inner "oo") "foo" "X" 1 = "fX"
  /\ limitedReplace (Demo.inner "oo") "foo" "X" (-1) = "fX"
  /\ regexReplace (Demo.inner "oo") "foo" "X" 0 = "fX"
  /\ regexReplace (Demo.inner "oo") "foo" "X" 1 = "foo"
  /\ regexReplace (Demo.inner "oo") "foo" "X" (-1) = "foo".
Proof.
  apply inRange_bounds in Hlimit.
  unfold MatchesAlone in Halone.
  rewrite len_FindAllString in *.
  set (ms := Regexp.allMatches re input) in *.
  set (total := GoInt.len ms) in *.
  assert (Hnn : (0 <= total)%Z) by (unfold total, GoInt.len; lia).
  assert (Hsel : forall k,
             limitSelects limit total k
             = if (limit =? 0)%Z then true
               else if (0 <? limit)%Z then (Z.of_nat k <? limit)%Z
                    else (total + limit <=? Z.of_nat k)%Z) by reflexivity.
  split; [|split; [|split; [|split; [|split]]]].
  - unfold regexReplace, limitedReplace. fold ms. fold total.
    destruct (Z.ltb_spec 0 limit) as [Hpos|Hnpos].
    + unfold Regexp.ReplaceAllStringFunc. fold ms.
      pose proof (replaceAll_first re input repl limit ltac:(lia) ms 0 0) as H.
      replace (Z.min (Z.of_nat 0) limit) with 0%Z in H by (simpl; lia).
      unfold Regexp.text in *. rewrite H.
      apply substituteMatches_ext_nth. intros j m Hj. cbn [Nat.add].
      specialize (Halone j m ltac:(lia) Hj). rewrite Hsel in *.
      destruct (Z.eqb_spec limit 0); [lia|].
      destruct (Z.ltb_spec 0 limit); [|lia].
      destruct (Z.of_nat j <? limit)%Z; [now apply Halone|reflexivity].
    + destruct (Z.ltb_spec limit 0) as [Hneg|Hz].
      * unfold Regexp.ReplaceAllStringFunc.
        rewrite len_FindAllString. fold ms. fold total.
        assert (Hl : GoInt.add total limit = (total + limit)%Z).
        { apply add_small. unfold GoInt.minInt, GoInt.maxInt in *. lia. }
        rewrite Hl.
        pose proof (replaceAll_last re input repl (total + limit)%Z
                      ltac:(lia) ms 0 0) as H.
        replace (Z.min (Z.of_nat 0) (Z.max (total + limit) 0)) with 0%Z in H
          by (simpl; lia).
        unfold Regexp.text in *. rewrite H.
        apply substituteMatches_ext_nth. intros j m Hj. cbn [Nat.add].
        specialize (Halone j m ltac:(lia) Hj). rewrite Hsel in *.
        destruct (Z.eqb_spec limit 0); [lia|].
        destruct (Z.ltb_spec 0 limit); [lia|].
        destruct (total + limit <=? Z.of_nat j)%Z;
          [now apply Halone|reflexivity].
      * assert (limit = 0%Z) by lia. subst limit. simpl.
        unfold Regexp.ReplaceAllString. fold ms.
        now rewrite (replaceAll_stateless input _ _ 0 0).
  - intros k ->. reflexivity.
  - intros k Hpos. rewrite Hsel.
    destruct (Z.eqb_spec limit 0); [lia|].
    destruct (Z.ltb_spec 0 limit); [|lia]. apply Z.ltb_lt.
  - intros k Hneg. rewrite Hsel.
    destruct (Z.eqb_spec limit 0); [lia|].
    destruct (Z.ltb_spec 0 limit); [lia|]. apply Z.leb_le.
  - intros k Hneg Habs. rewrite Hsel.
    destruct (Z.eqb_spec limit 0); [lia|].
    destruct (Z.ltb_spec 0 limit); [lia|]. apply Z.leb_le. lia.
  - repeat split; vm_compute; reflexivity.
Qed.

Lemma regexReplace_limit_semantics_witness :
  regexReplace (Demo.literal "X") "aXaXaXa" "-" (-2)
  = limitedReplace (Demo.literal "X") "aXaXaXa" "-" (-2)
  /\ limitedReplace (Demo.literal "X") "aXaXaXa" "-" (-2) = "aXa-a-a".
Proof.
  split; [|reflexivity].
  apply (regexReplace_limit_semantics (Demo.literal "X") "aXaXaXa" "-" (-2)).
  - reflexivity.
  - vm_compute. discriminate.
  - intros k m _ Hk _.
    destruct k as [|[|[|[|k]]]]; vm_compute in Hk;
      first [discriminate Hk | injection Hk as <-; reflexivity].
Defined.

(** ** The token lexicons *)

Section LexiconFacts.
Variable env : Env.

Lemma matchString_cons (re : Regexp.t) (s : string) sm rest :
  Regexp.FindAllStringSubmatch re s = sm :: rest ->
  Regexp.MatchString re s = true.
Proof.
  unfold Regexp.FindAllStringSubmatch, Regexp.MatchString.
  destruct (Regexp.allMatches re s); simpl; [discriminate|reflexivity].
Qed.


(** The error of the extraction is the outcome of the first lexicon that
    does not return without error. *)
Lemma extractVariables_firstFailure (template : string) :
  errorOf (extractVariables env template) = firstFailure env template kinds.
Proof.
  unfold extractVariables, kinds, firstFailure, extract, errorOf.
  destruct (getFilenameVars env template) as [[x1 [e|]]|e];
    cbn [bindGo]; try reflexivity.
  destruct (getExtVars env template) as [[x2 [e|]]|e];
    cbn [bindGo]; try reflexivity.
  destruct (getParentDirVars env template) as [[x3 [e|]]|e];
    cbn [bindGo]; try reflexivity.
  destruct (getExifVars env template) as [[x4 [e|]]|e];
    cbn [bindGo]; try reflexivity.
  destruct (getIndexingVars env template) as [[x5 [e|]]|e];
    cbn [bindGo]; try reflexivity.
  destruct (getID3Vars env template) as [[x6 [e|]]|e];
    cbn [bindGo]; try reflexivity.
  destruct (getHashVars env template) as [[x7 [e|]]|e];
    cbn [bindGo]; try reflexivity.
  destruct (getDateVars env template) as [[x8 [e|]]|e];
    cbn [bindGo]; try reflexivity.
  destruct (getExifToolVars env template) as [[x9 [e|]]|e];
    cbn [bindGo]; try reflexivity.
  destruct (getTransformVars env template) as [[x10 [e|]]|e];
    cbn [bindGo]; try reflexivity.
  destruct (getCSVVars env template) as [[x11 [e|]]|e];
    cbn [bindGo]; reflexivity.
Qed.

Lemma firstFailure_at (template : string) (o : Go (option error)) :
  forall before k after,
    (forall j, In j before -> extract env j template = Ret None) ->
    extract env k template = o ->
    o <> Ret None ->
    firstFailure env template (before ++ k :: after) = o.
Proof.
  induction before as [|j before IH]; intros k after Hb Hk Ho; simpl.
  - rewrite Hk. destruct o as [[e|]|e]; congruence.
  - rewrite (Hb j (or_introl eq_refl)). apply IH; auto.
    intros j' Hj. apply Hb. now right.
Qed.


End LexiconFacts.



(** ** The skip ranges of an index token *)

Lemma float64_of_int_exact (n : Z) :
  (Z.abs n < 2 ^ 53)%Z -> GoInt.float64_of_int n = n.
Proof.
  intros H. unfold GoInt.float64_of_int.
  destruct (Z.ltb_spec (Z.abs n) (2 ^ 53)); [reflexivity|lia].
Qed.

Lemma int_of_float64_exact (n : Z) :
  (Z.abs n < 2 ^ 53)%Z -> GoInt.int_of_float64 n = n.
Proof.
  intros H. unfold GoInt.int_of_float64.
  replace (GoInt.inRange n) with true; [reflexivity|].
  symmetry. apply inRange_bounds. unfold GoInt.minInt, GoInt.maxInt. lia.
Qed.

(** A range whose bounds are below 2^53 in magnitude is stored with the
    smaller bound as [min] and the larger as [max], whatever their
    order; a single number is stored as a degenerate range. *)
Lemma skipLoop_range_small (val sa sb : string) (more : list string)
    (a b : Z) (rest : list string) (skip : list numbersToSkip.t) :
  Strings.Contains val "-" = true ->
  Strings.Split val "-" = sa :: sb :: more ->
  Strconv.Atoi sa = (a, None) ->
  Strconv.Atoi sb = (b, None) ->
  (Z.abs a < 2 ^ 53)%Z -> (Z.abs b < 2 ^ 53)%Z ->
  skipLoop (val :: rest) skip
  = skipLoop rest (skip ++ [numbersToSkip.mk (Z.max a b) (Z.min a b)])%list.
Proof.
  intros Hc Hs Ha Hb Hsa Hsb. simpl. rewrite Hc, Hs. simpl.
  rewrite Ha, Hb. unfold GoInt.float64_Max, GoInt.float64_Min.
  rewrite !float64_of_int_exact by assumption.
  rewrite !int_of_float64_exact by lia. reflexivity.
Qed.

Lemma skipLoop_single (val : string) (n : Z) (rest : list string)
    (skip : list numbersToSkip.t) :
  Strings.Contains val "-" = false ->
  Strconv.Atoi val = (n, None) ->
  skipLoop (val :: rest) skip
  = skipLoop rest (skip ++ [numbersToSkip.mk n n])%list.
Proof.
  intros Hc Ha. simpl. now rewrite Hc, Ha.
Qed.

(** C9. The bounds of a skip range pass through [float64] on their way to
    [math.Max] and [math.Min].  The range 7-3 is stored as [3, 7] and the
    number 5 as [5, 5]; but of the range
    9007199254740993-9007199254740992 (2^53 + 1 and 2^53) the larger
    bound is rounded to 2^53, and the range stored is [2^53, 2^53]: its
    [max] is not the larger bound. *)
Theorem skip_range_rounded_through_float64 :
  skipLoop (Strings.Split "7-3;5" ";") []
  = Ret ([numbersToSkip.mk 7 3; numbersToSkip.mk 5 5], None)
  /\ Strconv.Atoi "9007199254740993" = (9007199254740993%Z, None)
  /\ Strconv.Atoi "9007199254740992" = (9007199254740992%Z, None)
  /\ GoInt.float64_of_int 9007199254740993 = 9007199254740992%Z
  /\ skipLoop
       (Strings.Split "9007199254740993-9007199254740992" ";") []
     = Ret ([numbersToSkip.mk 9007199254740992 9007199254740992], None)
  /\ (exists v,
        getIndexingVars Demo.env "{%d<9007199254740993-9007199254740992>}"
        = Ret (v, None)
        /\ map indexVarMatch.skip (indexVars.matches v)
           = [[numbersToSkip.mk 9007199254740992 9007199254740992]])
  /\ numbersToSkip.max (numbersToSkip.mk 9007199254740992 9007199254740992)
     <> Z.max 9007199254740993 9007199254740992.
Proof.
  repeat split; try (vm_compute; reflexivity).
  - eexists. split; vm_compute; reflexivity.
  - vm_compute. discriminate.
Qed.

(** ** Byte strings *)

Section StringFacts.

Lemma append_nil_r (s : string) : s ++ EmptyString = s.
Proof. induction s; simpl; congruence. Qed.

Lemma append_assoc (a b c : string) : (a ++ b) ++ c = a ++ b ++ c.
Proof. induction a; simpl; congruence. Qed.

Lemma length_append (a b : string) :
  String.length (a ++ b) = String.length a + String.length b.
Proof. induction a; simpl; congruence. Qed.


Lemma rev_append (a b : string) :
  Strings.rev (a ++ b) = Strings.rev b ++ Strings.rev a.
Proof.
  induction a as [|c a IH]; simpl.
  - now rewrite append_nil_r.
  - now rewrite IH, append_assoc.
Qed.

Lemma rev_involutive (s : string) : Strings.rev (Strings.rev s) = s.
Proof.
  induction s as [|c s IH]; simpl; [reflexivity|].
  now rewrite rev_append, IH.
Qed.

Lemma rev_inj (a b : string) : Strings.rev a = Strings.rev b -> a = b.
Proof.
  intros H. rewrite <- (rev_involutive a), <- (rev_involutive b). now f_equal.
Qed.

Lemma substring_0_append (a b : string) :
  substring 0 (String.length a) (a ++ b) = a.
Proof.
  induction a as [|c a IH]; simpl.
  - now destruct b.
  - now rewrite IH.
Qed.

Lemma substring_0_length (a : string) : substring 0 (String.length a) a = a.
Proof.
  rewrite <- (append_nil_r a) at 2. apply substring_0_append.
Qed.

End StringFacts.

(** ** [strings.TrimSpace] *)

Section TrimFacts.
Variable sp2 : ascii -> ascii -> bool.
Variable sp3 : ascii -> ascii -> ascii -> bool.

Let trim := Strings.trimRunes sp2 sp3.

(** One step of the scan: it stops, or it drops a rune and goes on. *)
Lemma trimRunes_step (s : string) :
  trim s = s
  \/ exists p rest, s = p ++ rest /\ 0 < String.length p /\ trim s = trim rest.
Proof.
  destruct s as [|b1 r1]; [now left|].
  unfold trim. simpl.
  destruct (Strings.asciiSpace b1).
  { right. exists (String b1 EmptyString), r1. simpl. repeat split. lia. }
  destruct r1 as [|b2 r2]; [now left|].
  destruct (sp2 b1 b2).
  { right. exists (String b1 (String b2 EmptyString)), r2. simpl.
    repeat split. lia. }
  destruct r2 as [|b3 r3]; [now left|].
  destruct (sp3 b1 b2 b3).
  { right. exists (String b1 (String b2 (String b3 EmptyString))), r3. simpl.
    repeat split. lia. }
  now left.
Qed.

Lemma trimRunes_suffix :
  forall n s, String.length s <= n -> exists p, s = p ++ trim s.
Proof.
  induction n as [|n IH]; intros s Hn.
  - destruct s; [|simpl in Hn; lia]. now exists EmptyString.
  - destruct (trimRunes_step s) as [E|(p & rest & -> & Hp & E)].
    + exists EmptyString. now rewrite E.
    + rewrite length_append in Hn.
      destruct (IH rest ltac:(lia)) as [q Hq].
      exists (p ++ q). rewrite E, append_assoc. now rewrite <- Hq.
Qed.

Lemma trimRunes_length (s : string) :
  String.length (trim s) <= String.length s.
Proof.
  destruct (trimRunes_suffix (String.length s) s (le_n _)) as [p Hp].
  rewrite Hp at 2. rewrite length_append. lia.
Qed.

Lemma trimRunes_idempotent :
  forall n s, String.length s <= n -> trim (trim s) = trim s.
Proof.
  induction n as [|n IH]; intros s Hn.
  - destruct s; [reflexivity|simpl in Hn; lia].
  - destruct (trimRunes_step s) as [E|(p & rest & -> & Hp & E)].
    + now rewrite E.
    + rewrite E. apply IH. rewrite length_append in Hn. lia.
Qed.

(** A string the scan leaves alone has no white space at its head, and
    neither has any of its prefixes. *)
Lemma trimRunes_prefix_stable (p q : string) :
  trim (p ++ q) = p ++ q -> trim p = p.
Proof.
  intros H.
  assert (Hshort : forall x, String.length x < String.length (p ++ q) ->
                             trim x <> p ++ q).
  { intros x Hx E. pose proof (trimRunes_length x) as L.
    rewrite E in L. lia. }
  destruct p as [|b1 p1]; [reflexivity|].
  unfold trim in *. simpl in *.
  destruct (Strings.asciiSpace b1).
  { exfalso. apply (Hshort (p1 ++ q)); [simpl; lia|exact H]. }
  destruct p1 as [|b2 p2]; [reflexivity|]. simpl in *.
  destruct (sp2 b1 b2).
  { exfalso. apply (Hshort (p2 ++ q)); [simpl; lia|exact H]. }
  destruct p2 as [|b3 p3]; [reflexivity|]. simpl in *.
  destruct (sp3 b1 b2 b3); [|reflexivity].
  exfalso. apply (Hshort (p3 ++ q)); [simpl; lia|exact H].
Qed.


End TrimFacts.

Lemma trimLeft_idempotent (s : string) :
  Strings.trimLeft (Strings.trimLeft s) = Strings.trimLeft s.
Proof.
  unfold Strings.trimLeft.
  apply trimRunes_idempotent with (n := String.length s). apply le_n.
Qed.

Lemma trimLeftRev_idempotent (s : string) :
  Strings.trimLeftRev (Strings.trimLeftRev s) = Strings.trimLeftRev s.
Proof.
  unfold Strings.trimLeftRev.
  apply trimRunes_idempotent with (n := String.length s). apply le_n.
Qed.

Lemma trimLeftRev_suffix (s : string) :
  exists p, s = p ++ Strings.trimLeftRev s.
Proof.
  unfold Strings.trimLeftRev.
  apply trimRunes_suffix with (n := String.length s). apply le_n.
Qed.

Lemma trimRight_prefix (s : string) :
  exists q, s = Strings.trimRight s ++ q.
Proof.
  unfold Strings.trimRight.
  destruct (trimLeftRev_suffix (Strings.rev s)) as [p Hp].
  exists (Strings.rev p).
  rewrite <- rev_append, <- Hp. now rewrite rev_involutive.
Qed.

Lemma trimRight_idempotent (s : string) :
  Strings.trimRight (Strings.trimRight s) = Strings.trimRight s.
Proof.
  unfold Strings.trimRight.
  rewrite rev_involutive. f_equal. apply trimLeftRev_idempotent.
Qed.

(** The result of [TrimSpace] has no surrounding white space left. *)
Lemma TrimSpace_idempotent (s : string) :
  Strings.TrimSpace (Strings.TrimSpace s) = Strings.TrimSpace s.
Proof.
  unfold Strings.TrimSpace.
  set (a := Strings.trimLeft s).
  assert (Ha : Strings.trimLeft a = a) by apply trimLeft_idempotent.
  destruct (trimRight_prefix a) as [q Hq].
  assert (Hb : Strings.trimLeft (Strings.trimRight a) = Strings.trimRight a).
  { unfold Strings.trimLeft in *.
    apply trimRunes_prefix_stable with (q := q).
    rewrite <- Hq. exact Ha. }
  rewrite Hb. apply trimRight_idempotent.
Qed.

(** ** No white space around a trimmed string *)

Section HeadSpace.
Variable sp2 : ascii -> ascii -> bool.
Variable sp3 : ascii -> ascii -> ascii -> bool.

(** A string the scan leaves alone does not begin with a white-space
    rune. *)
Lemma trimRunes_fixed_head (s : string) :
  Strings.trimRunes sp2 sp3 s = s -> headSpace sp2 sp3 s = false.
Proof.
  intros H.
  assert (Hshort : forall x, String.length x < String.length s ->
                             Strings.trimRunes sp2 sp3 x <> s).
  { intros x Hx E. pose proof (trimRunes_length sp2 sp3 x) as L.
    rewrite E in L. lia. }
  destruct s as [|b1 r1]; [reflexivity|].
  cbn [Strings.trimRunes headSpace] in *.
  destruct (Strings.asciiSpace b1).
  { exfalso. apply (Hshort r1); [simpl; lia|exact H]. }
  destruct r1 as [|b2 r2]; [reflexivity|].
  destruct (sp2 b1 b2).
  { exfalso. apply (Hshort r2); [simpl; lia|exact H]. }
  destruct r2 as [|b3 r3]; [reflexivity|].
  destruct (sp3 b1 b2 b3); [|reflexivity].
  exfalso. apply (Hshort r3); [simpl; lia|exact H].
Qed.

Lemma head_trimRunes_fixed (s : string) :
  headSpace sp2 sp3 s = false -> Strings.trimRunes sp2 sp3 s = s.
Proof.
  destruct s as [|b1 r1]; [reflexivity|].
  cbn [Strings.trimRunes headSpace].
  destruct (Strings.asciiSpace b1); [discriminate|]. cbn [orb].
  destruct r1 as [|b2 r2]; [reflexivity|].
  destruct (sp2 b1 b2); [discriminate|]. cbn [orb].
  destruct r2 as [|b3 r3]; [reflexivity|].
  destruct (sp3 b1 b2 b3); [discriminate|reflexivity].
Qed.

End HeadSpace.

(** What [TrimSpace] returns neither begins nor ends with white space. *)
Lemma TrimSpace_no_space (s : string) :
  startsWithSpace (Strings.TrimSpace s) = false
  /\ endsWithSpace (Strings.TrimSpace s) = false.
Proof.
  unfold Strings.TrimSpace.
  set (a := Strings.trimLeft s).
  assert (Ha : Strings.trimLeft a = a) by apply trimLeft_idempotent.
  destruct (trimRight_prefix a) as [q Hq].
  split.
  - apply trimRunes_fixed_head.
    apply trimRunes_prefix_stable with (q := q).
    rewrite <- Hq. exact Ha.
  - unfold endsWithSpace. apply trimRunes_fixed_head.
    unfold Strings.trimRight. rewrite rev_involutive.
    apply trimLeftRev_idempotent.
Qed.

(** [TrimSpace] leaves a string without white space around it as it
    is. *)
Lemma TrimSpace_fixed (s : string) :
  startsWithSpace s = false -> endsWithSpace s = false ->
  Strings.TrimSpace s = s.
Proof.
  intros Hs He. unfold Strings.TrimSpace, Strings.trimLeft.
  rewrite (head_trimRunes_fixed _ _ s Hs).
  unfold Strings.trimRight, Strings.trimLeftRev.
  rewrite (head_trimRunes_fixed _ _ (Strings.rev s) He).
  apply rev_involutive.
Qed.

(** ** One pass of the loop of [replaceMatches] *)

Section PassFacts.
Variable env : Env.

Ltac run := unfold bindE, slogDebug, liftGo, retE, getConf; simpl.

(** The loop body, by the outcome of the substituter. *)
Lemma replaceOne_run (conf : Config) (i : Z) (vars : variables.t)
    (c : Change) (w : World) :
  replaceOne env conf i vars c w
  = match passOne env conf i vars c with
    | Panic e => Panic e
    | Ret (c', vars', Some err) =>
        Ret ((c', vars', Some err),
             logged w [Debug "regex replacement result"])
    | Ret (r, vars', None) =>
        Ret ((r, vars', None),
             logged w [Debug "regex replacement result";
                       Debug "variable replacement result"])
    end.
Proof.
  unfold replaceOne, passOne, offered, workingName, recorded, rawTarget,
    logged. run.
  destruct (replaceVariables env conf _ vars) as [[[name vars'] [err|]]|e];
    simpl; try reflexivity.
  rewrite <- app_assoc. simpl.
  destruct (IgnoreExt conf && negb (IsDir c)); reflexivity.
Qed.

Lemma passOne_ok (conf : Config) (i : Z) (vars vars' : variables.t)
    (c r : Change) :
  passOne env conf i vars c = Ret (r, vars', None) ->
  exists name,
    replaceVariables env conf (offered conf i c) vars = Ret (name, vars', None)
    /\ r = recorded conf i c name.
Proof.
  unfold passOne.
  destruct (replaceVariables env conf _ vars) as [[[name v] [err|]]|e];
    intros H; try discriminate.
  injection H as <- <-. now exists name.
Qed.

Lemma replaceLoop_passes (conf : Config) :
  forall todo i vars w res w',
    replaceLoop env conf i vars todo w = Ret ((res, None), w') ->
    exists vars', Passes env conf i vars todo res vars'.
Proof.
  induction todo as [|c todo IH]; intros i vars w res w' H; simpl in H.
  - unfold retE in H. injection H as <- _. exists vars. constructor.
  - unfold bindE in H at 1. rewrite replaceOne_run in H.
    destruct (passOne env conf i vars c) as [[[r v] [err|]]|e] eqn:E1;
      try discriminate.
    unfold bindE in H.
    destruct (replaceLoop env conf (i + 1) v todo _)
      as [[[rest err] w2]|e] eqn:E2; [|discriminate].
    unfold retE in H. injection H as <- -> _.
    destruct (IH _ _ _ _ _ E2) as [vars' Hp].
    exists vars'. econstructor; [exact E1|exact Hp].
Qed.

Lemma Passes_nth (conf : Config) :
  forall todo res i vars vars',
    Passes env conf i vars todo res vars' ->
    forall k r,
      nth_error res k = Some r ->
      exists c vars1 vars2,
        nth_error todo k = Some c
        /\ passOne env conf (i + Z.of_nat k) vars1 c = Ret (r, vars2, None).
Proof.
  intros todo res i vars vars' H.
  induction H as [i vars|i c r todo res vars vars1 vars' H1 H2 IH];
    intros k r0 Hk.
  - destruct k; discriminate.
  - destruct k as [|k]; simpl in Hk.
    + injection Hk as <-. exists c, vars, vars1.
      split; [reflexivity|]. now rewrite Z.add_0_r.
    + destruct (IH k r0 Hk) as (c0 & v & v' & Hc & Hr).
      exists c0, v, v'. split; [exact Hc|].
      replace (i + Z.of_nat (S k))%Z with (i + 1 + Z.of_nat k)%Z by lia.
      exact Hr.
Qed.

(** The pass, by the outcome of the extraction and of the loop. *)
Lemma replaceMatches_run (conf : Config) (matches : list Change) (w : World) :
  replaceMatches env conf matches w
  = match extractVariables env (Replacement conf) with
    | Panic e => Panic e
    | Ret (_, Some err) => Ret (([], Some err), w)
    | Ret (vars, None) =>
        match replaceLoop env conf 0 vars (walked env vars matches)
                (logged w
                   (Debug "extracted variables"
                    :: if (0 <? GoInt.len
                                  (indexVars.matches (variables.index vars)))%Z
                       then [Debug "sorted matches based on directory level"]
                       else [])) with
        | Panic e => Panic e
        | Ret ((_, Some err), w2) => Ret (([], Some err), w2)
        | Ret ((ms, None), w2) => Ret ((ms, None), w2)
        end
    end.
Proof.
  unfold replaceMatches, walked, logged. unfold bindE at 1. unfold liftGo.
  destruct (extractVariables env (Replacement conf)) as [[vars [err|]]|e];
    try reflexivity.
  unfold bindE at 1. unfold slogDebug at 1. unfold bindE at 1.
  destruct (0 <? GoInt.len (indexVars.matches (variables.index vars)))%Z.
  - unfold bindE at 1. unfold slogDebug at 1. unfold retE at 1.
    unfold bindE. simpl. rewrite <- app_assoc. simpl.
    destruct (replaceLoop env conf 0 vars _ _) as [[[r [err|]] w2]|e];
      reflexivity.
  - unfold retE at 1. unfold bindE. simpl.
    destruct (replaceLoop env conf 0 vars _ _) as [[[r [err|]] w2]|e];
      reflexivity.
Qed.

(** A successful [replaceMatches] has extracted the variables and passed
    every entry of the batch it walked. *)
Lemma replaceMatches_ok (conf : Config) (matches res : list Change)
    (w w' : World) :
  replaceMatches env conf matches w = Ret ((res, None), w') ->
  exists vars vars',
    extractVariables env (Replacement conf) = Ret (vars, None)
    /\ Passes env conf 0 vars (walked env vars matches) res vars'.
Proof.
  rewrite replaceMatches_run.
  destruct (extractVariables env (Replacement conf)) as [[vars [err|]]|e];
    try discriminate.
  destruct (replaceLoop env conf 0 vars _ _) as [[[r [err|]] w2]|e] eqn:E;
    try discriminate.
  intros H. injection H as <- _.
  destruct (replaceLoop_passes _ _ _ _ _ _ _ E) as [vars' Hp].
  now exists vars, vars'.
Qed.

(** Every entry a successful pass returns is the record of an entry of
    the batch walked, at the same position. *)
Lemma replaceMatches_entry (conf : Config) (matches res : list Change)
    (w w' : World) :
  replaceMatches env conf matches w = Ret ((res, None), w') ->
  forall k r,
    nth_error res k = Some r ->
    exists vars c name,
      extractVariables env (Replacement conf) = Ret (vars, None)
      /\ nth_error (walked env vars matches) k = Some c
      /\ r = recorded conf (Z.of_nat k) c name.
Proof.
  intros H k r Hk.
  destruct (replaceMatches_ok _ _ _ _ _ H) as (vars & vars' & Hv & Hp).
  destruct (Passes_nth _ _ _ _ _ _ Hp k r Hk) as (c & v & v' & Hc & Hr).
  destruct (passOne_ok _ _ _ _ _ _ Hr) as (name & _ & ->).
  exists vars, c, name. now repeat split.
Qed.

(** The same, with the name the substituter returned for the entry: the
    substituter was given the entry walked, its target the name the
    regex replacer made of the working name. *)
Lemma replaceMatches_entry_name (conf : Config) (matches res : list Change)
    (w w' : World) :
  replaceMatches env conf matches w = Ret ((res, None), w') ->
  forall k r,
    nth_error res k = Some r ->
    exists vars c vars1 vars2 name,
      extractVariables env (Replacement conf) = Ret (vars, None)
      /\ nth_error (walked env vars matches) k = Some c
      /\ replaceVariables env conf (offered conf (Z.of_nat k) c) vars1
         = Ret (name, vars2, None)
      /\ r = recorded conf (Z.of_nat k) c name.
Proof.
  intros H k r Hk.
  destruct (replaceMatches_ok _ _ _ _ _ H) as (vars & vars' & Hv & Hp).
  destruct (Passes_nth _ _ _ _ _ _ Hp k r Hk) as (c & v & v' & Hc & Hr).
  destruct (passOne_ok _ _ _ _ _ _ Hr) as (name & Hn & ->).
  exists vars, c, v, v', name. now repeat split.
Qed.

(** C8 (as amended). After a successful link pass, every entry of the
    batch returned is the record of the entry walked at its position:
    its [Target] is the name the substituter returned for that entry
    (with the extension attached again, in extension-preserving mode)
    cleaned by [filepath.Clean] and then trimmed by [strings.TrimSpace];
    it neither begins nor ends with white space, and it is the cleaned
    name itself when that has no white space around it; its
    [RelTargetPath] is the join of its [BaseDir] and that [Target]; its
    [Status] is OK; and its [Index] is its position in the batch.  The
    trimming comes after the cleaning: the replacement [b//c/./d] is
    recorded as [b/c/d] and [ y ] as [y], but [b/ ], which is clean, is
    recorded as [b/], which is not. *)
Theorem pass_records_every_entry (conf : Config) (matches res : list Change)
    (w w' : World)
    (Hok : replaceMatches env conf matches w = Ret ((res, None), w')) :
  (forall k r,
     nth_error res k = Some r ->
     exists vars c vars1 vars2 name,
       extractVariables env (Replacement conf) = Ret (vars, None)
       /\ nth_error (walked env vars matches) k = Some c
       /\ replaceVariables env conf (offered conf (Z.of_nat k) c) vars1
          = Ret (name, vars2, None)
       /\ Source r = Source c /\ BaseDir r = BaseDir c
       /\ Target r
          = Strings.TrimSpace (Filepath.Clean (rawTarget conf c name))
       /\ startsWithSpace (Target r) = false
       /\ endsWithSpace (Target r) = false
       /\ (startsWithSpace (Filepath.Clean (rawTarget conf c name)) = false ->
           endsWithSpace (Filepath.Clean (rawTarget conf c name)) = false ->
           Target r = Filepath.Clean (rawTarget conf c name))
       /\ RelTargetPath r = Filepath.Join [BaseDir r; Target r]
       /\ Status r = status.OK
       /\ Index r = Z.of_nat k)
  /\ Demo.recordsOf "x" "b//c/./d" false "x" = [("b/c/d", "d/b/c/d")]
  /\ Demo.recordsOf "x" " y " false "x" = [("y", "d/y")]
  /\ Demo.recordsOf "x" "b/ " false "x" = [("b/", "d/b")]
  /\ Filepath.Clean "b/ " = "b/ "
  /\ Filepath.Clean "b/" = "b".
Proof.
  split; [|repeat split; vm_compute; reflexivity].
  intros k r Hk.
  destruct (replaceMatches_entry_name _ _ _ _ _ Hok k r Hk)
    as (vars & c & vars1 & vars2 & name & Hv & Hc & Hn & ->).
  exists vars, c, vars1, vars2, name.
  unfold recorded. cbn [Source Target BaseDir RelTargetPath Status Index].
  destruct (TrimSpace_no_space (Filepath.Clean (rawTarget conf c name)))
    as [Hs He].
  repeat split; try assumption.
  intros Hs0 He0. now apply TrimSpace_fixed.
Qed.

(** C10. For an entry whose directory flag is set the loop body is the
    body without the extension-preserving branches, whatever the mode:
    the whole name goes to the regex replacer and nothing is attached to
    the substituted name.  Under extension-preserving mode the pattern x
    with replacement y turns the directory x.x into y.y, and the file x.x
    into y.x. *)
Theorem directories_bypass_extension_mode (conf : Config) (i : Z)
    (vars : variables.t) (change : Change) (w : World)
    (Hdir : IsDir change = true) :
  replaceOne env conf i vars change w = replaceOnePlain env conf i vars change w
  /\ workingName conf change = Source change
  /\ (forall name, rawTarget conf change name = name)
  /\ (forall name,
        Target (recorded conf i change name)
        = Strings.TrimSpace (Filepath.Clean name))
  /\ map Target
       (batchOf
          (replaceMatches Demo.env Demo.xyConf
             [Demo.dir "d" "x.x"; Demo.file "d" "x.x"] Demo.xyWorld))
     = ["y.y"; "y.x"].
Proof.
  assert (Hw : workingName conf change = Source change).
  { unfold workingName. rewrite Hdir. simpl. now rewrite andb_false_r. }
  assert (Hr : forall name, rawTarget conf change name = name).
  { intros name. unfold rawTarget. rewrite Hdir. simpl.
    now rewrite andb_false_r. }
  split; [|split; [exact Hw|split; [exact Hr|split]]].
  - unfold replaceOne, replaceOnePlain. simpl. rewrite Hdir. simpl.
    rewrite andb_false_r. reflexivity.
  - intros name. unfold recorded. simpl. now rewrite Hr.
  - reflexivity.
Qed.

End PassFacts.

Lemma pass_records_every_entry_witness :
  exists vars c vars1 vars2 name,
    extractVariables Demo.env (Replacement Demo.xyConf) = Ret (vars, None)
    /\ nth_error (walked Demo.env vars Demo.xyBatch) 1 = Some c
    /\ replaceVariables Demo.env Demo.xyConf (offered Demo.xyConf 1 c) vars1
       = Ret (name, vars2, None)
    /\ "y.txt" = Strings.TrimSpace (Filepath.Clean (rawTarget Demo.xyConf c name))
    /\ "d/y.txt" = Filepath.Join ["d"; "y.txt"].
Proof.
  destruct (proj1 (pass_records_every_entry Demo.env Demo.xyConf Demo.xyBatch
                     (batchOf (replaceMatches Demo.env Demo.xyConf
                                 Demo.xyBatch Demo.xyWorld))
                     Demo.xyWorld
                     (worldOf Demo.xyWorld
                        (replaceMatches Demo.env Demo.xyConf Demo.xyBatch
                           Demo.xyWorld))
                     eq_refl) 1
              (mkChange "x.txt" "y.txt" "d" "d/y.txt" false 1 status.OK)
              eq_refl)
    as (vars & c & vars1 & vars2 & name & Hv & Hc & Hn & _ & _ & Ht & _ & _
        & _ & Hp & _).
  exists vars, c, vars1, vars2, name.
  repeat split; assumption.
Defined.

(** The replacement [b/ ] is clean; trimmed after the cleaning it is
    recorded as [b/], which [filepath.Clean] would change to [b]. *)
Lemma target_normalized_counterexample : ~ TargetsNormalized Demo.env.
Proof.
  intros H.
  assert (Hrun : replaceMatches Demo.env (Demo.linkConf "x" "b/ " false)
                   [Demo.file "d" "x"] (Demo.world [("x", "b/ ")] 0 false)
                 = Ret (([mkChange "x" "b/" "d" "d/b" false 0 status.OK],
                         None),
                        worldOf (Demo.world [("x", "b/ ")] 0 false)
                          (replaceMatches Demo.env
                             (Demo.linkConf "x" "b/ " false)
                             [Demo.file "d" "x"]
                             (Demo.world [("x", "b/ ")] 0 false))))
    by (vm_compute; reflexivity).
  destruct (H _ _ _ _ _ Hrun
              (mkChange "x" "b/" "d" "d/b" false 0 status.OK)
              (or_introl eq_refl)) as [Hclean _].
  vm_compute in Hclean. discriminate Hclean.
Qed.

Lemma directories_bypass_extension_mode_witness :
  replaceOne Demo.env Demo.xyConf 0 variables.zero (Demo.dir "d" "x.x")
    Demo.xyWorld
  = replaceOnePlain Demo.env Demo.xyConf 0 variables.zero (Demo.dir "d" "x.x")
      Demo.xyWorld.
Proof.
  apply (directories_bypass_extension_mode Demo.env Demo.xyConf 0
           variables.zero (Demo.dir "d" "x.x") Demo.xyWorld).
  reflexivity.
Defined.

(** ** [filepath.Ext] and [pathutil.StripExtension] *)

Section ExtFacts.

Lemma plain_append (a b : string) : plain (a ++ b) = plain a && plain b.
Proof.
  induction a as [|c a IH]; simpl; [reflexivity|].
  rewrite IH. now rewrite !andb_assoc.
Qed.

Lemma plain_rev (s : string) : plain (Strings.rev s) = plain s.
Proof.
  induction s as [|c s IH]; simpl; [reflexivity|].
  rewrite plain_append, IH. simpl. rewrite andb_true_r. apply andb_comm.
Qed.

Lemma isDot_eq (c : ascii) : Filepath.isDot c = true -> c = "."%char.
Proof. apply Ascii.eqb_eq. Qed.

(** The scan returns nothing, or the suffix that starts at the first dot
    it meets, before any separator. *)
Lemma extScan_spec :
  forall r suf,
    Filepath.extScan r suf = EmptyString
    \/ exists r1 r2,
         r = r1 ++ "." ++ r2 /\ plain r1 = true
         /\ Filepath.extScan r suf = "." ++ Strings.rev r1 ++ suf.
Proof.
  induction r as [|c more IH]; intros suf; simpl; [now left|].
  destruct (Filepath.isSep c) eqn:Es; [now left|].
  destruct (Filepath.isDot c) eqn:Ed.
  - right. exists EmptyString, more. apply isDot_eq in Ed. subst c.
    now repeat split.
  - destruct (IH (String c suf)) as [E|(r1 & r2 & Hr & Hp & E)]; [now left|].
    right. exists (String c r1), r2. split; [|split].
    + now rewrite Hr.
    + simpl. now rewrite Es, Ed, Hp.
    + rewrite E. simpl. now rewrite append_assoc.
Qed.


(** The extension of a name is empty, or it is a suffix of the name: a
    dot followed by bytes that are neither dots nor separators. *)
Lemma Ext_shape (s : string) :
  Filepath.Ext s = EmptyString
  \/ exists stem e,
       s = stem ++ "." ++ e /\ Filepath.Ext s = "." ++ e /\ plain e = true.
Proof.
  unfold Filepath.Ext.
  destruct (extScan_spec (Strings.rev s) EmptyString)
    as [E|(r1 & r2 & Hr & Hp & E)]; [now left|].
  right. exists (Strings.rev r2), (Strings.rev r1).
  rewrite E, append_nil_r, plain_rev. repeat split; [|exact Hp].
  apply rev_inj. rewrite Hr, !rev_append, rev_involutive. simpl.
  rewrite rev_involutive. now rewrite append_assoc.
Qed.


(** Stripping the extension and attaching it again gives the name
    back. *)
Lemma StripExtension_Ext (s : string) :
  Pathutil.StripExtension s ++ Filepath.Ext s = s.
Proof.
  unfold Pathutil.StripExtension, Strings.slice.
  destruct (Ext_shape s) as [E|(stem & e & Hs & E & _)].
  - rewrite E. simpl. rewrite !Nat.sub_0_r.
    now rewrite substring_0_length, append_nil_r.
  - rewrite E. clear E. subst s. rewrite length_append.
    replace (String.length stem + String.length ("." ++ e)
             - String.length ("." ++ e) - 0) with (String.length stem) by lia.
    now rewrite substring_0_append.
Qed.

End ExtFacts.

(** ** White space and the dot of an extension *)

Section TrimDot.
Variable sp2 : ascii -> ascii -> bool.
Variable sp3 : ascii -> ascii -> ascii -> bool.
Variable d : ascii.
Hypothesis d_ascii : Strings.asciiSpace d = false.
Hypothesis d_sp2_1 : forall b, sp2 d b = false.
Hypothesis d_sp2_2 : forall a, sp2 a d = false.
Hypothesis d_sp3_1 : forall b c, sp3 d b c = false.
Hypothesis d_sp3_2 : forall a c, sp3 a d c = false.
Hypothesis d_sp3_3 : forall a b, sp3 a b d = false.

Let trim := Strings.trimRunes sp2 sp3.





End TrimDot.

Section DotFacts.











End DotFacts.

(** ** [filepath.Clean] and the last element of a path *)

Section CleanFacts.







End CleanFacts.

(** ** The extension through a pass *)

Section ExtensionThroughPass.
Variable env : Env.


End ExtensionThroughPass.



(** ** The chain *)

Section ChainFacts.
Variable env : Env.

(** The body of the chain loop, by the outcome of the pass and of the
    recompilation of the search pattern. *)
Lemma chainBody_run (n i : Z) (v : string) (matches : list Change)
    (w : World) :
  chainBody env n i v matches w
  = match replaceMatches env (withReplacement (w_conf w) v) matches
            (entered w v i) with
    | Panic e => Panic e
    | Ret ((_, Some err), w2) => Ret (Return ([], Some err), w2)
    | Ret ((ms, None), w2) =>
        let w3 :=
          logged w2 [contextRecord (linkContext w v i) "find/replace result"] in
        if (n =? 1)%Z || ((0 <? i)%Z && (i =? n - 1)%Z)
        then Ret (Return (ms, None), w3)
        else
          let w4 :=
            logged w3
              [contextRecord (linkContext w v i)
                 "updated sources for next find/replace"] in
          match SetFindStringRegex env (w_conf w4) (i + 1) with
          | (conf', Some err) =>
              Ret (Return ([], Some err), mkWorld conf' (w_log w4))
          | (conf', None) =>
              Ret (Next (map (fun change =>
                                if negb (i =? n - 1)%Z then promote change
                                else change) ms),
                   mkWorld conf' (w_log w4))
          end
    end.
Proof.
  unfold chainBody, entered, linkContext, contextRecord, logged, promote.
  unfold bindE, getConf, slogDebugContext, SetReplacement, retE,
    setFindStringRegex. simpl.
  destruct (replaceMatches env _ matches _) as [[[ms [err|]] w2]|e];
    try reflexivity.
  simpl.
  destruct ((n =? 1)%Z || ((0 <? i)%Z && (i =? n - 1)%Z)); [reflexivity|].
  simpl.
  destruct (SetFindStringRegex env (w_conf w2) (i + 1)) as [conf' [err|]];
    reflexivity.
Qed.

(** A chain of one link is one pass with the template of the link. *)
Lemma chain_single (matches : list Change) (v : string) (w : World) :
  ReplacementSlice (w_conf w) = [v] ->
  handleReplacementChain env matches w
  = match replaceMatches env (withReplacement (w_conf w) v) matches
            (entered w v 0) with
    | Panic e => Panic e
    | Ret ((_, Some err), w2) => Ret (([], Some err), w2)
    | Ret ((ms, None), w2) =>
        Ret ((ms, None),
             logged w2 [contextRecord (linkContext w v 0) "find/replace result"])
    end.
Proof.
  intros Hs. unfold handleReplacementChain. unfold bindE at 1. unfold getConf.
  rewrite Hs. simpl. unfold bindE at 1. rewrite chainBody_run.
  destruct (replaceMatches env _ matches _) as [[[ms [err|]] w2]|e];
    reflexivity.
Qed.

End ChainFacts.

(** ** A link that changes no name *)

Lemma regexReplace_no_match (re : Regexp.t) (input repl : string) (limit : Z) :
  Regexp.allMatches re input = [] -> regexReplace re input repl limit = input.
Proof.
  intros H. unfold regexReplace, Regexp.ReplaceAllStringFunc,
    Regexp.ReplaceAllString, Regexp.FindAllString.
  rewrite H. simpl. unfold Strings.slice. rewrite Nat.sub_0_r.
  destruct (0 <? limit)%Z; [|destruct (limit <? 0)%Z]; simpl;
    apply substring_0_length.
Qed.

Section IdentityLinkFacts.
Variable env : Env.

(** C7 (as amended). After a single-link chain whose pattern,
    replacement and substituter change no name, the target of every entry
    is its source cleaned and trimmed; it is the source itself when the
    source is clean and without surrounding white space. *)
Theorem identity_link_cleans_names (w : World) (matches : list Change)
    (v : string) (res : list Change) (w' : World)
    (Hone : ReplacementSlice (w_conf w) = [v])
    (Hid : IdentityLink env (withReplacement (w_conf w) v))
    (Hok : handleReplacementChain env matches w = Ret ((res, None), w')) :
  forall r,
    In r res ->
    Target r = Strings.TrimSpace (Filepath.Clean (Source r))
    /\ (Strings.TrimSpace (Filepath.Clean (Source r)) = Source r ->
        Target r = Source r).
Proof.
  intros r Hin.
  assert (Ht : Target r = Strings.TrimSpace (Filepath.Clean (Source r))).
  { rewrite (chain_single env matches v w Hone) in Hok.
    destruct (replaceMatches env _ matches _) as [[[ms [err|]] w2]|e] eqn:E;
      try discriminate.
    injection Hok as -> _.
    destruct (In_nth_error _ _ Hin) as [k Hk].
    destruct (replaceMatches_ok env _ _ _ _ _ E) as (vars & vars1 & _ & Hp).
    destruct (Passes_nth env _ _ _ _ _ _ Hp k r Hk)
      as (c & v0 & v0' & _ & Hr).
    destruct (passOne_ok env _ _ _ _ _ _ Hr) as (name & Hs & ->).
    destruct Hid as [Hre Hsub].
    destruct (Hsub (offered (withReplacement (w_conf w) v) (0 + Z.of_nat k) c) v0)
      as [vars' Hv].
    rewrite Hv in Hs. injection Hs as <- _.
    unfold recorded, offered. simpl. rewrite Hre.
    unfold rawTarget, workingName.
    destruct (IgnoreExt _ && negb (IsDir c)); [|reflexivity].
    now rewrite StripExtension_Ext. }
  split; [exact Ht|]. intros E. now rewrite Ht.
Qed.

End IdentityLinkFacts.

Lemma demo_identity_link : IdentityLink Demo.env (withReplacement Demo.idConf "y").
Proof.
  split.
  - intros name. unfold replaceString. now apply regexReplace_no_match.
  - intros change vars. now exists vars.
Qed.

Lemma identity_link_cleans_names_witness :
  Target (mkChange " a" "a" "d" "d/a" false 0 status.OK)
  = Strings.TrimSpace (Filepath.Clean " a").
Proof.
  apply (identity_link_cleans_names Demo.env Demo.idWorld
           [Demo.file "d" " a"; Demo.file "d" "b/../c.txt"] "y"
           (batchOf (handleReplacementChain Demo.env
                       [Demo.file "d" " a"; Demo.file "d" "b/../c.txt"]
                       Demo.idWorld))
           (worldOf Demo.idWorld
              (handleReplacementChain Demo.env
                 [Demo.file "d" " a"; Demo.file "d" "b/../c.txt"]
                 Demo.idWorld))
           eq_refl demo_identity_link eq_refl).
  left. reflexivity.
Defined.

(** The file named [ a], with a space before the a, gets the target [a]
    from a link that changes no name. *)
Lemma identity_link_counterexample : ~ IdentityLeavesNames Demo.env.
Proof.
  intros H.
  assert (E : Target (mkChange " a" "a" "d" "d/a" false 0 status.OK)
              = Source (mkChange " a" "a" "d" "d/a" false 0 status.OK)).
  { apply (H Demo.idWorld [Demo.file "d" " a"] "y"
             (batchOf (handleReplacementChain Demo.env [Demo.file "d" " a"]
                         Demo.idWorld))
             (worldOf Demo.idWorld
                (handleReplacementChain Demo.env [Demo.file "d" " a"]
                   Demo.idWorld))
             eq_refl demo_identity_link eq_refl).
    left. reflexivity. }
  discriminate E.
Qed.

(** ** A link that fails *)

Section FailureFacts.
Variable env : Env.

(** The loop stops at the first entry on which the substituter returns
    an error. *)
Lemma replaceLoop_fails (conf : Config) (c c' : Change) (after : list Change)
    (e : error) :
  forall before passed i vars vars1 vars2,
    Passes env conf i vars before passed vars1 ->
    passOne env conf (i + GoInt.len before) vars1 c = Ret (c', vars2, Some e) ->
    forall w,
    exists w',
      replaceLoop env conf i vars (before ++ c :: after) w
      = Ret ((passed ++ c' :: after, Some e)%list, w').
Proof.
  intros before passed i vars vars1 vars2 Hp.
  induction Hp as [i vars|i c0 r todo res vars vars0 vars' H1 H2 IH];
    intros Hfail w.
  - unfold GoInt.len in Hfail. simpl in Hfail. rewrite Z.add_0_r in Hfail.
    simpl. unfold bindE at 1. rewrite replaceOne_run, Hfail.
    eexists. reflexivity.
  - simpl. unfold bindE at 1. rewrite replaceOne_run, H1.
    unfold bindE.
    destruct (IH ltac:(
                replace (i + 1 + GoInt.len todo)%Z
                  with (i + GoInt.len (c0 :: todo))%Z;
                [exact Hfail|unfold GoInt.len; simpl length; lia])
                (logged w [Debug "regex replacement result";
                           Debug "variable replacement result"]))
      as [w' Hw'].
    rewrite Hw'. eexists. reflexivity.
Qed.

(** A failing link returns its error and no batch. *)
Lemma replaceMatches_fails (conf : Config) (matches : list Change) (e : error) :
  LinkFailure env conf matches e ->
  forall w,
  exists w', replaceMatches env conf matches w = Ret (([], Some e), w').
Proof.
  intros [vars e0 H|vars vars1 vars2 passed before after c c' e0 Hv Hw Hp Hf] w;
    rewrite replaceMatches_run.
  - rewrite H. eexists. reflexivity.
  - rewrite Hv, Hw.
    destruct (replaceLoop_fails conf c c' after e0 before passed 0 vars vars1
                vars2 Hp Hf
                (logged w
                   (Debug "extracted variables"
                    :: if (0 <? GoInt.len
                                  (indexVars.matches (variables.index vars)))%Z
                       then [Debug "sorted matches based on directory level"]
                       else []))) as [w' Hw'].
    rewrite Hw'. eexists. reflexivity.
Qed.

(** The chain loop from a state it reaches is the chain loop from the
    start. *)
Lemma Reaches_chainLoop (n : Z) :
  forall i todo ms w j todo' ms' w',
    Reaches env n i todo ms w j todo' ms' w' ->
    chainLoop env n i todo ms w = chainLoop env n j todo' ms' w'.
Proof.
  intros i todo ms w j todo' ms' w' H.
  induction H as [|i v todo ms ms1 w w1 j todo' ms' w' Hb Hr IH];
    [reflexivity|].
  simpl. unfold bindE at 1. now rewrite Hb.
Qed.

(** An error of the chain comes with no batch. *)
Lemma chainLoop_error_nil (n : Z) :
  forall todo i ms w res e w',
    chainLoop env n i todo ms w = Ret ((res, Some e), w') -> res = [].
Proof.
  induction todo as [|v todo IH]; intros i ms w res e w' H; simpl in H.
  - discriminate.
  - unfold bindE at 1 in H. rewrite chainBody_run in H.
    destruct (replaceMatches env _ ms _) as [[[ms1 [err|]] w2]|e0];
      try discriminate.
    + unfold retE in H. now injection H as <- _ _.
    + cbv zeta in H.
      destruct ((n =? 1)%Z || ((0 <? i)%Z && (i =? n - 1)%Z)).
      * unfold retE in H. discriminate.
      * destruct (SetFindStringRegex env _ (i + 1)) as [conf' [err|]].
        -- unfold retE in H. now injection H as <- _ _.
        -- eapply IH. exact H.
Qed.

(** C5. When the chain reaches a link and the link fails (the
    extraction of the variables of its template returns an error, or the
    substituter returns one on an entry), the chain returns that error
    and the nil batch; and whenever the chain returns an error, the batch
    it returns is nil: no entry is returned with an error. *)
Theorem chain_aborts_on_failure (w : World) (matches : list Change)
    (k : Z) (v : string) (rest : list string) (ms : list Change)
    (wk : World) (e : error)
    (Hreach : Reaches env (GoInt.len (ReplacementSlice (w_conf w))) 0
                (ReplacementSlice (w_conf w)) matches w k (v :: rest) ms wk)
    (Hfail : LinkFailure env (withReplacement (w_conf wk) v) ms e) :
  (exists w', handleReplacementChain env matches w = Ret (([], Some e), w'))
  /\ (forall matches0 w0 res0 e0 w0',
        handleReplacementChain env matches0 w0 = Ret ((res0, Some e0), w0') ->
        res0 = []).
Proof.
  split.
  - unfold handleReplacementChain. unfold bindE, getConf.
    rewrite (Reaches_chainLoop _ _ _ _ _ _ _ _ _ Hreach).
    simpl. unfold bindE at 1. rewrite chainBody_run.
    destruct (replaceMatches_fails _ _ _ Hfail (entered wk v k)) as [w' Hw'].
    rewrite Hw'. eexists. reflexivity.
  - intros matches0 w0 res0 e0 w0' H.
    unfold handleReplacementChain in H. unfold bindE, getConf in H.
    eapply chainLoop_error_nil. exact H.
Qed.

End FailureFacts.

Lemma chain_aborts_on_failure_witness :
  exists w',
    handleReplacementChain Demo.failingEnv [Demo.file "d" "a"] Demo.abcWorld
    = Ret (([], Some Demo.abcFailure), w').
Proof.
  refine (proj1 (chain_aborts_on_failure Demo.failingEnv Demo.abcWorld
                   [Demo.file "d" "a"] 1 "c" [] _ _ Demo.abcFailure _ _)).
  - eapply reaches_next; [lazy; reflexivity|apply reaches_here].
  - eapply substitution_fails with (before := []);
      [lazy; reflexivity|lazy; reflexivity|constructor|lazy; reflexivity].
Defined.

(** ** From one link to the next *)

Section ChainStep.
Variable env : Env.

(** C2 (as amended). In a chain of two or more links, after a link that
    is not the final one has passed, the source of every entry is
    overwritten with the target the link produced, the search pattern is
    recompiled by [SetFindStringRegex] for the next position, and the
    chain goes on with the next link on those entries; after the final
    link the batch of the pass is returned.  A pass keeps the source of
    each entry it walks: the entry returned after the final link has the
    intermediate value as its source. *)
Theorem chain_feeds_targets_forward (n i : Z) (v : string)
    (todo : list string) (matches ms : list Change) (w w2 : World)
    (Hpos : (0 <= i)%Z) (Hn : n = (i + 1 + GoInt.len todo)%Z)
    (Hpass : replaceMatches env (withReplacement (w_conf w) v) matches
               (entered w v i) = Ret ((ms, None), w2)) :
  (todo <> [] ->
   forall conf',
     SetFindStringRegex env (w_conf w2) (i + 1) = (conf', None) ->
     chainLoop env n i (v :: todo) matches w
     = chainLoop env n (i + 1) todo (map promote ms)
         (mkWorld conf'
            (w_log w2
             ++ [contextRecord (linkContext w v i) "find/replace result";
                 contextRecord (linkContext w v i)
                   "updated sources for next find/replace"])%list))
  /\ (todo = [] ->
      chainLoop env n i (v :: todo) matches w
      = Ret ((ms, None),
             logged w2
               [contextRecord (linkContext w v i) "find/replace result"]))
  /\ (forall p, In p (map promote ms) -> Source p = Target p)
  /\ (forall k r,
        nth_error ms k = Some r ->
        exists vars c,
          extractVariables env v = Ret (vars, None)
          /\ nth_error (walked env vars matches) k = Some c
          /\ Source r = Source c).
Proof.
  assert (Hlen : (0 <= GoInt.len todo)%Z) by (unfold GoInt.len; lia).
  split; [|split; [|split]].
  - intros Hne conf' Hset. simpl. unfold bindE at 1.
    rewrite chainBody_run, Hpass. cbv zeta.
    assert (Hl : (1 <= GoInt.len todo)%Z).
    { destruct todo; [congruence|]. unfold GoInt.len. simpl length. lia. }
    replace ((n =? 1)%Z || ((0 <? i)%Z && (i =? n - 1)%Z)) with false.
    2:{ symmetry. apply orb_false_iff. split.
        - apply Z.eqb_neq. lia.
        - apply andb_false_iff. right. apply Z.eqb_neq. lia. }
    simpl. rewrite Hset.
    replace (i =? n - 1)%Z with false by (symmetry; apply Z.eqb_neq; lia).
    simpl. rewrite <- app_assoc. simpl.
    f_equal.
  - intros ->. simpl. unfold bindE at 1.
    rewrite chainBody_run, Hpass. cbv zeta.
    unfold GoInt.len in Hn. simpl in Hn.
    replace ((n =? 1)%Z || ((0 <? i)%Z && (i =? n - 1)%Z)) with true.
    2:{ symmetry. apply orb_true_iff.
        destruct (Z.eq_dec i 0) as [->|Hi].
        - left. apply Z.eqb_eq. lia.
        - right. apply andb_true_iff. split.
          + apply Z.ltb_lt. lia.
          + apply Z.eqb_eq. lia. }
    reflexivity.
  - intros p Hin. apply in_map_iff in Hin as (c & <- & _). reflexivity.
  - intros k r Hk.
    destruct (replaceMatches_entry env _ _ _ _ _ Hpass k r Hk)
      as (vars & c & name & Hv & Hc & ->).
    exists vars, c. simpl in Hv. now repeat split.
Qed.

End ChainStep.

Lemma chain_feeds_targets_forward_witness :
  chainLoop Demo.env 2 0 ["b"; "c"] [Demo.file "d" "a"] Demo.abcWorld
  = chainLoop Demo.env 2 1 ["c"]
      [mkChange "b" "b" "d" "d/b" false 0 status.OK]
      (mkWorld
         (withSearchRegex (withReplacement (Demo.config [("a", "b"); ("b", "c")]
                                              0 false) "b")
            (Demo.literal "b"))
         [DebugContext "a" "b" 0 "executing find and replace";
          Debug "extracted variables"; Debug "regex replacement result";
          Debug "variable replacement result";
          DebugContext "a" "b" 0 "find/replace result";
          DebugContext "a" "b" 0 "updated sources for next find/replace"]).
Proof.
  apply (chain_feeds_targets_forward Demo.env 2 0 "b" ["c"]
           [Demo.file "d" "a"]
           [mkChange "a" "b" "d" "d/b" false 0 status.OK]
           Demo.abcWorld
           (mkWorld (withReplacement (Demo.config [("a", "b"); ("b", "c")]
                                        0 false) "b")
              [DebugContext "a" "b" 0 "executing find and replace";
               Debug "extracted variables"; Debug "regex replacement result";
               Debug "variable replacement result"])).
  - lia.
  - reflexivity.
  - reflexivity.
  - discriminate.
  - reflexivity.
Defined.

(** In the chain a to b, then b to c, the file a is returned with the
    target c and the source b, the value it had between the links. *)
Lemma intermediate_value_counterexample : ~ IntermediateHidden Demo.env.
Proof.
  intros H.
  assert (Hpass : replaceMatches Demo.env
                    (withReplacement (w_conf Demo.abcWorld) "b")
                    [Demo.file "d" "a"] (entered Demo.abcWorld "b" 0)
                  = Ret (([mkChange "a" "b" "d" "d/b" false 0 status.OK], None),
                         worldOf Demo.abcWorld
                           (replaceMatches Demo.env
                              (withReplacement (w_conf Demo.abcWorld) "b")
                              [Demo.file "d" "a"]
                              (entered Demo.abcWorld "b" 0))))
    by (vm_compute; reflexivity).
  assert (Hrun : handleReplacementChain Demo.env [Demo.file "d" "a"]
                   Demo.abcWorld
                 = Ret (([mkChange "b" "c" "d" "d/c" false 0 status.OK], None),
                        worldOf Demo.abcWorld
                          (handleReplacementChain Demo.env [Demo.file "d" "a"]
                             Demo.abcWorld)))
    by (vm_compute; reflexivity).
  destruct (H Demo.abcWorld [Demo.file "d" "a"] "b" "c" _ _ _ _ eq_refl
              Hpass Hrun 0 _ _ eq_refl eq_refl) as [_ Hsrc].
  now apply Hsrc.
Qed.

(** ** The points of the chain at which the batch is reordered *)

Section ReorderFacts.
Variable env : Env.

Lemma Quiet_nil : Quiet [].
Proof. intros c l. reflexivity. Qed.

Lemma Quiet_app (a b : list LogRecord) : Quiet a -> Quiet b -> Quiet (a ++ b).
Proof.
  intros Ha Hb c l. now rewrite <- app_assoc, Ha, Hb.
Qed.

(** The loop of [replaceMatches] leaves the configuration, and its log
    holds no record of a reordering and no record with a context. *)
Lemma replaceLoop_log (conf : Config) :
  forall todo i vars w r w',
    replaceLoop env conf i vars todo w = Ret (r, w') ->
    w_conf w' = w_conf w
    /\ exists suf, w_log w' = (w_log w ++ suf)%list /\ Quiet suf.
Proof.
  induction todo as [|c todo IH]; intros i vars w r w' H; simpl in H.
  - unfold retE in H. injection H as _ <-. split; [reflexivity|].
    exists []. split; [now rewrite app_nil_r|apply Quiet_nil].
  - unfold bindE at 1 in H. rewrite replaceOne_run in H.
    destruct (passOne env conf i vars c) as [[[c' v] [err|]]|e];
      try discriminate.
    + unfold retE in H. injection H as _ <-. split; [reflexivity|].
      exists [Debug "regex replacement result"]. split; [reflexivity|].
      intros c0 l. reflexivity.
    + unfold bindE in H.
      destruct (replaceLoop env conf (i + 1) v todo _)
        as [[[rest err] w2]|e] eqn:E; [|discriminate].
      unfold retE in H. injection H as _ <-.
      destruct (IH _ _ _ _ _ E) as (Hc & suf & Hs & Hq).
      split; [exact Hc|].
      exists ([Debug "regex replacement result";
               Debug "variable replacement result"] ++ suf)%list.
      split.
      * rewrite Hs. unfold logged. simpl. now rewrite <- app_assoc.
      * apply Quiet_app; [|exact Hq]. intros c0 l. reflexivity.
Qed.

(** A pass leaves the configuration; its log records one reordering when
    the template holds an index token, and none otherwise. *)
Lemma replaceMatches_log (conf : Config) (matches res : list Change)
    (w w' : World) :
  replaceMatches env conf matches w = Ret ((res, None), w') ->
  w_conf w' = w_conf w
  /\ exists suf,
       w_log w' = (w_log w ++ suf)%list
       /\ forall c l,
            reorderedAt c (suf ++ l)
            = ((if hasIndexToken env (Replacement conf) then [c] else [])
               ++ reorderedAt c l)%list.
Proof.
  rewrite replaceMatches_run. unfold hasIndexToken.
  destruct (extractVariables env (Replacement conf)) as [[vars [err|]]|e];
    try discriminate.
  destruct (replaceLoop env conf 0 vars _ _) as [[[r [err|]] w2]|e] eqn:E;
    try discriminate.
  intros H. injection H as _ <-.
  destruct (replaceLoop_log _ _ _ _ _ _ _ E) as (Hc & suf & Hs & Hq).
  split; [exact Hc|].
  exists ((Debug "extracted variables"
           :: if (0 <? GoInt.len (indexVars.matches (variables.index vars)))%Z
              then [Debug "sorted matches based on directory level"]
              else []) ++ suf)%list.
  split.
  - rewrite Hs. unfold logged. simpl. now rewrite <- app_assoc.
  - intros c l.
    destruct (0 <? GoInt.len (indexVars.matches (variables.index vars)))%Z;
      simpl; now rewrite Hq.
Qed.

(** The log of the chain loop records a reordering at each link whose
    template holds an index token, and at no other. *)
Lemma chainLoop_log :
  forall todo n i ms w res w',
    (0 <= i)%Z -> n = (i + GoInt.len todo)%Z ->
    chainLoop env n i todo ms w = Ret ((res, None), w') ->
    exists suf,
      w_log w' = (w_log w ++ suf)%list
      /\ forall c, reorderedAt c suf = indexLinks env i todo.
Proof.
  induction todo as [|v todo IH]; intros n i ms w res w' Hi Hn H; simpl in H.
  - unfold retE in H. injection H as _ <-. exists [].
    split; [now rewrite app_nil_r|reflexivity].
  - unfold bindE at 1 in H. rewrite chainBody_run in H.
    destruct (replaceMatches env _ ms _) as [[[ms1 [err|]] w2]|e] eqn:E;
      try discriminate.
    destruct (replaceMatches_log _ _ _ _ _ E) as (Hc & suf & Hs & Hr).
    simpl in Hr, Hs. cbv zeta in H.
    assert (Hlen : (0 <= GoInt.len todo)%Z) by (unfold GoInt.len; lia).
    assert (Hn' : n = (i + 1 + GoInt.len todo)%Z).
    { rewrite Hn. unfold GoInt.len. simpl length. lia. }
    destruct ((n =? 1)%Z || ((0 <? i)%Z && (i =? n - 1)%Z)) eqn:Efinal.
    + unfold retE in H. injection H as <- <-.
      assert (Htodo : todo = []).
      { apply orb_true_iff in Efinal as [F|F].
        - apply Z.eqb_eq in F. destruct todo; [reflexivity|].
          unfold GoInt.len in Hn'. simpl length in Hn'. lia.
        - apply andb_true_iff in F as [_ F]. apply Z.eqb_eq in F.
          destruct todo; [reflexivity|].
          unfold GoInt.len in Hn'. simpl length in Hn'. lia. }
      subst todo.
      exists ((contextRecord (linkContext w v i) "executing find and replace"
               :: suf)
              ++ [contextRecord (linkContext w v i) "find/replace result"])%list.
      split.
      * unfold logged. simpl. rewrite Hs. simpl.
        now rewrite <- !app_assoc.
      * intros c. simpl. rewrite Hr. simpl. now rewrite app_nil_r.
    + destruct (SetFindStringRegex env _ (i + 1)) as [conf' [err|]] eqn:Eset.
      * unfold retE in H. discriminate.
      * destruct (IH n (i + 1)%Z _ _ _ _ ltac:(lia) ltac:(lia) H)
          as (suf2 & Hs2 & Hr2).
        exists ((contextRecord (linkContext w v i) "executing find and replace"
                 :: suf)
                ++ [contextRecord (linkContext w v i) "find/replace result";
                    contextRecord (linkContext w v i)
                      "updated sources for next find/replace"]
                ++ suf2)%list.
        split.
        -- rewrite Hs2. unfold logged. simpl. rewrite Hs. simpl.
           now rewrite <- !app_assoc.
        -- intros c. simpl. rewrite Hr. simpl. now rewrite Hr2.
Qed.

(** C3 (as amended). The hierarchical reordering is performed in every
    link whose template holds at least one index token, after the
    variables of the template are extracted and before the entries are
    walked, and in no other link.  In a chain that succeeds, every link
    the chain reaches runs its pass on the batch handed to it, and the
    loop of that pass walks the batch as [EnforceHierarchicalOrder]
    leaves it when the template of the link holds an index token, and
    the batch as it was handed over when it holds none; the log records
    the reordering in the first case only, so that the log of the chain
    records a reordering at exactly the links with an index token. *)
Theorem reordered_at_every_index_link (w : World) (matches res : list Change)
    (w' : World)
    (Hlog : w_log w = [])
    (Hok : handleReplacementChain env matches w = Ret ((res, None), w')) :
  reorderedAt (-1) (w_log w') = indexLinks env 0 (ReplacementSlice (w_conf w))
  /\ (forall k v rest ms wk,
        Reaches env (GoInt.len (ReplacementSlice (w_conf w))) 0
          (ReplacementSlice (w_conf w)) matches w k (v :: rest) ms wk ->
        exists vars ms' w2,
          extractVariables env v = Ret (vars, None)
          /\ replaceMatches env (withReplacement (w_conf wk) v) ms
               (entered wk v k) = Ret ((ms', None), w2)
          /\ replaceLoop env (withReplacement (w_conf wk) v) 0 vars
               (if hasIndexToken env v then EnforceHierarchicalOrder env ms
                else ms)
               (logged (entered wk v k)
                  (Debug "extracted variables"
                   :: if hasIndexToken env v
                      then [Debug "sorted matches based on directory level"]
                      else []))
             = Ret ((ms', None), w2)).
Proof.
  split.
  - unfold handleReplacementChain in Hok. unfold bindE, getConf in Hok.
    destruct (chainLoop_log _ _ _ _ _ _ _ (Z.le_refl 0) eq_refl Hok)
      as (suf & Hs & Hr).
    rewrite Hs, Hlog. simpl. apply Hr.
  - intros k v rest ms wk Hreach.
    unfold handleReplacementChain in Hok. unfold bindE, getConf in Hok.
    rewrite (Reaches_chainLoop env _ _ _ _ _ _ _ _ _ Hreach) in Hok.
    cbn [chainLoop] in Hok. unfold bindE at 1 in Hok.
    rewrite chainBody_run in Hok.
    destruct (replaceMatches env (withReplacement (w_conf wk) v) ms
                (entered wk v k)) as [[[ms' [err|]] w2]|e] eqn:E;
      try discriminate Hok.
    pose proof E as Erun. rewrite replaceMatches_run in Erun.
    cbn [Replacement withReplacement] in Erun.
    destruct (extractVariables env v) as [[vars [err|]]|e] eqn:Hv;
      try discriminate Erun.
    exists vars, ms', w2.
    split; [reflexivity|]. split; [reflexivity|].
    unfold hasIndexToken. rewrite Hv. unfold walked in Erun.
    destruct (replaceLoop env _ 0 vars _ _) as [[[r [err|]] w3]|e] eqn:El;
      try discriminate Erun.
    now injection Erun as -> ->.
Qed.

End ReorderFacts.

Lemma reordered_at_every_index_link_witness :
  reorderedAt (-1)
    (w_log (worldOf Demo.indexWorld
              (handleReplacementChain Demo.env [Demo.file "d" "x"]
                 Demo.indexWorld)))
  = indexLinks Demo.env 0 ["{%d}a"; "{%d}b"].
Proof.
  apply (reordered_at_every_index_link Demo.env Demo.indexWorld
           [Demo.file "d" "x"]
           (batchOf (handleReplacementChain Demo.env [Demo.file "d" "x"]
                       Demo.indexWorld))
           (worldOf Demo.indexWorld
              (handleReplacementChain Demo.env [Demo.file "d" "x"]
                 Demo.indexWorld))).
  - reflexivity.
  - vm_compute. reflexivity.
Defined.

(** In a chain of two links whose templates both hold an index token the
    batch is reordered in both links, not only before the first. *)
Lemma reordered_once_counterexample : ~ ReorderedOnlyBeforeFirst Demo.env.
Proof.
  intros H.
  assert (Hrun : handleReplacementChain Demo.env [Demo.file "d" "x"]
                   Demo.indexWorld
                 = Ret ((batchOf (handleReplacementChain Demo.env
                                    [Demo.file "d" "x"] Demo.indexWorld),
                         None),
                        worldOf Demo.indexWorld
                          (handleReplacementChain Demo.env [Demo.file "d" "x"]
                             Demo.indexWorld)))
    by (vm_compute; reflexivity).
  specialize (H Demo.indexWorld _ _ _ eq_refl Hrun).
  assert (Hl : reorderedAt (-1)
                 (w_log (worldOf Demo.indexWorld
                           (handleReplacementChain Demo.env
                              [Demo.file "d" "x"] Demo.indexWorld)))
               = [0%Z; 1%Z]) by (vm_compute; reflexivity).
  assert (Hf : firstIndexLink Demo.env
                 (ReplacementSlice (w_conf Demo.indexWorld)) = [0%Z])
    by (vm_compute; reflexivity).
  rewrite Hl, Hf in H. discriminate H.
Qed.

(* ================================================================== *)
(** * Part III: further properties of the package                      *)
(* ================================================================== *)

(** ** The extraction of the variables of a template *)

Section ExtractionFacts.
Variable env : Env.

Lemma matchString_nil (re : Regexp.t) (s : string) :
  Regexp.allMatches re s = [] -> Regexp.MatchString re s = false.
Proof. unfold Regexp.MatchString. now intros ->. Qed.

Lemma findAll_nil (re : Regexp.t) (s : string) :
  Regexp.allMatches re s = [] -> Regexp.FindAllStringSubmatch re s = [].
Proof. unfold Regexp.FindAllStringSubmatch. now intros ->. Qed.

(** X1. A template in which none of the eleven patterns finds a match
    has no variables: every lexicon returns its empty collection, and
    the extraction returns the zero value of [variables] and no error. *)
Theorem extraction_of_plain_template (template : string)
    (Hnone : forall k,
        Regexp.allMatches (lexiconRegex env k) template = []) :
  extractVariables env template = Ret (variables.zero, None)
  /\ forall k, extract env k template = Ret None.
Proof.
  pose proof (Hnone KFilename) as H1. pose proof (Hnone KExtension) as H2.
  pose proof (Hnone KParentDir) as H3. pose proof (Hnone KExif) as H4.
  pose proof (Hnone KIndex) as H5. pose proof (Hnone KID3) as H6.
  pose proof (Hnone KHash) as H7. pose proof (Hnone KDate) as H8.
  pose proof (Hnone KExifTool) as H9. pose proof (Hnone KTransform) as H10.
  pose proof (Hnone KCSV) as H11. simpl in *.
  assert (G1 : getFilenameVars env template = Ret (filenameVars.zero, None))
    by (unfold getFilenameVars; now rewrite (matchString_nil _ _ H1)).
  assert (G2 : getExtVars env template = Ret (extVars.zero, None))
    by (unfold getExtVars; now rewrite (matchString_nil _ _ H2)).
  assert (G3 : getParentDirVars env template = Ret (parentDirVars.zero, None))
    by (unfold getParentDirVars; now rewrite (matchString_nil _ _ H3)).
  assert (G4 : getExifVars env template = Ret (exifVars.zero, None))
    by (unfold getExifVars; now rewrite (matchString_nil _ _ H4)).
  assert (G5 : getIndexingVars env template = Ret (indexVars.zero, None))
    by (unfold getIndexingVars; now rewrite (findAll_nil _ _ H5)).
  assert (G6 : getID3Vars env template = Ret (id3Vars.zero, None))
    by (unfold getID3Vars; now rewrite (matchString_nil _ _ H6)).
  assert (G7 : getHashVars env template = Ret (hashVars.zero, None))
    by (unfold getHashVars; now rewrite (matchString_nil _ _ H7)).
  assert (G8 : getDateVars env template = Ret (dateVars.zero, None))
    by (unfold getDateVars; now rewrite (matchString_nil _ _ H8)).
  assert (G9 : getExifToolVars env template = Ret (exiftoolVars.zero, None))
    by (unfold getExifToolVars; now rewrite (matchString_nil _ _ H9)).
  assert (G10 : getTransformVars env template = Ret (transformVars.zero, None))
    by (unfold getTransformVars; now rewrite (matchString_nil _ _ H10)).
  assert (G11 : getCSVVars env template = Ret (csvVars.zero, None))
    by (unfold getCSVVars; now rewrite (matchString_nil _ _ H11)).
  split.
  - unfold extractVariables.
    rewrite G1, G2, G3, G4, G5, G6, G7, G8, G9, G10, G11. reflexivity.
  - intros k. destruct k; unfold extract, errorOf;
      rewrite ?G1, ?G2, ?G3, ?G4, ?G5, ?G6, ?G7, ?G8, ?G9, ?G10, ?G11;
      reflexivity.
Qed.

(** X2. The extraction runs the lexicons in the order filename,
    extension, parent directory, exif, index, id3, hash, date, exiftool,
    transform, csv, and stops at the first that fails: when the lexicons
    before one kind return without error and the lexicon of that kind
    returns an error, the extraction returns that error, whatever the
    later lexicons would do; when it panics, the extraction panics. *)
Theorem extraction_stops_at_first_failure (template : string)
    (before after : list VariableKind) (k : VariableKind)
    (o : Go (option error))
    (Horder : kinds = (before ++ k :: after)%list)
    (Hbefore : forall j, In j before -> extract env j template = Ret None)
    (Hk : extract env k template = o)
    (Hfail : o <> Ret None) :
  errorOf (extractVariables env template) = o.
Proof.
  rewrite extractVariables_firstFailure, Horder.
  now apply firstFailure_at.
Qed.

(** X3. When the extraction succeeds, every lexicon has returned without
    error and each field of the variables holds what the lexicon of its
    kind returned. *)
Theorem extraction_collects_every_lexicon (template : string)
    (vars : variables.t)
    (Hok : extractVariables env template = Ret (vars, None)) :
  getFilenameVars env template = Ret (variables.filename vars, None)
  /\ getExtVars env template = Ret (variables.ext vars, None)
  /\ getParentDirVars env template = Ret (variables.parentDir vars, None)
  /\ getExifVars env template = Ret (variables.exif vars, None)
  /\ getIndexingVars env template = Ret (variables.index vars, None)
  /\ getID3Vars env template = Ret (variables.id3 vars, None)
  /\ getHashVars env template = Ret (variables.hash vars, None)
  /\ getDateVars env template = Ret (variables.date vars, None)
  /\ getExifToolVars env template = Ret (variables.exiftool vars, None)
  /\ getTransformVars env template = Ret (variables.transform vars, None)
  /\ getCSVVars env template = Ret (variables.csv vars, None).
Proof.
  revert Hok. unfold extractVariables.
  destruct (getFilenameVars env template) as [[x1 [e|]]|e];
    cbn [bindGo]; try discriminate.
  destruct (getExtVars env template) as [[x2 [e|]]|e];
    cbn [bindGo]; try discriminate.
  destruct (getParentDirVars env template) as [[x3 [e|]]|e];
    cbn [bindGo]; try discriminate.
  destruct (getExifVars env template) as [[x4 [e|]]|e];
    cbn [bindGo]; try discriminate.
  destruct (getIndexingVars env template) as [[x5 [e|]]|e];
    cbn [bindGo]; try discriminate.
  destruct (getID3Vars env template) as [[x6 [e|]]|e];
    cbn [bindGo]; try discriminate.
  destruct (getHashVars env template) as [[x7 [e|]]|e];
    cbn [bindGo]; try discriminate.
  destruct (getDateVars env template) as [[x8 [e|]]|e];
    cbn [bindGo]; try discriminate.
  destruct (getExifToolVars env template) as [[x9 [e|]]|e];
    cbn [bindGo]; try discriminate.
  destruct (getTransformVars env template) as [[x10 [e|]]|e];
    cbn [bindGo]; try discriminate.
  destruct (getCSVVars env template) as [[x11 [e|]]|e];
    cbn [bindGo]; try discriminate.
  intros H. injection H as <-. repeat split.
Qed.

(** X4. In every lexicon, when the text of the first token match does
    not compile as a regular expression, the lexicon returns the error of
    the compiler (provided the match has the entries the lexicon
    expects). *)
Theorem lexicon_returns_compile_error (k : VariableKind) (template : string)
    (sm : list string) (rest : list (list string)) (s0 : string) (e : error)
    (Hfind : Regexp.FindAllStringSubmatch (lexiconRegex env k) template
             = sm :: rest)
    (Hlen : (expectedLength k <= GoInt.len sm)%Z)
    (Hs0 : nth_error sm 0 = Some s0)
    (Hcompile : Compile env s0 = inr e) :
  extract env k template = Ret (Some e).
Proof.
  pose proof (matchString_cons _ _ _ _ Hfind) as Hm.
  assert (Hlt : (GoInt.len sm <? expectedLength k)%Z = false)
    by (apply Z.ltb_ge; exact Hlen).
  destruct sm as [|x sm']; [discriminate|]. injection Hs0 as ->.
  destruct k; simpl in *;
    unfold getFilenameVars, getExtVars, getParentDirVars, getExifVars,
      getIndexingVars, getID3Vars, getHashVars, getDateVars, getExifToolVars,
      getTransformVars, getCSVVars;
    rewrite ?Hm, Hfind; simpl; rewrite Hlt; cbn [bindGo];
    rewrite Hcompile; reflexivity.
Qed.

End ExtractionFacts.

Lemma extraction_of_plain_template_witness :
  extractVariables Demo.env "y" = Ret (variables.zero, None).
Proof.
  apply (extraction_of_plain_template Demo.env "y").
  intros k. destruct k; reflexivity.
Defined.

Lemma extraction_stops_at_first_failure_witness :
  errorOf (extractVariables Demo.shortEnv "{%d}{f}")
  = Ret (Some errInvalidSubmatches)
  /\ extract Demo.shortEnv KIndex "{%d}{f}" = Panic errInvalidSubmatches.
Proof.
  split; [|reflexivity].
  apply (extraction_stops_at_first_failure Demo.shortEnv "{%d}{f}" []
           [KExtension; KParentDir; KExif; KIndex; KID3; KHash; KDate;
            KExifTool; KTransform; KCSV] KFilename).
  - reflexivity.
  - intros j [].
  - reflexivity.
  - discriminate.
Defined.

Lemma extraction_collects_every_lexicon_witness :
  getIndexingVars Demo.env "{%d}a"
  = Ret (variables.index
           (valueOf variables.zero (extractVariables Demo.env "{%d}a")),
         None).
Proof.
  apply (extraction_collects_every_lexicon Demo.env "{%d}a"
           (valueOf variables.zero (extractVariables Demo.env "{%d}a"))).
  vm_compute. reflexivity.
Defined.

Lemma lexicon_returns_compile_error_witness :
  extract Demo.strictEnv KFilename "{(}" = Ret (Some (SyntaxError "{(}")).
Proof.
  apply (lexicon_returns_compile_error Demo.strictEnv KFilename "{(}"
           ["{(}"; EmptyString] [] "{(}" (SyntaxError "{(}")).
  - reflexivity.
  - vm_compute. discriminate.
  - reflexivity.
  - reflexivity.
Defined.

(** ** The index lexicon *)

Section IndexFacts.
Variable env : Env.

Lemma idx_nth (sm : list string) (k : nat) (x : string) :
  idx sm k = Ret x -> nth k sm EmptyString = x.
Proof.
  unfold idx. destruct (nth_error sm k) eqn:E; [|discriminate].
  intros H. injection H as <-. now apply nth_error_nth.
Qed.

Ltac read H sm k x E :=
  destruct (idx sm k) as [x|] eqn:E; cbn [bindGo] in H; [|discriminate];
  apply idx_nth in E.

(** The loop of the index lexicon adds one variable for each token
    match, in order, and leaves the offsets. *)
Lemma indexLoop_shape :
  forall todo i acc v,
    indexLoop env i todo acc = Ret (v, None) ->
    exists ms,
      indexVars.matches v = (indexVars.matches acc ++ ms)%list
      /\ Forall2 (indexMatchOf env) todo ms
      /\ indexVars.capturVarIndex v
         = (indexVars.capturVarIndex acc ++ captureIndexes i todo)%list
      /\ indexVars.offset v = indexVars.offset acc.
Proof.
  induction todo as [|sm todo IH]; intros i acc v H.
  - simpl in H. injection H as <-. exists [].
    rewrite !app_nil_r. repeat split. constructor.
  - cbn [indexLoop] in H.
    destruct (GoInt.len sm <? 8)%Z; [discriminate|].
    read H sm 0 s0 E0.
    destruct (Compile env s0) as [regex|e] eqn:Ec; [|discriminate].
    read H sm 3 s3 E3. read H sm 5 s5 E5. read H sm 1 s1 E1.
    read H sm 2 s2 E2.
    destruct (String.eqb s2 EmptyString) eqn:B2; cbn [negb] in H;
      [|destruct (Strconv.Atoi s2) as [startv [e|]] eqn:A2; [discriminate|]];
      read H sm 6 s6 E6;
      (destruct (String.eqb s6 EmptyString) eqn:B6; cbn [negb] in H;
       [|destruct (Strconv.Atoi s6) as [stepv [e|]] eqn:A6; [discriminate|]]);
      read H sm 7 s7 E7;
      (destruct (String.eqb s7 EmptyString) eqn:B7; cbn [negb bindGo] in H;
       [|destruct (skipLoop (Strings.Split s7 ";") [])
           as [[skip [e|]]|e] eqn:Es; cbn [bindGo] in H; try discriminate]);
      destruct (IH _ _ _ H) as (ms & Hm & Hf & Hc & Ho);
      eexists (_ :: ms);
      cbn [indexVars.matches indexVars.capturVarIndex indexVars.offset] in *;
      (split;
       [ rewrite Hm;
         destruct (negb (String.eqb s1 EmptyString));
         cbn [indexVars.matches]; rewrite <- app_assoc; reflexivity
       | split;
         [ constructor; [|exact Hf];
           unfold indexMatchOf; cbn;
           rewrite E0, E3, E5, E2, E6, E7, B2, B6, B7, Ec;
           try rewrite A2; try rewrite A6; try rewrite Es;
           repeat split
         | split;
           [ rewrite Hc; cbn [captureIndexes]; rewrite E1;
             destruct (String.eqb s1 EmptyString);
             cbn [negb indexVars.capturVarIndex];
             rewrite <- ?app_assoc; reflexivity
           | rewrite Ho; destruct (negb (String.eqb s1 EmptyString));
             reflexivity ] ] ]).
Qed.

(** X5. When the index lexicon succeeds, it has made one index variable
    of each token match, in the order of the matches, with the fields
    read off the match (start number 1 unless the match gives one, no
    step unless it gives one, no skip range unless it gives some); it
    has recorded the positions of the matches that name a capture
    variable; and it has one offset, equal to zero, for each variable. *)
Theorem index_lexicon_shape (template : string) (v : indexVars.t)
    (Hok : getIndexingVars env template = Ret (v, None)) :
  Forall2 (indexMatchOf env)
    (Regexp.FindAllStringSubmatch (indexVarRegex env) template)
    (indexVars.matches v)
  /\ indexVars.capturVarIndex v
     = captureIndexes 0
         (Regexp.FindAllStringSubmatch (indexVarRegex env) template)
  /\ indexVars.offset v = map (fun _ => 0%Z) (indexVars.matches v)
  /\ length (indexVars.offset v)
     = length (Regexp.FindAllStringSubmatch (indexVarRegex env) template).
Proof.
  unfold getIndexingVars in Hok.
  destruct (Regexp.FindAllStringSubmatch (indexVarRegex env) template)
    as [|sm sms] eqn:Ef.
  - injection Hok as <-. repeat split. constructor.
  - destruct (indexLoop env 0 (sm :: sms) indexVars.zero)
      as [[v0 [e|]]|e] eqn:El; cbn [bindGo] in Hok; try discriminate.
    injection Hok as <-.
    destruct (indexLoop_shape _ _ _ _ El) as (ms & Hm & Hf & Hc & Ho).
    cbn [indexVars.matches indexVars.capturVarIndex indexVars.offset
         indexVars.zero] in *.
    rewrite Ho, Hm, Hc. cbn [app].
    repeat split; try exact Hf.
    rewrite length_map. symmetry. exact (Forall2_length Hf).
Qed.

End IndexFacts.

Lemma index_lexicon_shape_witness :
  length (indexVars.offset
            (valueOf indexVars.zero (getIndexingVars Demo.env "{%d<7-3;5>}")))
  = length (Regexp.FindAllStringSubmatch (indexVarRegex Demo.env)
              "{%d<7-3;5>}").
Proof.
  apply (index_lexicon_shape Demo.env "{%d<7-3;5>}"
           (valueOf indexVars.zero (getIndexingVars Demo.env "{%d<7-3;5>}"))).
  vm_compute. reflexivity.
Defined.

Section IndexFailures.
Variable env : Env.

Lemma idx_in_range (sm : list string) (k : nat) :
  k < length sm -> idx sm k = Ret (nth k sm EmptyString).
Proof.
  intros H. unfold idx.
  destruct (nth_error sm k) eqn:E.
  - now rewrite (nth_error_nth _ _ EmptyString E).
  - apply nth_error_None in E. lia.
Qed.

(** X6. A start number, a step or a skip list that does not parse as
    numbers fails the index lexicon: when the first token match has its
    eight entries and its text compiles, and the first of its start
    number, step and skip list to give an error gives [e], the lexicon
    returns [e]. *)
Theorem index_lexicon_rejects_bad_number (template : string)
    (sm : list string) (rest : list (list string)) (re : Regexp.t) (e : error)
    (Hfind : Regexp.FindAllStringSubmatch (indexVarRegex env) template
             = sm :: rest)
    (Hlen : (8 <= GoInt.len sm)%Z)
    (Hcompile : Compile env (nth 0 sm EmptyString) = inl re)
    (Hbad : indexNumberError sm = Some e) :
  errorOf (getIndexingVars env template) = Ret (Some e).
Proof.
  assert (Hl : 8 <= length sm) by (unfold GoInt.len in Hlen; lia).
  unfold getIndexingVars. rewrite Hfind. cbn [indexLoop].
  replace (GoInt.len sm <? 8)%Z with false by (symmetry; apply Z.ltb_ge; lia).
  rewrite ?idx_in_range by lia. cbn [bindGo]. rewrite Hcompile.
  rewrite ?idx_in_range by lia. cbn [bindGo].
  unfold indexNumberError, numberError, skipError in Hbad.
  destruct (String.eqb (nth 2 sm EmptyString) EmptyString); cbn [negb].
  - rewrite ?idx_in_range by lia. cbn [bindGo].
    destruct (String.eqb (nth 6 sm EmptyString) EmptyString); cbn [negb].
    + rewrite ?idx_in_range by lia. cbn [bindGo].
      destruct (String.eqb (nth 7 sm EmptyString) EmptyString);
        [discriminate|]. cbn [negb].
      destruct (skipLoop _ []) as [[skip [e0|]]|e0]; try discriminate.
      injection Hbad as ->. reflexivity.
    + destruct (Strconv.Atoi (nth 6 sm EmptyString)) as [n6 [e6|]];
        cbn [snd] in Hbad.
      * injection Hbad as ->. reflexivity.
      * rewrite ?idx_in_range by lia. cbn [bindGo].
        destruct (String.eqb (nth 7 sm EmptyString) EmptyString);
          [discriminate|]. cbn [negb].
        destruct (skipLoop _ []) as [[skip [e0|]]|e0]; try discriminate.
        injection Hbad as ->. reflexivity.
  - destruct (Strconv.Atoi (nth 2 sm EmptyString)) as [n2 [e2|]];
      cbn [snd] in Hbad.
    + injection Hbad as ->. reflexivity.
    + rewrite ?idx_in_range by lia. cbn [bindGo].
      destruct (String.eqb (nth 6 sm EmptyString) EmptyString); cbn [negb].
      * rewrite ?idx_in_range by lia. cbn [bindGo].
        destruct (String.eqb (nth 7 sm EmptyString) EmptyString);
          [discriminate|]. cbn [negb].
        destruct (skipLoop _ []) as [[skip [e0|]]|e0]; try discriminate.
        injection Hbad as ->. reflexivity.
      * destruct (Strconv.Atoi (nth 6 sm EmptyString)) as [n6 [e6|]];
          cbn [snd] in Hbad.
        -- injection Hbad as ->. reflexivity.
        -- rewrite ?idx_in_range by lia. cbn [bindGo].
           destruct (String.eqb (nth 7 sm EmptyString) EmptyString);
             [discriminate|]. cbn [negb].
           destruct (skipLoop _ []) as [[skip [e0|]]|e0]; try discriminate.
           injection Hbad as ->. reflexivity.
Qed.

End IndexFailures.

Lemma index_lexicon_rejects_bad_number_witness :
  errorOf (getIndexingVars Demo.oddEnv "{99999999999999999999%d}")
  = Ret (Some (NumError "Atoi" "99999999999999999999" true)).
Proof.
  apply (index_lexicon_rejects_bad_number Demo.oddEnv
           "{99999999999999999999%d}"
           ["{99999999999999999999%d}"; EmptyString; "99999999999999999999";
            "%d"; EmptyString; EmptyString; EmptyString; EmptyString] []
           (Demo.literal "{99999999999999999999%d}")).
  - reflexivity.
  - vm_compute. discriminate.
  - reflexivity.
  - vm_compute. reflexivity.
Defined.

(** ** The skip list of an index token *)

Section SkipFacts.

Lemma splitFrom_cons (sep : string) :
  forall s skip cur, exists a more, Strings.splitFrom sep skip cur s = a :: more.
Proof.
  induction s as [|c r IH]; intros skip cur; cbn [Strings.splitFrom].
  - eauto.
  - destruct skip as [|k]; [|apply IH].
    destruct (prefix sep (String c r)); [eauto|apply IH].
Qed.

Lemma splitFrom_dash :
  forall s cur,
    index 0 "-" s <> None ->
    exists a b more, Strings.splitFrom "-" 0 cur s = a :: b :: more.
Proof.
  induction s as [|c r IH]; intros cur H.
  - now elim H.
  - cbn [Strings.splitFrom]. cbn [index] in H.
    destruct (prefix "-" (String c r)).
    + destruct (splitFrom_cons "-" r (String.length "-" - 1) EmptyString)
        as (b & more & E). rewrite E. eauto.
    + apply IH. destruct (index 0 "-" r); [discriminate|now elim H].
Qed.

(** A piece that holds a dash splits at the dash into two parts or
    more. *)
Lemma Split_dash (val : string) :
  Strings.Contains val "-" = true ->
  exists a b more, Strings.Split val "-" = a :: b :: more.
Proof.
  unfold Strings.Contains, Strings.Split. intros H.
  apply splitFrom_dash. destruct (index 0 "-" val); [discriminate|discriminate].
Qed.

Lemma skipLoop_returns :
  forall numRanges skip,
  exists added err,
    skipLoop numRanges skip = Ret ((skip ++ added)%list, err)
    /\ length added <= length numRanges
    /\ (err = None -> length added = length numRanges).
Proof.
  induction numRanges as [|val rest IH]; intros skip.
  - exists [], None. cbn [skipLoop]. rewrite app_nil_r. auto.
  - cbn [skipLoop].
    assert (Hstop : forall e : error,
               exists added err,
                 Ret (skip, Some e) = Ret ((skip ++ added)%list, err)
                 /\ length added <= length (val :: rest)
                 /\ (err = None -> length added = length (val :: rest))).
    { intros e. exists [], (Some e). rewrite app_nil_r.
      repeat split; [simpl; lia|discriminate]. }
    assert (Hgo : forall r,
               exists added err,
                 skipLoop rest (skip ++ [r])
                 = Ret ((skip ++ added)%list, err)
                 /\ length added <= length (val :: rest)
                 /\ (err = None -> length added = length (val :: rest))).
    { intros r. destruct (IH (skip ++ [r])%list) as (added & err & E & L1 & L2).
      exists (r :: added), err. rewrite E, <- app_assoc. simpl.
      repeat split; [lia|]. intros H. now rewrite (L2 H). }
    destruct (Strings.Contains val "-") eqn:Hc.
    + destruct (Split_dash val Hc) as (a & b & more & ->).
      unfold idx. cbn [nth_error bindGo].
      destruct (Strconv.Atoi a) as [n0 [e|]]; [apply Hstop|].
      destruct (Strconv.Atoi b) as [n1 [e|]]; [apply Hstop|]. apply Hgo.
    + destruct (Strconv.Atoi val) as [n [e|]]; [apply Hstop|]. apply Hgo.
Qed.

(** X8. The loop over the pieces of a skip list never panics: a piece
    that holds a dash always splits into the two parts the loop reads.
    It returns the ranges it was given followed by at most one range for
    each piece, and exactly one for each piece when it returns no
    error. *)
Theorem skip_list_never_panics (numRanges : list string)
    (skip : list numbersToSkip.t) :
  exists added err,
    skipLoop numRanges skip = Ret ((skip ++ added)%list, err)
    /\ length added <= length numRanges
    /\ (err = None -> length added = length numRanges).
Proof. apply skipLoop_returns. Qed.

Lemma skipLoop_ordered :
  forall numRanges skip res,
    Forall smallNumbers numRanges ->
    Forall ordered skip ->
    skipLoop numRanges skip = Ret (res, None) ->
    Forall ordered res.
Proof.
  induction numRanges as [|val rest IH]; intros skip res Hsmall Hskip Hrun.
  - cbn [skipLoop] in Hrun. now injection Hrun as <-.
  - inversion Hsmall as [|? ? Hval Hrest]; subst.
    cbn [skipLoop] in Hrun.
    destruct (Strings.Contains val "-") eqn:Hc.
    + destruct (Split_dash val Hc) as (a & b & more & Hs).
      rewrite Hs in Hrun. unfold idx in Hrun. cbn [nth_error bindGo] in Hrun.
      destruct (Strconv.Atoi a) as [n0 [e|]] eqn:Ea; [discriminate|].
      destruct (Strconv.Atoi b) as [n1 [e|]] eqn:Eb; [discriminate|].
      assert (Ha : (Z.abs n0 < 2 ^ 53)%Z).
      { apply (Hval a n0); [|exact Ea]. rewrite Hs. right. now left. }
      assert (Hb : (Z.abs n1 < 2 ^ 53)%Z).
      { apply (Hval b n1); [|exact Eb]. rewrite Hs. right. right. now left. }
      unfold GoInt.float64_Max, GoInt.float64_Min in Hrun.
      rewrite !float64_of_int_exact in Hrun by assumption.
      rewrite !int_of_float64_exact in Hrun by lia.
      apply (IH _ _ Hrest) in Hrun; [exact Hrun|].
      apply Forall_app. split; [exact Hskip|].
      constructor; [|constructor]. unfold ordered. simpl. lia.
    + destruct (Strconv.Atoi val) as [n [e|]]; [discriminate|].
      apply (IH _ _ Hrest) in Hrun; [exact Hrun|].
      apply Forall_app. split; [exact Hskip|].
      constructor; [|constructor]. unfold ordered. simpl. lia.
Qed.

(** X9. When the numbers of a skip list are below 2^53 in magnitude,
    every range the loop stores is in order, its [min] at most its [max],
    in whichever order the bounds were written; and there is one range
    for each piece of the list. *)
Theorem skip_ranges_are_ordered (numRanges : list string)
    (res : list numbersToSkip.t)
    (Hsmall : Forall smallNumbers numRanges)
    (Hok : skipLoop numRanges [] = Ret (res, None)) :
  Forall ordered res /\ length res = length numRanges.
Proof.
  split.
  - now apply (skipLoop_ordered numRanges [] res).
  - destruct (skipLoop_returns numRanges []) as (added & err & E & _ & L).
    rewrite E in Hok. injection Hok as <- ->. simpl. now apply L.
Qed.

(** X10. A piece of a skip list that begins with a dash, as a negative
    number does, is read as a range whose first bound is the empty
    string: the loop stops there with the syntax error of [strconv.Atoi]
    on the empty string, whatever follows the dash. *)
Theorem skip_rejects_leading_dash (x : string) (rest : list string)
    (skip : list numbersToSkip.t) :
  skipLoop (String "-" x :: rest) skip
  = Ret (skip, Some (NumError "Atoi" EmptyString false)).
Proof.
  cbn [skipLoop].
  assert (Hc : Strings.Contains (String "-" x) "-" = true).
  { unfold Strings.Contains. cbn [index prefix].
    destruct (ascii_dec "-" "-") as [_|n]; [|now elim n].
    now destruct x. }
  rewrite Hc. unfold Strings.Split. cbn [Strings.splitFrom prefix].
  destruct (ascii_dec "-" "-") as [_|n]; [|now elim n].
  replace (prefix EmptyString x) with true by (now destruct x).
  reflexivity.
Qed.

End SkipFacts.

Lemma skip_ranges_are_ordered_witness :
  Forall ordered [numbersToSkip.mk 7 3; numbersToSkip.mk 5 5]
  /\ length [numbersToSkip.mk 7 3; numbersToSkip.mk 5 5]
     = length ["7-3"; "5"].
Proof.
  apply (skip_ranges_are_ordered ["7-3"; "5"]).
  - repeat constructor; intros part n Hin Ha; vm_compute in Hin;
      repeat (destruct Hin as [<-|Hin]; [vm_compute in Ha;
        first [discriminate Ha | injection Ha as <-; vm_compute; reflexivity]|]);
      destruct Hin.
  - vm_compute. reflexivity.
Defined.

(** ** A limit that covers every match *)

Section CoveringLimit.
Variable re : Regexp.t.
Variables input repl : string.

Lemma substituteMatches_ext_in (f g : nat -> Regexp.Match -> string) :
  forall ms last k,
    (forall j m, k <= j < k + length ms -> In m ms -> f j m = g j m) ->
    substituteMatches input last k ms f = substituteMatches input last k ms g.
Proof.
  induction ms as [|m ms IH]; intros last k H; simpl; [reflexivity|].
  rewrite (H k m) by (simpl; auto; lia).
  rewrite (IH (Regexp.m_hi m) (S k)); [reflexivity|].
  intros j m' Hj Hin. apply H; [simpl; lia|now right].
Qed.

(** X11. A limit whose magnitude is at least the number of matches
    replaces every match, but with what the expression makes of the text
    of the match alone; when that is, for each match, what the template
    expands to on the match where it stands, the result is the result of
    the unlimited replacement. *)
Theorem covering_limit_is_unlimited (limit : Z)
    (Hlimit : GoInt.inRange limit = true)
    (Hcover : (GoInt.len (Regexp.FindAllString re input) <= Z.abs limit)%Z)
    (Hlocal : forall m,
        In m (Regexp.allMatches re input) ->
        Regexp.ReplaceAllString re (Regexp.text input m) repl
        = Regexp.expand re repl m) :
  regexReplace re input repl limit = Regexp.ReplaceAllString re input repl.
Proof.
  apply inRange_bounds in Hlimit.
  rewrite len_FindAllString in Hcover.
  set (ms := Regexp.allMatches re input) in *.
  assert (Hrhs : Regexp.ReplaceAllString re input repl
                 = substituteMatches input 0 0 ms
                     (fun _ m => Regexp.expand re repl m)).
  { unfold Regexp.ReplaceAllString. fold ms.
    now rewrite (replaceAll_stateless input _ _ 0 0). }
  rewrite Hrhs. unfold regexReplace.
  destruct (Z.ltb_spec 0 limit) as [Hpos|Hnpos].
  - unfold Regexp.ReplaceAllStringFunc. fold ms.
    pose proof (replaceAll_first re input repl limit ltac:(lia) ms 0 0) as H.
    replace (Z.min (Z.of_nat 0) limit) with 0%Z in H by (simpl; lia).
    unfold Regexp.text in *. rewrite H.
    apply substituteMatches_ext_in. intros j m Hj Hin.
    destruct (Z.ltb_spec (Z.of_nat j) limit) as [_|Hge].
    + now apply Hlocal.
    + unfold GoInt.len in Hcover. lia.
  - destruct (Z.ltb_spec limit 0) as [Hneg|Hz]; [|exact Hrhs].
    unfold Regexp.ReplaceAllStringFunc.
    rewrite len_FindAllString. fold ms.
    assert (Hnn : (0 <= GoInt.len ms)%Z) by (unfold GoInt.len; lia).
    assert (Hl : GoInt.add (GoInt.len ms) limit = (GoInt.len ms + limit)%Z).
    { apply add_small. unfold GoInt.minInt, GoInt.maxInt in *. lia. }
    rewrite Hl.
    pose proof (replaceAll_last re input repl (GoInt.len ms + limit)%Z
                  ltac:(unfold GoInt.maxInt; lia) ms 0 0) as H.
    replace (Z.min (Z.of_nat 0) (Z.max (GoInt.len ms + limit) 0))
      with 0%Z in H by (simpl; lia).
    unfold Regexp.text in *. rewrite H.
    apply substituteMatches_ext_in. intros j m Hj Hin.
    destruct (Z.leb_spec (GoInt.len ms + limit) (Z.of_nat j)) as [_|Hlt].
    + now apply Hlocal.
    + lia.
Qed.

End CoveringLimit.

Lemma covering_limit_is_unlimited_witness :
  regexReplace (Demo.literal "X") "aXaXaXa" "-" (-5)
  = Regexp.ReplaceAllString (Demo.literal "X") "aXaXaXa" "-".
Proof.
  apply (covering_limit_is_unlimited (Demo.literal "X") "aXaXaXa" "-" (-5)).
  - reflexivity.
  - vm_compute. discriminate.
  - intros m Hin. vm_compute in Hin.
    repeat (destruct Hin as [<-|Hin]; [vm_compute; reflexivity|]).
    destruct Hin.
Defined.

(** ** The files of a batch through a pass *)

Section PassInvariants.
Variable env : Env.

Lemma Passes_sameFile (conf : Config) :
  forall i vars todo res vars',
    Passes env conf i vars todo res vars' -> Forall2 sameFile todo res.
Proof.
  intros i vars todo res vars' H.
  induction H as [|i c r todo res vars vars1 vars' Hone _ IH]; constructor.
  - destruct (passOne_ok env _ _ _ _ _ _ Hone) as (name & _ & ->).
    unfold sameFile, recorded. simpl. auto.
  - exact IH.
Qed.

(** X12. A pass that succeeds returns one entry for each entry it
    walked, in the order walked, and each stands for the same file: the
    source, the base directory and the directory flag are those of the
    entry walked.  When the template holds no index token the entries
    walked are the entries given. *)
Theorem pass_keeps_every_file (conf : Config) (matches res : list Change)
    (w w' : World)
    (Hok : replaceMatches env conf matches w = Ret ((res, None), w')) :
  exists vars,
    extractVariables env (Replacement conf) = Ret (vars, None)
    /\ Forall2 sameFile (walked env vars matches) res
    /\ length res = length (walked env vars matches)
    /\ (hasIndexToken env (Replacement conf) = false ->
        Forall2 sameFile matches res /\ length res = length matches).
Proof.
  destruct (replaceMatches_ok env _ _ _ _ _ Hok) as (vars & vars' & Hv & Hp).
  pose proof (Passes_sameFile _ _ _ _ _ _ Hp) as HF.
  exists vars. split; [exact Hv|]. split; [exact HF|].
  split; [symmetry; apply (Forall2_length HF)|].
  intros Hno. unfold hasIndexToken in Hno. rewrite Hv in Hno.
  unfold walked in HF. rewrite Hno in HF.
  split; [exact HF|symmetry; apply (Forall2_length HF)].
Qed.

End PassInvariants.

Lemma pass_keeps_every_file_witness :
  exists vars,
    extractVariables Demo.env (Replacement Demo.xyConf) = Ret (vars, None)
    /\ Forall2 sameFile (walked Demo.env vars Demo.xyBatch)
         (batchOf (replaceMatches Demo.env Demo.xyConf Demo.xyBatch
                     Demo.xyWorld))
    /\ length (batchOf (replaceMatches Demo.env Demo.xyConf Demo.xyBatch
                          Demo.xyWorld))
       = length (walked Demo.env vars Demo.xyBatch)
    /\ (hasIndexToken Demo.env (Replacement Demo.xyConf) = false ->
        Forall2 sameFile Demo.xyBatch
          (batchOf (replaceMatches Demo.env Demo.xyConf Demo.xyBatch
                      Demo.xyWorld))
        /\ length (batchOf (replaceMatches Demo.env Demo.xyConf Demo.xyBatch
                              Demo.xyWorld))
           = length Demo.xyBatch).
Proof.
  apply (pass_keeps_every_file Demo.env Demo.xyConf Demo.xyBatch
           (batchOf (replaceMatches Demo.env Demo.xyConf Demo.xyBatch
                       Demo.xyWorld))
           Demo.xyWorld
           (worldOf Demo.xyWorld
              (replaceMatches Demo.env Demo.xyConf Demo.xyBatch Demo.xyWorld))).
  vm_compute. reflexivity.
Defined.

(** ** The recompilation of the search pattern between two links *)

Section ChainPositions.
Variable env : Env.

Lemma Reaches_position (n : Z) :
  forall i todo ms w j todo' ms' w',
    Reaches env n i todo ms w j todo' ms' w' ->
    (i <= j)%Z /\ (i + GoInt.len todo = j + GoInt.len todo')%Z.
Proof.
  intros i todo ms w j todo' ms' w' H.
  induction H as [|i v todo ms ms1 w w1 j todo' ms' w' _ _ [IH1 IH2]].
  - lia.
  - unfold GoInt.len in *. cbn [length]. lia.
Qed.

(** X13. When a link that is not the last one passes and the search
    pattern of the next link does not compile, the chain returns the
    error of [SetFindStringRegex] and the nil batch: the entries the link
    produced are not returned, and no later link runs. *)
Theorem chain_aborts_when_next_pattern_fails (w : World)
    (matches : list Change) (k : Z) (v : string) (rest : list string)
    (ms ms' : list Change) (wk w2 : World) (conf' : Config) (e : error)
    (Hreach : Reaches env (GoInt.len (ReplacementSlice (w_conf w))) 0
                (ReplacementSlice (w_conf w)) matches w k (v :: rest) ms wk)
    (Hmore : rest <> [])
    (Hpass : replaceMatches env (withReplacement (w_conf wk) v) ms
               (entered wk v k) = Ret ((ms', None), w2))
    (Hfind : SetFindStringRegex env (w_conf w2) (k + 1) = (conf', Some e)) :
  exists w',
    handleReplacementChain env matches w = Ret (([], Some e), w')
    /\ w_conf w' = conf'.
Proof.
  destruct (Reaches_position _ _ _ _ _ _ _ _ _ Hreach) as [Hk Hn].
  unfold handleReplacementChain. unfold bindE, getConf.
  rewrite (Reaches_chainLoop env _ _ _ _ _ _ _ _ _ Hreach).
  cbn [chainLoop]. unfold bindE at 1. rewrite chainBody_run, Hpass.
  cbv zeta.
  set (n := GoInt.len (ReplacementSlice (w_conf w))) in *.
  assert (Hlen : (0 < GoInt.len rest)%Z).
  { destruct rest; [congruence|]. unfold GoInt.len. cbn [length]. lia. }
  assert (Hnot : (n =? 1)%Z || ((0 <? k)%Z && (k =? n - 1)%Z) = false).
  { unfold GoInt.len in *. cbn [length] in Hn.
    destruct (Z.eqb_spec n 1); [lia|].
    destruct (Z.eqb_spec k (n - 1)); [lia|].
    now rewrite andb_false_r. }
  rewrite Hnot.
  change (w_conf (logged (logged w2 _) _)) with (w_conf w2).
  rewrite Hfind. eexists. split; reflexivity.
Qed.

Lemma chainLoop_final :
  forall todo n i ms w res w',
    (0 <= i)%Z -> n = (i + GoInt.len todo)%Z -> todo <> [] ->
    chainLoop env n i todo ms w = Ret ((res, None), w') ->
    exists conf ms0 w0 w1,
      replaceMatches env conf ms0 w0 = Ret ((res, None), w1).
Proof.
  induction todo as [|v rest IH]; intros n i ms w res w' Hi Hn Hne H;
    [congruence|].
  cbn [chainLoop] in H. unfold bindE at 1 in H. rewrite chainBody_run in H.
  destruct (replaceMatches env _ ms _) as [[[ms1 [err|]] w2]|e0] eqn:E;
    try discriminate.
  cbv zeta in H.
  destruct ((n =? 1)%Z || ((0 <? i)%Z && (i =? n - 1)%Z)) eqn:C.
  - unfold retE in H. injection H as <- _. eauto.
  - destruct (SetFindStringRegex env _ (i + 1)) as [conf' [err|]];
      [discriminate|].
    assert (Hrest : rest <> []).
    { intros ->. unfold GoInt.len in Hn. cbn [length] in Hn.
      destruct (Z.eqb_spec n 1); [discriminate|].
      destruct (Z.eqb_spec i (n - 1)); [|lia].
      destruct (Z.ltb_spec 0 i); [discriminate|lia]. }
    eapply (IH n (i + 1)%Z); [lia| |exact Hrest|exact H].
    unfold GoInt.len in *. cbn [length] in Hn. lia.
Qed.

(** [Replace] sorts when a sort key is set, then runs the chain; the
    error of the chain already comes with the nil batch. *)
Lemma Replace_run (changes : list Change) (w : World) :
  Replace env changes w
  = if negb (String.eqb (Sort (w_conf w)) EmptyString) then
      match sortChanges env changes (Sort (w_conf w))
              (ReverseSort (w_conf w)) with
      | (_, Some e) =>
          Ret (([], Some e),
               logged w [Debug "sorting matches before replacement"])
      | (sorted, None) =>
          handleReplacementChain env sorted
            (logged w [Debug "sorting matches before replacement";
                       Debug "updated match order according to sort value"])
      end
    else handleReplacementChain env changes w.
Proof.
  assert (Hchain : forall cs w0,
             match handleReplacementChain env cs w0 with
             | Ret ((_, Some err), w') => Ret (([], Some err), w')
             | Ret ((res, None), w') => Ret ((res, None), w')
             | Panic e => Panic e
             end = handleReplacementChain env cs w0).
  { intros cs w0.
    destruct (handleReplacementChain env cs w0) as [[[res [err|]] w1]|e0] eqn:E;
      try reflexivity.
    unfold handleReplacementChain in E. unfold bindE, getConf in E.
    now rewrite (chainLoop_error_nil env _ _ _ _ _ _ _ _ E). }
  unfold Replace. unfold bindE at 1. unfold getConf at 1. cbv beta iota.
  destruct (negb (String.eqb (Sort (w_conf w)) EmptyString)).
  - unfold bindE at 1. unfold bindE at 1. unfold slogDebug at 1.
    cbv beta iota.
    destruct (sortChanges env changes (Sort (w_conf w))
                (ReverseSort (w_conf w))) as [sorted [e|]].
    + reflexivity.
    + unfold bindE at 1. unfold slogDebug at 1. unfold retE at 1.
      cbv beta iota. unfold bindE at 1.
      unfold logged. cbn [w_conf w_log]. rewrite <- app_assoc. cbn [app].
      rewrite <- (Hchain sorted).
      destruct (handleReplacementChain env sorted _) as [[[res [err|]] w1]|e0];
        reflexivity.
  - unfold bindE at 1. unfold retE at 1. cbv beta iota. unfold bindE at 1.
    rewrite <- (Hchain changes).
    destruct (handleReplacementChain env changes w) as [[[res [err|]] w1]|e0];
      reflexivity.
Qed.

(** X14. Without a sort key [Replace] is the chain: it returns what
    [handleReplacementChain] returns on the entries as they were given,
    batch, error, panic and log alike; the nil batch it puts beside an
    error is the batch the chain already returns with one. *)
Theorem Replace_without_sort_is_the_chain (changes : list Change) (w : World)
    (Hsort : Sort (w_conf w) = EmptyString) :
  Replace env changes w = handleReplacementChain env changes w.
Proof. rewrite Replace_run, Hsort. reflexivity. Qed.

(** X15. With a sort key [Replace] sorts first.  When the sort fails it
    returns the error of the sort and the nil batch; no link runs: the
    configuration is as it was and the log holds the one record written
    before the sort.  When the sort succeeds it returns what the chain
    returns on the entries in the order of the sort. *)
Theorem Replace_sorts_before_the_chain (changes : list Change) (w : World)
    (Hsort : Sort (w_conf w) <> EmptyString) :
  (forall sorted e,
     sortChanges env changes (Sort (w_conf w)) (ReverseSort (w_conf w))
     = (sorted, Some e) ->
     Replace env changes w
     = Ret (([], Some e),
            mkWorld (w_conf w)
              (w_log w ++ [Debug "sorting matches before replacement"])))
  /\ (forall sorted,
        sortChanges env changes (Sort (w_conf w)) (ReverseSort (w_conf w))
        = (sorted, None) ->
        Replace env changes w
        = handleReplacementChain env sorted
            (logged w [Debug "sorting matches before replacement";
                       Debug "updated match order according to sort value"])).
Proof.
  apply String.eqb_neq in Hsort.
  split; intros; rewrite Replace_run, Hsort; cbn [negb]; rewrite H;
    reflexivity.
Qed.

(** X16. When [Replace] succeeds on a chain of at least one link, every
    entry it returns is as the last pass recorded it: its status is OK,
    its index is its position in the batch returned, its relative target
    path is the join of its base directory and its target, and no white
    space surrounds its target. *)
Theorem Replace_returns_recorded_entries (changes res : list Change)
    (w w' : World)
    (Hlinks : ReplacementSlice (w_conf w) <> [])
    (Hok : Replace env changes w = Ret ((res, None), w')) :
  forall k r, nth_error res k = Some r -> Recorded k r.
Proof.
  assert (Hchain : exists cs w0,
             w_conf w0 = w_conf w
             /\ handleReplacementChain env cs w0 = Ret ((res, None), w')).
  { rewrite Replace_run in Hok.
    destruct (negb (String.eqb (Sort (w_conf w)) EmptyString)).
    - destruct (sortChanges env changes _ _) as [sorted [e|]];
        [discriminate|].
      exists sorted. eexists. split; [|exact Hok]. reflexivity.
    - exists changes, w. split; [reflexivity|exact Hok]. }
  destruct Hchain as (cs & w0 & Hconf & Hrun).
  unfold handleReplacementChain in Hrun. unfold bindE, getConf in Hrun.
  rewrite Hconf in Hrun.
  apply chainLoop_final in Hrun; [|lia|lia|exact Hlinks].
  destruct Hrun as (conf & ms0 & w1 & w2 & Hpass).
  intros k r Hk.
  destruct (replaceMatches_entry env _ _ _ _ _ Hpass k r Hk)
    as (vars & c & name & _ & _ & ->).
  unfold Recorded, recorded. simpl. repeat split.
  apply TrimSpace_idempotent.
Qed.

End ChainPositions.

Lemma chain_aborts_when_next_pattern_fails_witness :
  exists w',
    handleReplacementChain Demo.strictFindEnv [Demo.file "d" "a"]
      Demo.parenWorld
    = Ret (([], Some (SyntaxError "(")), w')
    /\ w_conf w' = withReplacement (w_conf Demo.parenWorld) "b".
Proof.
  apply (chain_aborts_when_next_pattern_fails Demo.strictFindEnv
           Demo.parenWorld [Demo.file "d" "a"] 0 "b" ["c"]
           [Demo.file "d" "a"]
           [mkChange "a" "b" "d" "d/b" false 0 status.OK]
           Demo.parenWorld
           (worldOf Demo.parenWorld
              (replaceMatches Demo.strictFindEnv
                 (withReplacement (w_conf Demo.parenWorld) "b")
                 [Demo.file "d" "a"] (entered Demo.parenWorld "b" 0)))).
  - apply reaches_here.
  - discriminate.
  - vm_compute. reflexivity.
  - vm_compute. reflexivity.
Defined.

Lemma Replace_without_sort_is_the_chain_witness :
  Replace Demo.env [Demo.file "d" "a"] Demo.abcWorld
  = handleReplacementChain Demo.env [Demo.file "d" "a"] Demo.abcWorld.
Proof.
  apply (Replace_without_sort_is_the_chain Demo.env [Demo.file "d" "a"]
           Demo.abcWorld).
  reflexivity.
Defined.

Lemma Replace_sorts_before_the_chain_witness :
  Replace Demo.sortEnv [Demo.file "d" "a"; Demo.file "d" "ab"]
    (Demo.sortedWorld "size")
  = Ret (([], Some (OtherError "sort")),
         mkWorld (w_conf (Demo.sortedWorld "size"))
           (w_log (Demo.sortedWorld "size")
            ++ [Debug "sorting matches before replacement"])).
Proof.
  apply (proj1 (Replace_sorts_before_the_chain Demo.sortEnv
                  [Demo.file "d" "a"; Demo.file "d" "ab"]
                  (Demo.sortedWorld "size") ltac:(discriminate))
           [Demo.file "d" "a"; Demo.file "d" "ab"] (OtherError "sort")).
  reflexivity.
Defined.

Lemma Replace_returns_recorded_entries_witness :
  Recorded 1 (mkChange "a" "b" "d" "d/b" false 1 status.OK).
Proof.
  apply (Replace_returns_recorded_entries Demo.sortEnv
           [Demo.file "d" "a"; Demo.file "d" "ab"]
           (batchOf (Replace Demo.sortEnv
                       [Demo.file "d" "a"; Demo.file "d" "ab"]
                       (Demo.sortedWorld "name")))
           (Demo.sortedWorld "name")
           (worldOf (Demo.sortedWorld "name")
              (Replace Demo.sortEnv [Demo.file "d" "a"; Demo.file "d" "ab"]
                 (Demo.sortedWorld "name")))).
  - discriminate.
  - vm_compute. reflexivity.
  - vm_compute. reflexivity.
Defined.

(** ** One variable for each token *)

Section TokenCount.
Variable env : Env.

Ltac step H :=
  match type of H with
  | context [idx ?s ?k] =>
      destruct (idx s k); cbn [bindGo] in H; [|discriminate H]
  | context [Compile ?e ?s] => destruct (Compile e s); [|discriminate H]
  | context [Strconv.Atoi ?s] =>
      destruct (Strconv.Atoi s) as [? [?|]]; [discriminate H|]
  | context [if ?b then _ else _] => destruct b; try discriminate H
  end.

Ltac count IH H :=
  repeat step H; cbv beta iota in H; repeat step H;
  apply IH in H; rewrite H; cbv beta iota; simpl;
  rewrite ?length_app; simpl; lia.

Lemma filenameLoop_count :
  forall todo acc v,
    filenameLoop env todo acc = Ret (v, None) ->
    length (filenameVars.matches v)
    = length (filenameVars.matches acc) + length todo.
Proof.
  induction todo as [|sm rest IH]; intros acc v H; cbn [filenameLoop] in H.
  - injection H as <-. simpl. lia.
  - count IH H.
Qed.

Lemma extLoop_count :
  forall todo acc v,
    extLoop env todo acc = Ret (v, None) ->
    length (extVars.matches v) = length (extVars.matches acc) + length todo.
Proof.
  induction todo as [|sm rest IH]; intros acc v H; cbn [extLoop] in H.
  - injection H as <-. simpl. lia.
  - count IH H.
Qed.

Lemma parentDirLoop_count :
  forall todo acc v,
    parentDirLoop env todo acc = Ret (v, None) ->
    length (parentDirVars.matches v)
    = length (parentDirVars.matches acc) + length todo.
Proof.
  induction todo as [|sm rest IH]; intros acc v H; cbn [parentDirLoop] in H.
  - injection H as <-. simpl. lia.
  - count IH H.
Qed.

Lemma exifLoop_count :
  forall todo acc v,
    exifLoop env todo acc = Ret (v, None) ->
    length (exifVars.matches v) = length (exifVars.matches acc) + length todo.
Proof.
  induction todo as [|sm rest IH]; intros acc v H; cbn [exifLoop] in H.
  - injection H as <-. simpl. lia.
  - count IH H.
Qed.

Lemma id3Loop_count :
  forall todo acc v,
    id3Loop env todo acc = Ret (v, None) ->
    length (id3Vars.matches v) = length (id3Vars.matches acc) + length todo.
Proof.
  induction todo as [|sm rest IH]; intros acc v H; cbn [id3Loop] in H.
  - injection H as <-. simpl. lia.
  - count IH H.
Qed.

Lemma hashLoop_count :
  forall todo acc v,
    hashLoop env todo acc = Ret (v, None) ->
    length (hashVars.matches v) = length (hashVars.matches acc) + length todo.
Proof.
  induction todo as [|sm rest IH]; intros acc v H; cbn [hashLoop] in H.
  - injection H as <-. simpl. lia.
  - count IH H.
Qed.

Lemma dateLoop_count :
  forall todo acc v,
    dateLoop env todo acc = Ret (v, None) ->
    length (dateVars.matches v) = length (dateVars.matches acc) + length todo.
Proof.
  induction todo as [|sm rest IH]; intros acc v H; cbn [dateLoop] in H.
  - injection H as <-. simpl. lia.
  - count IH H.
Qed.

Lemma exiftoolLoop_count :
  forall todo acc v,
    exiftoolLoop env todo acc = Ret (v, None) ->
    length (exiftoolVars.matches v)
    = length (exiftoolVars.matches acc) + length todo.
Proof.
  induction todo as [|sm rest IH]; intros acc v H; cbn [exiftoolLoop] in H.
  - injection H as <-. simpl. lia.
  - count IH H.
Qed.

Lemma transformLoop_count :
  forall todo acc v,
    transformLoop env todo acc = Ret (v, None) ->
    length (transformVars.matches v)
    = length (transformVars.matches acc) + length todo.
Proof.
  induction todo as [|sm rest IH]; intros acc v H; cbn [transformLoop] in H.
  - injection H as <-. simpl. lia.
  - count IH H.
Qed.

Lemma csvLoop_count :
  forall todo acc v,
    csvLoop env todo acc = Ret (v, None) ->
    length (csvVars.values v) = length (csvVars.values acc) + length todo
    /\ csvVars.submatches v = csvVars.submatches acc.
Proof.
  induction todo as [|sm rest IH]; intros acc v H; cbn [csvLoop] in H.
  - injection H as <-. simpl. split; [lia|reflexivity].
  - repeat step H. apply IH in H. destruct H as [H1 H2].
    rewrite H1, H2. simpl. rewrite length_app. simpl. split; [lia|reflexivity].
Qed.

Lemma findAll_unmatched (re : Regexp.t) (s : string) :
  Regexp.MatchString re s = false -> Regexp.FindAllStringSubmatch re s = [].
Proof.
  unfold Regexp.MatchString, Regexp.FindAllStringSubmatch.
  destruct (Regexp.allMatches re s); [reflexivity|discriminate].
Qed.

Lemma getIndexingVars_count (template : string) (v : indexVars.t) :
  getIndexingVars env template = Ret (v, None) ->
  length (indexVars.matches v)
  = length (Regexp.FindAllStringSubmatch (indexVarRegex env) template).
Proof.
  unfold getIndexingVars. intros H.
  destruct (Regexp.FindAllStringSubmatch (indexVarRegex env) template)
    as [|sm sms] eqn:Ef.
  - now injection H as <-.
  - destruct (indexLoop env 0 (sm :: sms) indexVars.zero)
      as [[v0 [e|]]|e] eqn:El; cbn [bindGo] in H; try discriminate.
    injection H as <-.
    destruct (indexLoop_shape env _ _ _ _ El) as (ms & Hm & Hf & _).
    cbn [indexVars.matches indexVars.zero app] in *.
    rewrite Hm. symmetry. exact (Forall2_length Hf).
Qed.

Ltac lexicon get loop_count H :=
  unfold get in H;
  match type of H with
  | context [Regexp.MatchString ?re ?s] =>
      destruct (Regexp.MatchString re s) eqn:Em; cbn [negb] in H;
      [ apply loop_count in H; exact H
      | injection H as <-; now rewrite (findAll_unmatched _ _ Em) ]
  end.

(** X17. When the extraction succeeds, the variables hold one variable
    of each kind for each match of the pattern of that kind in the
    template, no more and no fewer; and the csv variables keep the
    matches of the csv pattern themselves. *)
Theorem extraction_stores_every_token (template : string)
    (vars : variables.t)
    (Hok : extractVariables env template = Ret (vars, None)) :
  (forall k,
     stored vars k
     = length (Regexp.FindAllStringSubmatch (lexiconRegex env k) template))
  /\ csvVars.submatches (variables.csv vars)
     = Regexp.FindAllStringSubmatch (csvVarRegex env) template.
Proof.
  revert Hok. unfold extractVariables.
  destruct (getFilenameVars env template) as [[x1 [e|]]|e] eqn:G1;
    cbn [bindGo]; try discriminate.
  destruct (getExtVars env template) as [[x2 [e|]]|e] eqn:G2;
    cbn [bindGo]; try discriminate.
  destruct (getParentDirVars env template) as [[x3 [e|]]|e] eqn:G3;
    cbn [bindGo]; try discriminate.
  destruct (getExifVars env template) as [[x4 [e|]]|e] eqn:G4;
    cbn [bindGo]; try discriminate.
  destruct (getIndexingVars env template) as [[x5 [e|]]|e] eqn:G5;
    cbn [bindGo]; try discriminate.
  destruct (getID3Vars env template) as [[x6 [e|]]|e] eqn:G6;
    cbn [bindGo]; try discriminate.
  destruct (getHashVars env template) as [[x7 [e|]]|e] eqn:G7;
    cbn [bindGo]; try discriminate.
  destruct (getDateVars env template) as [[x8 [e|]]|e] eqn:G8;
    cbn [bindGo]; try discriminate.
  destruct (getExifToolVars env template) as [[x9 [e|]]|e] eqn:G9;
    cbn [bindGo]; try discriminate.
  destruct (getTransformVars env template) as [[x10 [e|]]|e] eqn:G10;
    cbn [bindGo]; try discriminate.
  destruct (getCSVVars env template) as [[x11 [e|]]|e] eqn:G11;
    cbn [bindGo]; try discriminate.
  intros H. injection H as <-.
  assert (Hcsv : length (csvVars.values x11)
                 = length (Regexp.FindAllStringSubmatch (csvVarRegex env)
                             template)
                 /\ csvVars.submatches x11
                    = Regexp.FindAllStringSubmatch (csvVarRegex env) template).
  { unfold getCSVVars in G11.
    destruct (Regexp.MatchString (csvVarRegex env) template) eqn:Em.
    - apply csvLoop_count in G11. exact G11.
    - injection G11 as <-. now rewrite (findAll_unmatched _ _ Em). }
  split; [|apply Hcsv].
  intros k. destruct k; cbn [stored lexiconRegex]; simpl.
  - lexicon getFilenameVars filenameLoop_count G1.
  - lexicon getExtVars extLoop_count G2.
  - lexicon getParentDirVars parentDirLoop_count G3.
  - lexicon getExifVars exifLoop_count G4.
  - now apply getIndexingVars_count.
  - lexicon getID3Vars id3Loop_count G6.
  - lexicon getHashVars hashLoop_count G7.
  - lexicon getDateVars dateLoop_count G8.
  - lexicon getExifToolVars exiftoolLoop_count G9.
  - lexicon getTransformVars transformLoop_count G10.
  - apply Hcsv.
Qed.

End TokenCount.

Lemma extraction_stores_every_token_witness :
  stored (valueOf variables.zero (extractVariables Demo.env "{%d}a")) KIndex
  = length (Regexp.FindAllStringSubmatch (lexiconRegex Demo.env KIndex)
              "{%d}a").
Proof.
  apply (extraction_stores_every_token Demo.env "{%d}a"
           (valueOf variables.zero (extractVariables Demo.env "{%d}a"))).
  vm_compute. reflexivity.
Defined.

(** ** The numbers of the parent-directory and csv tokens *)

Section TokenNumbers.
Variable env : Env.

(** X18. The parent-directory and csv lexicons read the second entry of
    a token match as a number: when the first match has its three
    entries and its text compiles, and [strconv.Atoi] returns the error
    [e] on that entry, the lexicon returns [e].  The parent-directory
    lexicon reads the entry only when it is not empty (the count is then
    1); the csv lexicon reads it always, so that an empty column is an
    error. *)
Theorem parent_and_csv_numbers_must_parse (k : VariableKind)
    (template : string) (sm : list string) (rest : list (list string))
    (re : Regexp.t) (e : error)
    (Hkind : k = KParentDir \/ k = KCSV)
    (Hfind : Regexp.FindAllStringSubmatch (lexiconRegex env k) template
             = sm :: rest)
    (Hlen : (expectedLength k <= GoInt.len sm)%Z)
    (Hcompile : Compile env (nth 0 sm EmptyString) = inl re)
    (Hset : k = KParentDir -> nth 1 sm EmptyString <> EmptyString)
    (Hbad : snd (Strconv.Atoi (nth 1 sm EmptyString)) = Some e) :
  extract env k template = Ret (Some e)
  /\ (k = KCSV ->
      getCSVVars env template = Ret (csvVars.mk (sm :: rest) [], Some e)).
Proof.
  pose proof (matchString_cons _ _ _ _ Hfind) as Hm.
  assert (Hl : 3 <= length sm)
    by (destruct Hkind; subst k; unfold GoInt.len in Hlen; simpl in Hlen; lia).
  assert (Hlt : (GoInt.len sm <? 3)%Z = false)
    by (apply Z.ltb_ge; unfold GoInt.len; lia).
  destruct Hkind as [-> | ->]; cbn [lexiconRegex] in Hfind, Hm.
  - split; [|discriminate].
    unfold extract, getParentDirVars. rewrite Hm, Hfind.
    cbn [negb parentDirLoop]. rewrite Hlt.
    rewrite !idx_in_range by lia. cbn [bindGo]. rewrite Hcompile.
    apply String.eqb_neq in Hset; [|reflexivity]. rewrite Hset. cbn [negb].
    destruct (Strconv.Atoi (nth 1 sm EmptyString)) as [n [e0|]];
      cbn [snd] in Hbad; [|discriminate].
    injection Hbad as ->. reflexivity.
  - assert (G : getCSVVars env template
                = Ret (csvVars.mk (sm :: rest) [], Some e)).
    { unfold getCSVVars. rewrite Hm, Hfind. cbn [csvLoop]. rewrite Hlt.
      rewrite !idx_in_range by lia. cbn [bindGo]. rewrite Hcompile.
      destruct (Strconv.Atoi (nth 1 sm EmptyString)) as [n [e0|]];
        cbn [snd] in Hbad; [|discriminate].
      injection Hbad as ->. reflexivity. }
    split; [|intros _; exact G].
    unfold extract, errorOf. now rewrite G.
Qed.

End TokenNumbers.

Lemma parent_and_csv_numbers_must_parse_witness :
  extract Demo.csvEnv KCSV "{csv.99999999999999999999}"
  = Ret (Some (NumError "Atoi" "99999999999999999999" true))
  /\ (KCSV = KCSV ->
      getCSVVars Demo.csvEnv "{csv.99999999999999999999}"
      = Ret (csvVars.mk
               [["{csv.99999999999999999999}"; "99999999999999999999";
                 EmptyString]] [],
             Some (NumError "Atoi" "99999999999999999999" true))).
Proof.
  apply (parent_and_csv_numbers_must_parse Demo.csvEnv KCSV
           "{csv.99999999999999999999}"
           ["{csv.99999999999999999999}"; "99999999999999999999";
            EmptyString] []
           (Demo.literal "{csv.99999999999999999999}")).
  - right. reflexivity.
  - reflexivity.
  - vm_compute. discriminate.
  - reflexivity.
  - discriminate.
  - vm_compute. reflexivity.
Defined.
